(** * File preview: extension flags, renderer selection and preview session

    A shallow embedding of the file-preview component
    (web/src/components/admin/connectors/FilePreviewModal.tsx, the variant
    that fetches both the original and the indexed content) and of the
    icon selection of the connector configuration display (getFileIcon).

    Strings are modelled as [string] (sequences of 8-bit characters);
    [toLowerCase] acts on the ASCII letters.  A React state variable is a
    field of the record [State].  An async function is modelled by an entry
    in a pool of suspended tasks: the entry records the await it is
    suspended at and the props its closure captured, and the environment
    resumes it one await at a time, in any order, interleaved with renders
    and user events.  Calls that leave the component ([fetch],
    [URL.createObjectURL], [console.error], [onClose], a download click) are
    recorded in a log.  State setters of an instance that is no longer
    mounted do nothing.

    The other variant of the component in the same file, whose effect starts
    the original fetch only, is embedded as [runEffect1], [render1] and
    [step1].  The connector configuration display ([ConfigItem],
    [ConfigDisplay], [AdvancedConfigDisplay] and their helpers) is embedded
    as pure functions of its props and state variables: a value of a
    configuration is a [JsValue], a number of seconds is an integer, and a
    render that throws is [None]. *)

From Stdlib Require Import String Ascii List Bool Arith Lia DecimalString ZArith.
Import ListNotations.
Open Scope string_scope.

(* ================================================================= *)
(** ** JavaScript string helpers *)

Module Js.

(** [s.split(sep)] for a one-character separator: never the empty array. *)
Fixpoint split (sep : ascii) (s : string) : list string :=
  match s with
  | EmptyString => [EmptyString]
  | String c r =>
      if Ascii.eqb c sep then EmptyString :: split sep r
      else match split sep r with
           | seg :: rest => String c seg :: rest
           | [] => [String c EmptyString]
           end
  end.

(** [arr.pop()]: the last element, [undefined] on the empty array. *)
Fixpoint pop (l : list string) : option string :=
  match l with
  | [] => None
  | [x] => Some x
  | _ :: r => pop r
  end.

Definition lowerChar (c : ascii) : ascii :=
  let n := nat_of_ascii c in
  if Nat.leb 65 n && Nat.leb n 90 then ascii_of_nat (n + 32) else c.

Fixpoint toLowerCase (s : string) : string :=
  match s with
  | EmptyString => EmptyString
  | String c r => String (lowerChar c) (toLowerCase r)
  end.

(** Truthiness of a string, and of an optional (possibly [undefined]) one. *)
Definition truthy (s : string) : bool :=
  match s with EmptyString => false | _ => true end.

Definition truthyOpt (o : option string) : bool :=
  match o with Some s => truthy s | None => false end.

(** [a || b] where [a] may be undefined. *)
Definition orElse (a : option string) (b : string) : string :=
  match a with
  | Some s => if truthy s then s else b
  | None => b
  end.

(** [arr.includes(x)] on an array of strings. *)
Definition includes (arr : list string) (x : string) : bool :=
  existsb (String.eqb x) arr.

Fixpoint hasChar (c : ascii) (s : string) : bool :=
  match s with
  | EmptyString => false
  | String d r => Ascii.eqb d c || hasChar c r
  end.

End Js.

(* ================================================================= *)
(** ** Extension flags of the preview modal *)

Definition IMAGE_EXTS : list string := ["jpg"; "jpeg"; "png"; "gif"; "webp"; "svg"].
Definition TEXT_EXTS : list string :=
  ["txt"; "md"; "markdown"; "json"; "csv"; "xml"; "html"].
Definition DOCUMENT_EXTS : list string := ["docx"; "doc"; "rtf"].
Definition SPREADSHEET_EXTS : list string := ["xlsx"; "xls"; "csv"].
Definition CODE_EXTS : list string :=
  ["js"; "ts"; "jsx"; "tsx"; "py"; "java"; "c"; "cpp"; "rb"; "php"].

(** [fileName.split('.').pop()?.toLowerCase() || ''] *)
Definition fileExt (fileName : string) : string :=
  Js.orElse (option_map Js.toLowerCase (Js.pop (Js.split "." fileName))) EmptyString.

Definition isPdfExt (ext : string) : bool := String.eqb ext "pdf".
Definition isImageExt (ext : string) : bool := Js.includes IMAGE_EXTS ext.
Definition isTextFileExt (ext : string) : bool := Js.includes TEXT_EXTS ext.
Definition isDocumentExt (ext : string) : bool := Js.includes DOCUMENT_EXTS ext.
Definition isSpreadsheetExt (ext : string) : bool := Js.includes SPREADSHEET_EXTS ext.
Definition isCodeExt (ext : string) : bool := Js.includes CODE_EXTS ext.

Definition isPdf (fileName : string) : bool := isPdfExt (fileExt fileName).
Definition isImage (fileName : string) : bool := isImageExt (fileExt fileName).
Definition isTextFile (fileName : string) : bool := isTextFileExt (fileExt fileName).
Definition isDocument (fileName : string) : bool := isDocumentExt (fileExt fileName).
Definition isSpreadsheet (fileName : string) : bool :=
  isSpreadsheetExt (fileExt fileName).
Definition isCode (fileName : string) : bool := isCodeExt (fileExt fileName).

(** The content categories of the data model. *)
Inductive ContentCategory : Type :=
| pdf | image | text | document | spreadsheet | code | other.

(** The categories whose flag is set for an extension, in the order in which
    the component declares the flags; [other] when no flag is set. *)
Definition flaggedCategories (ext : string) : list ContentCategory :=
  (if isPdfExt ext then [pdf] else []) ++
  (if isImageExt ext then [image] else []) ++
  (if isTextFileExt ext then [text] else []) ++
  (if isDocumentExt ext then [document] else []) ++
  (if isSpreadsheetExt ext then [spreadsheet] else []) ++
  (if isCodeExt ext then [code] else []).

Definition categoriesOfExt (ext : string) : list ContentCategory :=
  match flaggedCategories ext with
  | [] => [other]
  | cs => cs
  end.

Definition categories (fileName : string) : list ContentCategory :=
  categoriesOfExt (fileExt fileName).

(** The first category of a name: the single-valued reading used by the
    decision table of the renderer. *)
Definition classify (fileName : string) : ContentCategory :=
  hd other (categories fileName).

Definition recognised (ext : string) : bool :=
  isPdfExt ext || isImageExt ext || isTextFileExt ext || isDocumentExt ext
  || isSpreadsheetExt ext || isCodeExt ext.

(* ================================================================= *)
(** ** Icon selection of the connector configuration display *)

Inductive Icon : Type :=
| FiFileRed        (* <FiFile className="text-red-500" /> *)
| FileImageBlue    (* <FileImage className="text-blue-500" /> *)
| FileCodeGreen    (* <FileCode className="text-green-500" /> *)
| FileTextPlain.   (* <FileText className="text-text-500" /> *)

Definition ICON_CODE_EXTS : list string :=
  ["js"; "ts"; "jsx"; "tsx"; "py"; "java"; "c"; "cpp"; "php"; "rb"; "go"].

Definition getFileIcon (fileName : string) : Icon :=
  let ext :=
    Js.orElse (option_map Js.toLowerCase (Js.pop (Js.split "." fileName))) EmptyString in
  if Js.includes ["pdf"] ext then FiFileRed
  else if Js.includes IMAGE_EXTS ext then FileImageBlue
  else if Js.includes ICON_CODE_EXTS ext then FileCodeGreen
  else FileTextPlain.

(** The icon that the preview flags of a name would select. *)
Definition iconForFlags (fileName : string) : Icon :=
  if isPdf fileName then FiFileRed
  else if isImage fileName then FileImageBlue
  else if isCode fileName then FileCodeGreen
  else FileTextPlain.


(* ================================================================= *)
(** ** Props, component state and the render function *)

Record Props : Type := mkProps {
  fileName : string;
  filePath : option string;
  documentId : option string;
  isOpen : bool;
  mockOriginalContent : option string;
  mockIndexedContent : option string
}.

(** One field per [useState] of the component. *)
Record State : Type := mkState {
  isLoading : bool;
  originalContentLoading : bool;
  indexedContentLoading : bool;
  activeTab : string;
  originalContent : string;
  indexedContent : string;
  fileUrl : string;
  error : option string
}.

(** The initial values of the [useState] calls. *)
Definition initialState : State :=
  mkState true true true "original" EmptyString EmptyString EmptyString None.

Definition setIsLoading (v : bool) (s : State) : State :=
  mkState v (originalContentLoading s) (indexedContentLoading s) (activeTab s)
          (originalContent s) (indexedContent s) (fileUrl s) (error s).

Definition setOriginalContentLoading (v : bool) (s : State) : State :=
  mkState (isLoading s) v (indexedContentLoading s) (activeTab s)
          (originalContent s) (indexedContent s) (fileUrl s) (error s).

Definition setIndexedContentLoading (v : bool) (s : State) : State :=
  mkState (isLoading s) (originalContentLoading s) v (activeTab s)
          (originalContent s) (indexedContent s) (fileUrl s) (error s).

Definition setOriginalContent (v : string) (s : State) : State :=
  mkState (isLoading s) (originalContentLoading s) (indexedContentLoading s)
          (activeTab s) v (indexedContent s) (fileUrl s) (error s).

Definition setIndexedContent (v : string) (s : State) : State :=
  mkState (isLoading s) (originalContentLoading s) (indexedContentLoading s)
          (activeTab s) (originalContent s) v (fileUrl s) (error s).

Definition setFileUrl (v : string) (s : State) : State :=
  mkState (isLoading s) (originalContentLoading s) (indexedContentLoading s)
          (activeTab s) (originalContent s) (indexedContent s) v (error s).

Definition setError (v : option string) (s : State) : State :=
  mkState (isLoading s) (originalContentLoading s) (indexedContentLoading s)
          (activeTab s) (originalContent s) (indexedContent s) (fileUrl s) v.

(** What [renderFileContent] returns, one constructor per JSX branch. *)
Inductive RenderInstruction : Type :=
| Spinner
| ErrorPanel (message : string)
| PdfViewer (src : string)                 (* <iframe src=... title="PDF Viewer" /> *)
| ImageView (src alt : string)             (* <img className="max-h-80 max-w-full ..." /> *)
| DownloadPlaceholder                      (* "Document Preview" + Download Document *)
| TextBlock (shown : string) (pre : bool). (* <pre>; whitespace-pre when [pre] *)

Definition NO_ORIGINAL : string := "No original content available".
Definition NO_INDEXED : string := "No indexed content available".

Definition renderFileContent (p : Props) (s : State) (isOriginal : bool)
  : RenderInstruction :=
  if isLoading s
     || (if isOriginal then originalContentLoading s else indexedContentLoading s)
  then Spinner
  else if Js.truthyOpt (error s) then ErrorPanel (Js.orElse (error s) EmptyString)
  else if isOriginal && (isPdf (fileName p) && Js.truthy (fileUrl s))
  then PdfViewer (fileUrl s ++ "#toolbar=0")
  else if isOriginal && (isImage (fileName p) && Js.truthy (fileUrl s))
  then ImageView (fileUrl s) (fileName p)
  else if isOriginal && (isDocument (fileName p) && negb (Js.truthy (originalContent s)))
  then DownloadPlaceholder
  else
    let displayContent := if isOriginal then originalContent s else indexedContent s in
    TextBlock
      (Js.orElse (Some displayContent) (if isOriginal then NO_ORIGINAL else NO_INDEXED))
      (isCode (fileName p)).

(** The JSX returned by the component: the dialog shows the original panel
    only, and the Download Original button only when [fileUrl] is truthy. *)
Record Modal : Type := mkModal {
  dialogOpen : bool;
  title : string;
  panel : RenderInstruction;
  downloadOriginalButton : bool
}.

Definition FilePreviewModal (p : Props) (s : State) : Modal :=
  mkModal (isOpen p) (fileName p) (renderFileContent p s true)
          (Js.truthy (fileUrl s)).

(* ----------------------------------------------------------------- *)
(** *** The decision table of the renderer selector, as the
        specification words it *)

(** What the table consults: whether the displayed content is loading, the
    error, the binary resource and the decoded text. *)
Record FetchView : Type := mkFetchView {
  fvLoading : bool;
  fvError : option string;
  fvResource : option string;
  fvText : option string
}.

Inductive RenderChoice : Type :=
| ChooseSpinner
| ChooseErrorPanel (message : string)
| ChooseEmbeddedViewer (resource : string) (toolbar : bool)
| ChooseBoundedImage (resource : string)
| ChooseDownloadPlaceholder
| ChooseTextBlock (shown : option string) (monospace : bool).

(** Rules 1 to 6, top to bottom, first match wins. *)
Definition selectRenderer (c : ContentCategory) (v : FetchView) : RenderChoice :=
  if fvLoading v then ChooseSpinner
  else match fvError v with
  | Some m => ChooseErrorPanel m
  | None =>
    match c, fvResource v, fvText v with
    | pdf, Some r, _ => ChooseEmbeddedViewer r false
    | image, Some r, _ => ChooseBoundedImage r
    | document, _, None => ChooseDownloadPlaceholder
    | _, _, t => ChooseTextBlock t (match c with code => true | _ => false end)
    end
  end.

(** How the component state presents itself to the table for the original
    panel: the displayed content is loading while the loading flag of the
    original fetch is set, and an empty string stands for an absent value. *)
Definition presentOpt (s : string) : option string :=
  if Js.truthy s then Some s else None.

Definition originalView (s : State) : FetchView :=
  mkFetchView (originalContentLoading s)
              (match error s with Some e => presentOpt e | None => None end)
              (presentOpt (fileUrl s))
              (presentOpt (originalContent s)).

(** The JSX that realises a choice of the table for the file [name]. *)
Definition realise (name : string) (r : RenderChoice) : RenderInstruction :=
  match r with
  | ChooseSpinner => Spinner
  | ChooseErrorPanel m => ErrorPanel m
  | ChooseEmbeddedViewer u toolbar =>
      PdfViewer (if toolbar then u else u ++ "#toolbar=0")
  | ChooseBoundedImage u => ImageView u name
  | ChooseDownloadPlaceholder => DownloadPlaceholder
  | ChooseTextBlock (Some t) m => TextBlock t m
  | ChooseTextBlock None m => TextBlock NO_ORIGINAL m
  end.

(* ================================================================= *)
(** ** The browser, the network and the suspended fetches *)

Record IndexedContent : Type := mkIndexedContent {
  content : string;
  semantic_identifier : string;
  source_type : string;
  metadata : list (string * string);
  chunk_count : nat
}.

(** An HTTP response as the component consumes it: [blobOf] is what
    [response.blob()] resolves to and [jsonOf] what [response.json()]
    resolves to, [None] when that promise rejects. *)
Record Response : Type := mkResponse {
  ok : bool;
  statusText : string;
  blobOf : option string;
  jsonOf : option IndexedContent
}.

(** Calls that leave the component, in the order they are made. *)
Inductive Effect : Type :=
| FetchFile (fileId : string)        (* GET /api/chat/file/{fileId} *)
| FetchIndexed (docId : string)      (* GET /api/document/indexed-content?document_id= *)
| CreateObjectURL (url : string)     (* URL.createObjectURL(blob) returned url *)
| RevokeObjectURL (url : string)     (* URL.revokeObjectURL(url) *)
| ConsoleError (label : string)
| OnClose                            (* the onClose prop is called *)
| SaveAs (url name : string).        (* handleDownload clicks a download link *)

(** An async function suspended at an [await], with the props of the render
    whose closure it is. *)
Inductive Task : Type :=
| OrigAwaitFetch (p : Props)
| OrigAwaitBlob (p : Props) (r : Response)
| OrigAwaitText (p : Props) (blob : string)
| IdxAwaitFetch (p : Props)
| IdxAwaitJson (p : Props) (r : Response).

Record TaskEntry : Type := mkEntry {
  tid : nat;       (* identity of the pending promise *)
  owner : nat;     (* component instance whose setters the closure holds *)
  run : nat;       (* run of the effect that started it *)
  task : Task
}.

Definition Deps : Type := (bool * string * option string * option string)%type.

Definition depsOf (p : Props) : Deps :=
  (isOpen p, fileName p, filePath p, documentId p).

Definition optStringEqb (a b : option string) : bool :=
  match a, b with
  | Some x, Some y => String.eqb x y
  | None, None => true
  | _, _ => false
  end.

Definition depsEqb (a b : Deps) : bool :=
  match a, b with
  | (o1, n1, p1, d1), (o2, n2, p2, d2) =>
      Bool.eqb o1 o2 && String.eqb n1 n2 && optStringEqb p1 p2 && optStringEqb d1 d2
  end.

Record World : Type := mkWorld {
  mounted : bool;
  instance : nat;              (* the instance currently (or last) mounted *)
  props : Props;
  lastDeps : option Deps;      (* dependencies seen by the last effect check *)
  st : State;
  pool : list TaskEntry;
  nextTid : nat;
  nextRun : nat;
  nextBlob : nat;
  log : list Effect            (* most recent first *)
}.

Definition noProps : Props := mkProps EmptyString None None false None None.

(** Before the component is first mounted. *)
Definition initialWorld : World :=
  mkWorld false 0 noProps None initialState [] 0 0 0 [].

Definition withSt (f : State -> State) (w : World) : World :=
  mkWorld (mounted w) (instance w) (props w) (lastDeps w) (f (st w)) (pool w)
          (nextTid w) (nextRun w) (nextBlob w) (log w).

Definition withPool (f : list TaskEntry -> list TaskEntry) (w : World) : World :=
  mkWorld (mounted w) (instance w) (props w) (lastDeps w) (st w) (f (pool w))
          (nextTid w) (nextRun w) (nextBlob w) (log w).

Definition emit (e : Effect) (w : World) : World :=
  mkWorld (mounted w) (instance w) (props w) (lastDeps w) (st w) (pool w)
          (nextTid w) (nextRun w) (nextBlob w) (e :: log w).

(** Whether instance [i] is the mounted one. *)
Definition alive (i : nat) (w : World) : bool :=
  mounted w && Nat.eqb i (instance w).

(** A state setter called from a closure of instance [i]: it acts on the
    mounted instance only. *)
Definition setState (i : nat) (f : State -> State) (w : World) : World :=
  withSt (fun s => if alive i w then f s else s) w.

(** Suspend at an await: a new pending promise. *)
Definition spawn (i r : nat) (t : Task) (w : World) : World :=
  mkWorld (mounted w) (instance w) (props w) (lastDeps w) (st w)
          (mkEntry (nextTid w) i r t :: pool w)
          (S (nextTid w)) (nextRun w) (nextBlob w) (log w).

Definition lookupTask (id : nat) (w : World) : option TaskEntry :=
  find (fun e => Nat.eqb (tid e) id) (pool w).

Definition dropTask (id : nat) : list TaskEntry -> list TaskEntry :=
  filter (fun e => negb (Nat.eqb (tid e) id)).

Definition runPending (r : nat) (l : list TaskEntry) : bool :=
  existsb (fun e => Nat.eqb (run e) r) l.

(** [Promise.all([...]).finally(() => setIsLoading(false))] of run [r]: the
    callback runs once no fetch of that run is pending.  It is a microtask
    continuation of the last fetch to return, so it is taken in the same step. *)
Definition finallyIfSettled (i r : nat) (w : World) : World :=
  if runPending r (pool w) then w else setState i (setIsLoading false) w.

(** The async function of entry [e] returns. *)
Definition complete (e : TaskEntry) (w : World) : World :=
  finallyIfSettled (owner e) (run e) (withPool (dropTask (tid e)) w).

(** The async function of entry [e] suspends again, at task [t]. *)
Definition suspend (e : TaskEntry) (t : Task) (w : World) : World :=
  withPool (fun l => mkEntry (tid e) (owner e) (run e) t :: dropTask (tid e) l) w.

Definition blobUrl (n : nat) : string :=
  "blob:" ++ NilZero.string_of_uint (Nat.to_uint n).

(** [URL.createObjectURL(blob)]: a fresh URL, recorded in the log. *)
Definition createObjectURL (w : World) : string * World :=
  let url := blobUrl (nextBlob w) in
  (url,
   mkWorld (mounted w) (instance w) (props w) (lastDeps w) (st w) (pool w)
           (nextTid w) (nextRun w) (S (nextBlob w)) (CreateObjectURL url :: log w)).

(** Object URLs created, and revoked, according to a log. *)
Fixpoint createdURLs (l : list Effect) : list string :=
  match l with
  | [] => []
  | CreateObjectURL u :: r => u :: createdURLs r
  | _ :: r => createdURLs r
  end.

Fixpoint revokedURLs (l : list Effect) : list string :=
  match l with
  | [] => []
  | RevokeObjectURL u :: r => u :: revokedURLs r
  | _ :: r => revokedURLs r
  end.

Definition timesRevoked (u : string) (l : list Effect) : nat :=
  count_occ string_dec (revokedURLs l) u.

Fixpoint fileRequests (l : list Effect) : list string :=
  match l with
  | [] => []
  | FetchFile f :: r => f :: fileRequests r
  | _ :: r => fileRequests r
  end.

Fixpoint indexedRequests (l : list Effect) : list string :=
  match l with
  | [] => []
  | FetchIndexed d :: r => d :: indexedRequests r
  | _ :: r => indexedRequests r
  end.

(* ================================================================= *)
(** ** The fetch functions, the effect and the event loop *)

Definition ORIGINAL_FAILED : string := "Failed to load original file content.".
Definition INDEXED_UNAVAILABLE : string :=
  "Indexed content is not available for this file.".

Inductive Event : Type :=
| Render (p : Props)                       (* the parent renders the component *)
| Unmount                                  (* the parent removes it *)
| ClickClose                               (* Close button: onClick={onClose} *)
| DialogOpenChange (open : bool)           (* onOpenChange of the dialog *)
| ClickDownload                            (* a download button: handleDownload *)
| FetchSettled (id : nat) (r : option Response)
                                           (* fetch() resolves, or rejects on [None] *)
| Resume (id : nat).                       (* an awaited body promise settles *)

Section Component.

(** [getDocumentIdFromPath] is used by [fetchIndexedContent] but neither
    defined nor imported in the component's file; it is a parameter here.  A
    call that throws is caught by the same [catch] as an empty result. *)
Variable getDocumentIdFromPath : string -> string.

(** The [catch] block of [fetchOriginalContent]. *)
Definition originalCatch (e : TaskEntry) (w : World) : World :=
  let w := emit (ConsoleError "Error fetching original file:") w in
  let w := setState (owner e) (setError (Some ORIGINAL_FAILED)) w in
  let w := setState (owner e) (setOriginalContentLoading false) w in
  complete e w.

(** The [catch] block of [fetchIndexedContent]. *)
Definition indexedCatch (i : nat) (w : World) : World :=
  let w := emit (ConsoleError "Error fetching indexed content:") w in
  let w := setState i (setIndexedContent INDEXED_UNAVAILABLE) w in
  setState i (setIndexedContentLoading false) w.

(** [fetchOriginalContent()] up to its first await, called by run [r] of the
    effect of instance [i] rendered with props [p]. *)
Definition fetchOriginalContent (p : Props) (i r : nat) (w : World) : World :=
  if Js.truthyOpt (mockOriginalContent p) then
    let w := setState i (setOriginalContent (Js.orElse (mockOriginalContent p) EmptyString)) w in
    setState i (setOriginalContentLoading false) w
  else
    let w := setState i (setOriginalContentLoading true) w in
    let fileId := Js.orElse (filePath p) (fileName p) in
    let w := emit (FetchFile fileId) w in
    spawn i r (OrigAwaitFetch p) w.

(** [filePath ? getDocumentIdFromPath(filePath) : ''] *)
Definition derivedDocId (p : Props) : string :=
  match filePath p with
  | Some fp => if Js.truthy fp then getDocumentIdFromPath fp else EmptyString
  | None => EmptyString
  end.

(** [documentId || (filePath ? getDocumentIdFromPath(filePath) : '')] *)
Definition docIdOf (p : Props) : string :=
  Js.orElse (documentId p) (derivedDocId p).

(** [fetchIndexedContent()] up to its first await. *)
Definition fetchIndexedContent (p : Props) (i r : nat) (w : World) : World :=
  if Js.truthyOpt (mockIndexedContent p) then
    let w := setState i (setIndexedContent (Js.orElse (mockIndexedContent p) EmptyString)) w in
    setState i (setIndexedContentLoading false) w
  else
    let w := setState i (setIndexedContentLoading true) w in
    let docId := docIdOf p in
    if negb (Js.truthy docId) then indexedCatch i w
    else
      let w := emit (FetchIndexed docId) w in
      spawn i r (IdxAwaitFetch p) w.

(** The body of the [useEffect], run for the render with props [p]. *)
Definition runEffect (p : Props) (w : World) : World :=
  if isOpen p then
    let i := instance w in
    let r := nextRun w in
    let w := mkWorld (mounted w) (instance w) (props w) (lastDeps w) (st w)
                     (pool w) (nextTid w) (S r) (nextBlob w) (log w) in
    let w := setState i (setIsLoading true) w in
    let w := setState i (setError None) w in
    let w := fetchOriginalContent p i r w in
    let w := fetchIndexedContent p i r w in
    finallyIfSettled i r w
  else w.

(** A fresh instance: the state variables take their initial values. *)
Definition mount (w : World) : World :=
  mkWorld true (S (instance w)) (props w) None initialState (pool w)
          (nextTid w) (nextRun w) (nextBlob w) (log w).

(** Whether one of [isOpen, fileName, filePath, documentId] differs from the
    last render of the instance; always on its first render. *)
Definition depsChanged (p : Props) (w : World) : bool :=
  match lastDeps w with
  | Some d => negb (depsEqb d (depsOf p))
  | None => true
  end.

(** Whether rendering with [p] runs the effect: on a mount, or when a
    dependency changed. *)
Definition effectFires (p : Props) (w : World) : bool :=
  negb (mounted w) || depsChanged p w.

(** The component is rendered with props [p]: it is mounted if need be, and
    the effect runs when a dependency changed. *)
Definition render (p : Props) (w : World) : World :=
  let w := if mounted w then w else mount w in
  let changed := depsChanged p w in
  let w := mkWorld (mounted w) (instance w) p (Some (depsOf p)) (st w) (pool w)
                   (nextTid w) (nextRun w) (nextBlob w) (log w) in
  if changed then runEffect p w else w.

Definition unmount (w : World) : World :=
  mkWorld false (instance w) (props w) (lastDeps w) (st w) (pool w)
          (nextTid w) (nextRun w) (nextBlob w) (log w).

Definition handleDownload (w : World) : World :=
  if Js.truthy (fileUrl (st w)) then emit (SaveAs (fileUrl (st w)) (fileName (props w))) w
  else w.

(** [await fetch(...)] of entry [e] settles with [r]: the fetch function
    goes on to [if (!response.ok) throw ...], or to its [catch] block when
    the fetch itself rejected, and stops at its next await. *)
Definition fetchSettled (e : TaskEntry) (r : option Response) (w : World) : World :=
  match task e with
  | OrigAwaitFetch p =>
      match r with
      | Some resp => if ok resp then suspend e (OrigAwaitBlob p resp) w
                     else originalCatch e w
      | None => originalCatch e w
      end
  | IdxAwaitFetch p =>
      match r with
      | Some resp => if ok resp then suspend e (IdxAwaitJson p resp) w
                     else complete e (indexedCatch (owner e) w)
      | None => complete e (indexedCatch (owner e) w)
      end
  | _ => w
  end.

(** The body promise awaited by entry [e] settles ([response.blob()],
    [blob.text()] or [response.json()]): the fetch function runs to its next
    await or to its end. *)
Definition resume (e : TaskEntry) (w : World) : World :=
  match task e with
  | OrigAwaitBlob p resp =>
      match blobOf resp with
      | Some blob =>
          let (url, w) := createObjectURL w in
          let w := setState (owner e) (setFileUrl url) w in
          if isTextFile (fileName p) || isCode (fileName p) || isSpreadsheet (fileName p)
          then suspend e (OrigAwaitText p blob) w
          else complete e (setState (owner e) (setOriginalContentLoading false) w)
      | None => originalCatch e w
      end
  | OrigAwaitText p blob =>
      let w := setState (owner e) (setOriginalContent blob) w in
      complete e (setState (owner e) (setOriginalContentLoading false) w)
  | IdxAwaitJson p resp =>
      match jsonOf resp with
      | Some data =>
          let w := setState (owner e) (setIndexedContent (content data)) w in
          complete e (setState (owner e) (setIndexedContentLoading false) w)
      | None => complete e (indexedCatch (owner e) w)
      end
  | _ => w
  end.

Definition step (w : World) (ev : Event) : World :=
  match ev with
  | Render p => render p w
  | Unmount => unmount w
  | ClickClose => if mounted w then emit OnClose w else w
  | DialogOpenChange open =>
      if mounted w && negb open then emit OnClose w else w
  | ClickDownload => if mounted w then handleDownload w else w
  | FetchSettled id r =>
      match lookupTask id w with
      | Some e => fetchSettled e r w
      | None => w
      end
  | Resume id =>
      match lookupTask id w with
      | Some e => resume e w
      | None => w
      end
  end.

Definition runEvents (w : World) (evs : list Event) : World :=
  fold_left step evs w.

(** What the mounted component shows. *)
Definition shown (w : World) : Modal := FilePreviewModal (props w) (st w).

(** The two panels of [renderFileContent]. *)
Definition originalPanel (w : World) : RenderInstruction :=
  renderFileContent (props w) (st w) true.

Definition indexedPanel (w : World) : RenderInstruction :=
  renderFileContent (props w) (st w) false.

End Component.

(* ================================================================= *)
(** ** Properties of worlds used by the theorems *)

(** [w] has revoked nothing since [w0] and has kept the URLs created by then. *)
Definition keepsURLs (w0 w : World) : Prop :=
  revokedURLs (log w) = revokedURLs (log w0)
  /\ incl (createdURLs (log w0)) (createdURLs (log w)).

Definition silent (e : Effect) : Prop :=
  match e with RevokeObjectURL _ => False | _ => True end.

Definition idxTask (e : TaskEntry) : Prop :=
  match task e with
  | IdxAwaitFetch _ | IdxAwaitJson _ _ => True
  | _ => False
  end.

(** Every render so far carried a truthy [mockOriginalContent]. *)
Definition mockEvent (ev : Event) : Prop :=
  match ev with
  | Render p => Js.truthyOpt (mockOriginalContent p) = true
  | _ => True
  end.

(** The invariant of such a session: no binary resource, no original fetch
    in flight, no request to the file endpoint, no object URL. *)
Definition mockSession (w : World) : Prop :=
  fileUrl (st w) = EmptyString
  /\ Forall idxTask (pool w)
  /\ fileRequests (log w) = []
  /\ createdURLs (log w) = [].

Definition harmless (e : Effect) : Prop :=
  match e with FetchFile _ | CreateObjectURL _ => False | _ => True end.

(** A fetch outcome that makes the fetch function throw: a rejected
    [fetch()], or a response that is not ok. *)
Definition failing (r : option Response) : bool :=
  match r with
  | Some resp => negb (ok resp)
  | None => true
  end.

(** An indexed fetch of entry [e] returns with text [c]: the two setter
    calls shared by its success path and its [catch] block, then the end of
    the async function. *)
Definition indexedSettles (e : TaskEntry) (c : string) (w : World) : World :=
  complete e
    (setState (owner e) (setIndexedContentLoading false)
       (setState (owner e) (setIndexedContent c) w)).

(** The ways a pending indexed fetch fails: [fetch] rejects or answers with
    a response that is not ok, or [response.json()] rejects.  Each throws
    into the [catch] block of [fetchIndexedContent]. *)
Definition indexedFetchFails (e : TaskEntry) (ev : Event) : Prop :=
  match ev, task e with
  | FetchSettled id r, IdxAwaitFetch _ => id = tid e /\ failing r = true
  | Resume id, IdxAwaitJson _ resp => id = tid e /\ jsonOf resp = None
  | _, _ => False
  end.

(** The ways a pending original fetch fails: [fetch] rejects or answers with
    a response that is not ok, or [response.blob()] rejects. *)
Definition originalFetchFails (e : TaskEntry) (ev : Event) : Prop :=
  match ev, task e with
  | FetchSettled id r, OrigAwaitFetch _ => id = tid e /\ failing r = true
  | Resume id, OrigAwaitBlob _ resp => id = tid e /\ blobOf resp = None
  | _, _ => False
  end.

(* ================================================================= *)
(** ** Scenarios *)

(** A [getDocumentIdFromPath] that derives no identifier. *)
Definition derivesNothing : string -> string := fun _ => EmptyString.

Definition okResponse (body : string) : Response :=
  mkResponse true "OK" (Some body) None.

Definition okJson (text : string) : Response :=
  mkResponse true "OK" None (Some (mkIndexedContent text EmptyString "file" [] 1)).

Definition notFound : Response := mkResponse false "Not Found" None None.

Definition preview (name : string) : Props := mkProps name None None true None None.

Definition previewWithId (name id : string) : Props :=
  mkProps name None (Some id) true None None.

Definition closed (p : Props) : Props :=
  mkProps (fileName p) (filePath p) (documentId p) false
          (mockOriginalContent p) (mockIndexedContent p).

(** [a.txt] is opened, then [b.txt] while the first fetch is pending; the
    fetch for [b.txt] (promise 1) returns "B". *)
Definition reopenedWhilePending : list Event :=
  [Render (preview "a.txt"); Render (preview "b.txt");
   FetchSettled 1 (Some (okResponse "B")); Resume 1; Resume 1].

(** Then the fetch for [a.txt] (promise 0) returns "A". *)
Definition staleFetchReturns : list Event :=
  [FetchSettled 0 (Some (okResponse "A")); Resume 0; Resume 0].

(** [photo.png] is opened and its bytes arrive. *)
Definition imageOpened : list Event :=
  [Render (preview "photo.png"); FetchSettled 0 (Some (okResponse "PNG")); Resume 0].

(** The user closes; the parent renders the dialog closed, then removes it. *)
Definition closedAndRemoved : list Event :=
  [ClickClose; Render (closed (preview "photo.png")); Unmount].

(** [a.txt] is previewed to the end and the dialog is closed but kept. *)
Definition textPreviewedThenClosed : list Event :=
  [Render (preview "a.txt"); FetchSettled 0 (Some (okResponse "A")); Resume 0;
   Resume 0; Render (closed (preview "a.txt"))].

(** [b.docx] is opened in the same instance and its bytes arrive. *)
Definition documentOpened : list Event :=
  [Render (preview "b.docx"); FetchSettled 1 (Some (okResponse "DOCX")); Resume 1].

(** [a.txt] with a document id is opened and its indexed text arrives
    (promise 0 is the original fetch, promise 1 the indexed one). *)
Definition indexedArrived : list Event :=
  [Render (previewWithId "a.txt" "doc-1");
   FetchSettled 1 (Some (okJson "indexed text")); Resume 1].

Definition originalArrives : list Event :=
  [FetchSettled 0 (Some (okResponse "hello")); Resume 0; Resume 0].

Definition originalFails : list Event := [FetchSettled 0 None].

(** [a.txt] with a document id is opened and its original text arrives while
    the indexed fetch (promise 1) is still pending. *)
Definition originalArrivesFirst : list Event :=
  [Render (previewWithId "a.txt" "doc-1");
   FetchSettled 0 (Some (okResponse "hello")); Resume 0; Resume 0].

(** [a.txt] with a document id is opened; the indexed fetch is rejected,
    then the original fetch. *)
Definition bothFetchesFail : list Event :=
  [Render (previewWithId "a.txt" "doc-1"); FetchSettled 1 None; FetchSettled 0 None].

(** An ok response whose body cannot be read. *)
Definition unreadable : Response := mkResponse true "OK" None None.

(** [notes.txt], mock original text, no document id. *)
Definition notesMocked : Props :=
  mkProps "notes.txt" None None true (Some "hello") None.

(** The same with mock indexed text as well. *)
Definition notesFullyMocked : Props :=
  mkProps "notes.txt" None None true (Some "hello") (Some "demo").

(** [report.pdf] with mock original text. *)
Definition reportMocked : Props :=
  mkProps "report.pdf" None (Some "doc-7") true (Some "mock text") None.

(** [a.pdf] is previewed to the end without a mock; then [report.pdf] is
    opened in the same instance with mock original text, and its indexed text
    arrives (promise 0 is the fetch of [a.pdf], promise 1 the indexed fetch
    of [report.pdf]). *)
Definition mockAfterRealPreview : list Event :=
  [Render (preview "a.pdf"); FetchSettled 0 (Some (okResponse "%PDF")); Resume 0;
   Render reportMocked; FetchSettled 1 (Some (okJson "x")); Resume 1].

(** The world reached from before the first mount by a list of events, when
    no identifier can be derived from a path. *)
Definition scenario (evs : list Event) : World :=
  runEvents derivesNothing initialWorld evs.

(** A later run of the effect has started since the fetch of [e] was issued. *)
Definition stale (e : TaskEntry) (w : World) : bool :=
  Nat.ltb (S (run e)) (nextRun w).

(* ================================================================= *)
(** ** The connector configuration display *)

(** [s.endsWith(suffix)] *)
Fixpoint endsWith (s suffix : string) : bool :=
  if String.eqb s suffix then true
  else match s with
       | EmptyString => false
       | String _ r => endsWith r suffix
       end.

(** The [useState] variables of [ConfigItem]. *)
Record ConfigItemState : Type := mkConfigItemState {
  isExpanded : bool;
  previewFile : option string;
  previewFilePath : option string
}.

Definition initialConfigItem : ConfigItemState := mkConfigItemState false None None.

(** Whether a path names [fileName] in a directory: the predicate given to
    [originalPaths.find]. *)
Definition pathEndsWithName (fileName path : string) : bool :=
  endsWith path ("/" ++ fileName) || endsWith path ("\" ++ fileName).

(** [findOriginalPath]: [None] stands for [undefined]. *)
Definition findOriginalPath (originalPaths : list string) (fileName : string)
  : option string :=
  match originalPaths with
  | [] => None
  | _ =>
      if Js.includes originalPaths fileName then Some fileName
      else find (pathEndsWithName fileName) originalPaths
  end.

(** [handlePreviewClick]: [originalPath || null]. *)
Definition handlePreviewClick (originalPaths : list string) (fileName : string)
    (c : ConfigItemState) : ConfigItemState :=
  mkConfigItemState (isExpanded c) (Some fileName)
    (match findOriginalPath originalPaths fileName with
     | Some p => if Js.truthy p then Some p else None
     | None => None
     end).

(** The [onClose] handed to the modal. *)
Definition closePreview (c : ConfigItemState) : ConfigItemState :=
  mkConfigItemState (isExpanded c) None None.

(** [setIsExpanded(!isExpanded)] *)
Definition toggleExpanded (c : ConfigItemState) : ConfigItemState :=
  mkConfigItemState (negb (isExpanded c)) (previewFile c) (previewFilePath c).

(** [{previewFile && <FilePreviewModal ... />}]: the props of the modal
    element, [None] when there is no element. *)
Definition modalElement (c : ConfigItemState) : option Props :=
  match previewFile c with
  | Some f =>
      if Js.truthy f then
        Some (mkProps f
                (if Js.truthyOpt (previewFilePath c) then previewFilePath c else None)
                None (Js.truthy f) None None)
      else None
  | None => None
  end.

(** [isExpanded ? value : value.slice(0, 5)] *)
Definition displayedItems {A : Type} (expanded : bool) (value : list A) : list A :=
  if expanded then value else firstn 5 value.

(** [Array.isArray(value) && value.length > 5], for an array. *)
Definition isExpandable {A : Type} (value : list A) : bool :=
  Nat.ltb 5 (length value).

Inductive ExpandToggle : Type :=
| ShowLess
| ShowAll (count : nat).    (* "Show all (count items)" *)

(** The button under the list, when there is one. *)
Definition expandToggle {A : Type} (expanded : bool) (value : list A)
  : option ExpandToggle :=
  if isExpandable value
  then Some (if expanded then ShowLess else ShowAll (length value))
  else None.

Section ConfigValues.

(** JavaScript numbers are kept abstract: [numberToString] is their
    conversion to a string and [numberTruthy] their truthiness. *)
Variable number : Type.
Variable numberToString : number -> string.
Variable numberTruthy : number -> bool.

(** The values a connector configuration holds; the fields of an object are
    in enumeration order. *)
#[local] Unset Elimination Schemes.
Inductive JsValue : Type :=
| JUndefined
| JNull
| JBool (b : bool)
| JNum (n : number)
| JStr (s : string)
| JArr (items : list JsValue)
| JObj (fields : list (string * JsValue)).

#[local] Set Elimination Schemes.

(** [JSON.stringify] of a plain object is a parameter. *)
Variable jsonStringify : list (string * JsValue) -> string.

(** [getNameFromPath] of [@/lib/fileUtils] is not part of these sources; it
    is a parameter. *)
Variable getNameFromPath : string -> string.

(** The conversion to a string that [Array.prototype.join] applies to an
    element that is neither [null] nor [undefined]. *)
Fixpoint toString (v : JsValue) : string :=
  match v with
  | JUndefined => "undefined"
  | JNull => "null"
  | JBool b => if b then "true" else "false"
  | JNum n => numberToString n
  | JStr s => s
  | JArr items =>
      String.concat ","
        (map (fun x => match x with
                       | JUndefined | JNull => EmptyString
                       | _ => toString x
                       end) items)
  | JObj _ => "[object Object]"
  end.

(** [arr.join(sep)] *)
Definition join (sep : string) (arr : list JsValue) : string :=
  String.concat sep
    (map (fun x => match x with
                   | JUndefined | JNull => EmptyString
                   | _ => toString x
                   end) arr).

Fixpoint convertObjectToString (obj : JsValue) : JsValue :=
  match obj with
  | JObj fields => JStr (jsonStringify fields)
  | JArr items =>
      match items with
      | [] => JNull
      | _ => JStr (join ", " (map convertObjectToString items))
      end
  | JBool b => JStr (if b then "true" else "false")
  | _ => obj
  end.

(** Neither an array, nor an object, nor a boolean. *)
Definition isScalar (v : JsValue) : bool :=
  match v with
  | JArr _ | JObj _ | JBool _ => false
  | _ => true
  end.

(** Truthiness of a JavaScript value. *)
Definition truthyValue (v : JsValue) : bool :=
  match v with
  | JUndefined | JNull => false
  | JBool b => b
  | JNum n => numberTruthy n
  | JStr s => Js.truthy s
  | JArr _ | JObj _ => true
  end.

(** The connector configuration with its source type: a file connector has
    an optional array of paths [file_locations], a Google Sites connector is
    read for its [base_url] only ([JUndefined] when it has none), any other
    connector is an object whose fields are shown as they are. *)
Inductive ConnectorConfig : Type :=
| FileSource (file_locations : option (list string))
| GoogleSitesSource (base_url : JsValue)
| OtherSource (fields : list (string * JsValue)).

(** [Object.entries(buildConfigEntries(obj, sourceType))] *)
Definition buildConfigEntries (cfg : ConnectorConfig) : list (string * JsValue) :=
  match cfg with
  | FileSource (Some locations) =>
      [("file_names", JArr (map (fun p => JStr (getNameFromPath p)) locations))]
  | FileSource None => []
  | GoogleSitesSource url => [("base_url", url)]
  | OtherSource fields => fields
  end.

(** The props [ConfigDisplay] gives to a [ConfigItem]. *)
Record ConfigItemProps : Type := mkConfigItemProps {
  label : string;
  value : JsValue;
  isFileItem : bool;
  originalPaths : list string
}.

(** [ConfigDisplay]: [None] stands for [null], otherwise one [ConfigItem]
    per entry. *)
Definition ConfigDisplay (cfg : ConnectorConfig) : option (list ConfigItemProps) :=
  let configEntries := buildConfigEntries cfg in
  match configEntries with
  | [] => None
  | _ =>
      let paths :=
        match cfg with
        | FileSource (Some locations) => locations
        | _ => []
        end in
      Some (map (fun kv => mkConfigItemProps (fst kv) (snd kv)
                             (String.eqb (fst kv) "file_names") paths)
                configEntries)
  end.

(** What [renderValue] returns. *)
Inductive ValueView : Type :=
| FileRows (rows : list (Icon * string))      (* icon, name and Preview button *)
| Bullets (items : list JsValue)              (* one converted item per bullet *)
| FieldLines (lines : list (string * JsValue)) (* key: converted value *)
| Plain (v : JsValue).

(** The rows of a file list; [None] when an item is not a string, on which
    [getFileIcon] throws. *)
Fixpoint fileRows (items : list JsValue) : option (list (Icon * string)) :=
  match items with
  | [] => Some []
  | JStr s :: r =>
      match fileRows r with
      | Some rows => Some ((getFileIcon s, s) :: rows)
      | None => None
      end
  | _ :: _ => None
  end.

(** Not a string: [getFileIcon] throws on such an item. *)
Definition notAString (v : JsValue) : Prop := forall s, v <> JStr s.

(** [renderValue] of [ConfigItem]; [None] when rendering throws. *)
Definition renderValue (c : ConfigItemState) (pr : ConfigItemProps) : option ValueView :=
  match value pr with
  | JArr items =>
      let displayed := displayedItems (isExpanded c) items in
      if isFileItem pr then option_map FileRows (fileRows displayed)
      else Some (Bullets (map convertObjectToString displayed))
  | JObj fields =>
      Some (FieldLines (map (fun kv => (fst kv, convertObjectToString (snd kv))) fields))
  | JBool b => Some (Plain (JStr (if b then "True" else "False")))
  | v =>
      Some (Plain (if truthyValue (convertObjectToString v)
                   then convertObjectToString v else JStr "-"))
  end.

End ConfigValues.

Arguments JUndefined {number}.
Arguments JNull {number}.
Arguments JBool {number} b.
Arguments JNum {number} n.
Arguments JStr {number} s.
Arguments JArr {number} items.
Arguments JObj {number} fields.

(* ----------------------------------------------------------------- *)
(** *** The advanced configuration display *)

(** A number of seconds is an integer here.  [Math.round(seconds / d)] for a
    positive integer [d] is then the integer nearest to the quotient, a half
    going up. *)
Definition roundDiv (seconds d : Z) : Z := ((2 * seconds + d) / (2 * d))%Z.

Definition showNumber (n : Z) : string := NilZero.string_of_int (Z.to_int n).

Definition formatRefreshFrequency (seconds : option Z) : string :=
  match seconds with
  | None => "-"
  | Some s =>
      let minutes := roundDiv s 60 in
      showNumber minutes ++ " minute" ++ (if Z.eqb minutes 1 then EmptyString else "s")
  end.

Definition formatPruneFrequency (seconds : option Z) : string :=
  match seconds with
  | None => "-"
  | Some s =>
      let days := roundDiv s (60 * 60 * 24) in
      showNumber days ++ " day" ++ (if Z.eqb days 1 then EmptyString else "s")
  end.

(** A child of the list of [AdvancedConfigDisplay]. *)
Inductive AdvancedChild : Type :=
| AdvancedItem (label value : string) (editable : bool)   (* a [ConfigItem] *)
| BareNumber (n : Z)              (* a number React renders as text *)
| NoChild.

(** The three children, in order: [{pruneFreq !== null && ...}],
    [{refreshFreq && ...}] and [{indexingStart && ...}], the last with the
    formatted date as a parameter. *)
Definition AdvancedConfigDisplay (pruneFreq refreshFreq : option Z)
    (indexingStart : option string) : list AdvancedChild :=
  [ match pruneFreq with
    | Some _ => AdvancedItem "Pruning Frequency" (formatPruneFrequency pruneFreq) true
    | None => NoChild
    end;
    match refreshFreq with
    | Some r =>
        if Z.eqb r 0 then BareNumber 0
        else AdvancedItem "Refresh Frequency" (formatRefreshFrequency refreshFreq) true
    | None => NoChild
    end;
    match indexingStart with
    | Some formatted => AdvancedItem "Indexing Start" formatted false
    | None => NoChild
    end ].

(* ----------------------------------------------------------------- *)
(** *** Instances for the scenarios *)

(** A [JSON.stringify] that prints every object as the empty object. *)
Definition emptyJson : list (string * JsValue Z) -> string := fun _ => "{}".

(** The part of a path after its last slash: a [getNameFromPath]. *)
Definition lastSegment (path : string) : string :=
  Js.orElse (Js.pop (Js.split "/" path)) EmptyString.

(* ================================================================= *)
(** ** The modal inside the configuration item *)

(** React reconciles [{previewFile && <FilePreviewModal ... />}] after a
    state change of [ConfigItem]: the modal is rendered with the props of the
    element, mounted first if need be, or unmounted when there is no element. *)
Definition reconcile (getDocumentIdFromPath : string -> string)
    (c : ConfigItemState) (w : World) : World :=
  match modalElement c with
  | Some p => step getDocumentIdFromPath w (Render p)
  | None => if mounted w then step getDocumentIdFromPath w Unmount else w
  end.

(** The path handed to the modal by a click on Preview: the original path
    found for the name, when it is not empty. *)
Definition previewPath (paths : list string) (name : string) : option string :=
  match findOriginalPath paths name with
  | Some p => if Js.truthy p then Some p else None
  | None => None
  end.

(** The calls made by one run of the effect for props [p], most recent
    first: the request of the original fetch unless it is mocked, then the
    request of the indexed fetch, or the logged error when there is no
    identifier, unless it is mocked. *)
Definition callsOfEffect (getDocumentIdFromPath : string -> string) (p : Props)
  : list Effect :=
  ((if Js.truthyOpt (mockIndexedContent p) then []
    else if Js.truthy (docIdOf getDocumentIdFromPath p)
         then [FetchIndexed (docIdOf getDocumentIdFromPath p)]
         else [ConsoleError "Error fetching indexed content:"])
   ++ (if Js.truthyOpt (mockOriginalContent p) then []
       else [FetchFile (Js.orElse (filePath p) (fileName p))]))%list.

(* ================================================================= *)
(** ** A session with a single request *)

Definition origTask (e : TaskEntry) : bool :=
  match task e with
  | OrigAwaitFetch _ | OrigAwaitBlob _ _ | OrigAwaitText _ _ => true
  | IdxAwaitFetch _ | IdxAwaitJson _ _ => false
  end.

Definition noTask (l : list TaskEntry) : bool :=
  match l with [] => true | _ => false end.

(** Events that start no new run of the effect and keep the modal mounted:
    renders with the dependencies [d], clicks, and fetches settling. *)
Definition sameRequest (d : Deps) (ev : Event) : Prop :=
  match ev with
  | Render q => depsOf q = d
  | Unmount => False
  | _ => True
  end.

(** The invariant of a mounted modal all of whose pending fetches belong to
    run [r] of the effect: [isLoading] is set exactly while a fetch is
    pending, and a loading flag is set only while its fetch is pending. *)
Definition oneRequest (r : nat) (d : Deps) (w : World) : Prop :=
  mounted w = true
  /\ lastDeps w = Some d
  /\ (forall e, In e (pool w) -> owner e = instance w /\ run e = r)
  /\ NoDup (map tid (pool w))
  /\ isLoading (st w) = negb (noTask (pool w))
  /\ (originalContentLoading (st w) = true ->
      exists e, In e (pool w) /\ origTask e = true)
  /\ (indexedContentLoading (st w) = true ->
      exists e, In e (pool w) /\ origTask e = false).

(* ================================================================= *)
(** ** The first version of the component *)

(** The file holds two versions of the component.  The effect of the first
    one starts the original fetch only,
    [Promise.all([fetchOriginalContent()])], and its [fetchIndexedContent]
    is never called; the rest of the component is the same. *)
Definition runEffect1 (p : Props) (w : World) : World :=
  if isOpen p then
    let i := instance w in
    let r := nextRun w in
    let w := mkWorld (mounted w) (instance w) (props w) (lastDeps w) (st w)
                     (pool w) (nextTid w) (S r) (nextBlob w) (log w) in
    let w := setState i (setIsLoading true) w in
    let w := setState i (setError None) w in
    let w := fetchOriginalContent p i r w in
    finallyIfSettled i r w
  else w.

Definition render1 (p : Props) (w : World) : World :=
  let w := if mounted w then w else mount w in
  let changed := depsChanged p w in
  let w := mkWorld (mounted w) (instance w) p (Some (depsOf p)) (st w) (pool w)
                   (nextTid w) (nextRun w) (nextBlob w) (log w) in
  if changed then runEffect1 p w else w.

Definition step1 (w : World) (ev : Event) : World :=
  match ev with
  | Render p => render1 p w
  | Unmount => unmount w
  | ClickClose => if mounted w then emit OnClose w else w
  | DialogOpenChange open =>
      if mounted w && negb open then emit OnClose w else w
  | ClickDownload => if mounted w then handleDownload w else w
  | FetchSettled id r =>
      match lookupTask id w with
      | Some e => fetchSettled e r w
      | None => w
      end
  | Resume id =>
      match lookupTask id w with
      | Some e => resume e w
      | None => w
      end
  end.

Definition runEvents1 (w : World) (evs : list Event) : World :=
  fold_left step1 evs w.

(** The invariant of the first version: no indexed fetch is pending or was
    requested, and the indexed state variables have their initial values. *)
Definition originalOnly (w : World) : Prop :=
  Forall (fun e => origTask e = true) (pool w)
  /\ indexedRequests (log w) = []
  /\ indexedContent (st w) = EmptyString
  /\ indexedContentLoading (st w) = true.

(* ================================================================= *)
(** ** Well-formed states *)

(** The invariant of every session: [fileUrl] is empty or an object URL the
    component created, [error] is [null] or the message of the original
    fetch, and every download saved a created object URL. *)
Definition wellFormed (w : World) : Prop :=
  (fileUrl (st w) = EmptyString \/ In (fileUrl (st w)) (createdURLs (log w)))
  /\ (error (st w) = None \/ error (st w) = Some ORIGINAL_FAILED)
  /\ (forall u n, In (SaveAs u n) (log w) -> In u (createdURLs (log w))).

(* ================================================================= *)
(** ** The two versions side by side *)

(** Two states that differ at most in the indexed text and its loading
    flag. *)
Definition sameOriginal (s1 s2 : State) : Prop :=
  isLoading s1 = isLoading s2
  /\ originalContentLoading s1 = originalContentLoading s2
  /\ activeTab s1 = activeTab s2
  /\ originalContent s1 = originalContent s2
  /\ fileUrl s1 = fileUrl s2
  /\ error s1 = error s2.

(** Two worlds that differ at most in those two state variables and in the
    calls to the indexed-content endpoint and to [console.error]. *)
Definition sameSession (w1 w2 : World) : Prop :=
  mounted w1 = mounted w2
  /\ instance w1 = instance w2
  /\ props w1 = props w2
  /\ lastDeps w1 = lastDeps w2
  /\ sameOriginal (st w1) (st w2)
  /\ pool w1 = pool w2
  /\ nextTid w1 = nextTid w2
  /\ nextRun w1 = nextRun w2
  /\ nextBlob w1 = nextBlob w2
  /\ fileRequests (log w1) = fileRequests (log w2)
  /\ createdURLs (log w1) = createdURLs (log w2).

(** Renders for which the indexed fetch of the second version settles at
    once: mock indexed content is given, or there is no document id. *)
Definition indexedAtOnce (getDocumentIdFromPath : string -> string) (ev : Event)
  : Prop :=
  match ev with
  | Render p =>
      Js.truthyOpt (mockIndexedContent p) = true
      \/ Js.truthy (docIdOf getDocumentIdFromPath p) = false
  | _ => True
  end.

(* ################################################################# *)
(** * Theorems *)

(* ================================================================= *)
(** ** Strings: the segment after the last dot *)

Lemma split_not_nil (sep : ascii) (s : string) : Js.split sep s <> [].
Proof.
  destruct s as [|c r]; simpl; [discriminate|].
  destruct (Ascii.eqb c sep); [discriminate|].
  destruct (Js.split sep r); discriminate.
Qed.

Lemma split_without_sep (sep : ascii) (s : string) :
  Js.hasChar sep s = false -> Js.split sep s = [s].
Proof.
  induction s as [|c r IH]; simpl; intros H; [reflexivity|].
  apply orb_false_iff in H as [Hc Hr].
  rewrite Hc, (IH Hr). reflexivity.
Qed.

Lemma split_with_sep_two (sep : ascii) (a b : string) :
  exists x y l, Js.split sep (a ++ String sep b) = x :: y :: l.
Proof.
  induction a as [|c a IH]; simpl.
  - rewrite Ascii.eqb_refl.
    destruct (Js.split sep b) as [|y l] eqn:E.
    + now apply split_not_nil in E.
    + now exists EmptyString, y, l.
  - destruct IH as (x & y & l & ->).
    destruct (Ascii.eqb c sep); eauto.
Qed.

Lemma pop_skip (x y : string) (l : list string) :
  Js.pop (x :: y :: l) = Js.pop (y :: l).
Proof. reflexivity. Qed.

Lemma pop_split_after_sep (sep : ascii) (a b : string) :
  Js.pop (Js.split sep (a ++ String sep b)) = Js.pop (Js.split sep b).
Proof.
  induction a as [|c a IH]; simpl.
  - rewrite Ascii.eqb_refl.
    destruct (Js.split sep b) eqn:E; [now apply split_not_nil in E|reflexivity].
  - destruct (split_with_sep_two sep a b) as (x & y & l & E).
    rewrite E in IH |- *.
    destruct (Ascii.eqb c sep); rewrite !pop_skip; rewrite pop_skip in IH; exact IH.
Qed.

Lemma orElse_empty (s : string) : Js.orElse (Some s) EmptyString = s.
Proof. now destruct s. Qed.

Lemma fileExt_after_last_dot (base suf : string) :
  Js.hasChar "." suf = false ->
  fileExt (base ++ "." ++ suf) = Js.toLowerCase suf.
Proof.
  intros H. unfold fileExt. simpl.
  rewrite pop_split_after_sep, (split_without_sep _ _ H). simpl.
  apply orElse_empty.
Qed.

(* ================================================================= *)
(** ** The extension tables *)

(** Decide every comparison of [e] with a literal of the tables. *)
Ltac ext_cases e :=
  repeat match goal with
  | |- context [String.eqb e ?lit] =>
      destruct (String.eqb_spec e lit) as [->|?]; [vm_compute; try tauto|]
  end.

Ltac unfold_tables :=
  cbv [isPdfExt isImageExt isTextFileExt isDocumentExt isSpreadsheetExt isCodeExt
       recognised categoriesOfExt flaggedCategories Js.includes existsb
       IMAGE_EXTS TEXT_EXTS DOCUMENT_EXTS SPREADSHEET_EXTS CODE_EXTS ICON_CODE_EXTS].

(** The flag combinations that occur: at most one flag, except that [csv]
    sets both the text flag and the spreadsheet flag. *)
Lemma ext_flag_cases (e : string) :
  In (isPdfExt e, isImageExt e, isTextFileExt e, isDocumentExt e,
      isSpreadsheetExt e, isCodeExt e)
     [ (true, false, false, false, false, false);
       (false, true, false, false, false, false);
       (false, false, true, false, false, false);
       (false, false, true, false, true, false);
       (false, false, false, true, false, false);
       (false, false, false, false, true, false);
       (false, false, false, false, false, true);
       (false, false, false, false, false, false) ].
Proof.
  unfold_tables. ext_cases e. simpl. tauto.
Qed.

Lemma categoriesOfExt_shape (e : string) :
  categoriesOfExt e =
    if recognised e then
      if String.eqb e "csv" then [text; spreadsheet]
      else [hd other (categoriesOfExt e)]
    else [other].
Proof.
  unfold_tables. ext_cases e. reflexivity.
Qed.

Lemma recognised_not_other (e : string) :
  recognised e = true -> hd other (categoriesOfExt e) <> other.
Proof.
  unfold_tables. ext_cases e; discriminate.
Qed.

Example extensionless_name_is_its_own_extension :
  fileExt "pdf" = "pdf" /\ categories "pdf" = [pdf] /\ categories "Makefile" = [other].
Proof. repeat split. Qed.

(** C7 (as stated, refuted): the name [data.csv] sets two flags, the text
    flag and the spreadsheet flag, so it is not given exactly one category. *)
Lemma csv_is_text_and_spreadsheet :
  categories "data.csv" = [text; spreadsheet]
  /\ ~ (exists c, categories "data.csv" = [c]).
Proof.
  split; [reflexivity|].
  intros [c H]. discriminate H.
Qed.

(** C7 (amended): the extension flags are a total function of the name and
    depend on it only through [fileExt]; for a name with a dot, [fileExt] is
    the lowercased suffix after the last dot.  A name whose [fileExt] is in
    none of the tables is [other] and nothing else, [csv] is both [text] and
    [spreadsheet], and every other recognised extension has exactly one
    category, which is not [other]. *)
Theorem extension_classification (f : string) :
  categories f =
    (if recognised (fileExt f) then
       if String.eqb (fileExt f) "csv" then [text; spreadsheet] else [classify f]
     else [other])
  /\ (recognised (fileExt f) = true -> classify f <> other)
  /\ (forall base suf,
        f = base ++ "." ++ suf -> Js.hasChar "." suf = false ->
        fileExt f = Js.toLowerCase suf).
Proof.
  split; [|split].
  - unfold classify, categories. apply categoriesOfExt_shape.
  - unfold classify, categories. apply recognised_not_other.
  - intros base suf -> H. now apply fileExt_after_last_dot.
Qed.

Lemma extension_classification_witness :
  categories "Report.PDF" = [pdf] /\ classify "Report.PDF" <> other
  /\ fileExt "Report.PDF" = "pdf".
Proof.
  destruct (extension_classification "Report.PDF") as (H1 & H2 & H3).
  split; [exact H1|split].
  - apply H2. reflexivity.
  - apply (H3 "Report" "PDF"); reflexivity.
Defined.

(** C6 (as stated, refuted): no naming of the four icons by categories makes
    the icon logic and the preview flags agree: [a.txt] and [a.docx] get the
    same icon, while the preview flags make one text and the other a
    document. *)
Lemma icon_table_differs_from_preview_table :
  getFileIcon "a.txt" = getFileIcon "a.docx"
  /\ classify "a.txt" = text /\ classify "a.docx" = document
  /\ ~ (exists catOfIcon : Icon -> ContentCategory,
          forall f, classify f = catOfIcon (getFileIcon f)).
Proof.
  repeat split.
  intros [k H].
  pose proof (H "a.txt") as H1. pose proof (H "a.docx") as H2.
  vm_compute in H1, H2. congruence.
Qed.

Example go_is_code_for_the_icon_only :
  getFileIcon "main.go" = FileCodeGreen /\ isCode "main.go" = false
  /\ classify "main.go" = other.
Proof. repeat split. Qed.

(** C6 (amended): for every file name whose extension is not [go], the icon
    is the one the preview flags determine: the pdf icon exactly when the pdf
    flag is set, the image icon exactly when the image flag is set, the code
    icon exactly when the code flag is set, and the plain text icon for every
    other name (text, document, spreadsheet and unrecognised alike). *)
Theorem icon_agrees_with_preview_flags (f : string) :
  fileExt f <> "go" -> getFileIcon f = iconForFlags f.
Proof.
  unfold getFileIcon, iconForFlags, isPdf, isImage, isCode.
  change (Js.orElse (option_map Js.toLowerCase (Js.pop (Js.split "." f))) EmptyString)
    with (fileExt f).
  generalize (fileExt f) as e. intros e Hgo.
  unfold_tables. ext_cases e. reflexivity.
Qed.

Lemma icon_agrees_with_preview_flags_witness :
  getFileIcon "main.py" = iconForFlags "main.py".
Proof.
  apply (icon_agrees_with_preview_flags "main.py").
  vm_compute. discriminate.
Defined.

(* ================================================================= *)
(** ** The renderer selector *)

Lemma classify_by_flags (f : string) :
  classify f =
    if isPdf f then pdf else if isImage f then image
    else if isTextFile f then text else if isDocument f then document
    else if isSpreadsheet f then spreadsheet else if isCode f then code
    else other.
Proof.
  unfold classify, categories, categoriesOfExt, flaggedCategories,
    isPdf, isImage, isTextFile, isDocument, isSpreadsheet, isCode.
  destruct (isPdfExt _), (isImageExt _), (isTextFileExt _), (isDocumentExt _),
    (isSpreadsheetExt _), (isCodeExt _); reflexivity.
Qed.

(** C5 (as stated, refuted): [a.txt] is opened with a document id and its
    original text "hello" has arrived, the indexed fetch being still pending.
    The displayed content is no longer loading and the table gives the text
    block, but the dialog shows the spinner. *)
Lemma pending_indexed_fetch_keeps_the_spinner :
  originalContentLoading (st (scenario originalArrivesFirst)) = false
  /\ originalContent (st (scenario originalArrivesFirst)) = "hello"
  /\ map task (pool (scenario originalArrivesFirst))
     = [IdxAwaitFetch (previewWithId "a.txt" "doc-1")]
  /\ realise "a.txt"
       (selectRenderer (classify "a.txt")
          (originalView (st (scenario originalArrivesFirst))))
     = TextBlock "hello" false
  /\ panel (shown (scenario originalArrivesFirst)) = Spinner
  /\ panel (shown (scenario originalArrivesFirst))
     <> realise "a.txt"
          (selectRenderer (classify "a.txt")
             (originalView (st (scenario originalArrivesFirst)))).
Proof. vm_compute. repeat split. discriminate. Qed.

(** C5 (amended): on the original panel, the only one the dialog shows,
    [renderFileContent] shows the spinner while the modal's [isLoading] flag
    is set, whatever the category and whatever the original fetch has
    delivered; once that flag is off it is the decision table of the
    specification read top to bottom: spinner while the original content is
    loading, then the error panel, then the embedded viewer without toolbar
    for a pdf with a resource, then the bounded image for an image with a
    resource, then the download placeholder for a document without text,
    then the text block.  A loading pdf shows the spinner and not the text
    block. *)
Theorem renderer_follows_decision_table (p : Props) (s : State) :
  renderFileContent p s true
    = (if isLoading s then Spinner
       else realise (fileName p)
              (selectRenderer (classify (fileName p)) (originalView s)))
  /\ (forall c v, fvLoading v = true -> selectRenderer c v = ChooseSpinner)
  /\ (isLoading s || originalContentLoading s = true ->
      renderFileContent p s true = Spinner).
Proof.
  split; [|split].
  - rewrite classify_by_flags.
    unfold renderFileContent, selectRenderer, originalView, realise, presentOpt,
      isPdf, isImage, isTextFile, isDocument, isSpreadsheet, isCode.
    pose proof (ext_flag_cases (fileExt (fileName p))) as H.
    cbn [In] in H.
    destruct s as [l ol il tab oc ic url err]; cbn [isLoading originalContentLoading
      indexedContentLoading originalContent indexedContent fileUrl error fvLoading
      fvError fvResource fvText].
    destruct l; [reflexivity|]. destruct ol; [reflexivity|]. cbn [orb].
    repeat destruct H as [H|H]; try contradiction.
    all: injection H as H1 H2 H3 H4 H5 H6.
    all: rewrite <- ?H1, <- ?H2, <- ?H3, <- ?H4, <- ?H5, <- ?H6.
    all: destruct err as [[|? ?]|], url as [|? ?], oc as [|? ?]; reflexivity.
  - intros c v H. unfold selectRenderer. now rewrite H.
  - intros H. unfold renderFileContent. now rewrite H.
Qed.

Lemma renderer_follows_decision_table_witness :
  renderFileContent (mkProps "report.pdf" None None true None None) initialState true
    = Spinner.
Proof.
  apply renderer_follows_decision_table. reflexivity.
Defined.

(* ================================================================= *)
(** ** Object URLs are never revoked *)

Create HintDb urls.

Lemma keepsURLs_refl w : keepsURLs w w.
Proof. split; [reflexivity|apply incl_refl]. Qed.

Lemma keepsURLs_same_log w0 w w' :
  log w' = log w -> keepsURLs w0 w -> keepsURLs w0 w'.
Proof. unfold keepsURLs. intros ->. trivial. Qed.

Lemma keepsURLs_emit w0 w e :
  silent e -> keepsURLs w0 w -> keepsURLs w0 (emit e w).
Proof.
  intros He [R C]. split; cbn [log emit].
  - destruct e; cbn; trivial. contradiction.
  - destruct e; cbn; trivial. now apply incl_tl.
Qed.

Lemma keepsURLs_setState w0 w i f :
  keepsURLs w0 w -> keepsURLs w0 (setState i f w).
Proof. now apply keepsURLs_same_log. Qed.

Lemma keepsURLs_withPool w0 w f :
  keepsURLs w0 w -> keepsURLs w0 (withPool f w).
Proof. now apply keepsURLs_same_log. Qed.

Lemma keepsURLs_spawn w0 w i r t :
  keepsURLs w0 w -> keepsURLs w0 (spawn i r t w).
Proof. now apply keepsURLs_same_log. Qed.

#[local] Hint Resolve keepsURLs_refl keepsURLs_emit keepsURLs_setState
  keepsURLs_withPool keepsURLs_spawn : urls.
#[local] Hint Extern 1 (silent _) => exact I : urls.

Lemma keepsURLs_finallyIfSettled w0 w i r :
  keepsURLs w0 w -> keepsURLs w0 (finallyIfSettled i r w).
Proof. unfold finallyIfSettled. destruct (runPending _ _); auto with urls. Qed.

#[local] Hint Resolve keepsURLs_finallyIfSettled : urls.

Lemma keepsURLs_complete w0 w e :
  keepsURLs w0 w -> keepsURLs w0 (complete e w).
Proof. unfold complete. auto with urls. Qed.

Lemma keepsURLs_suspend w0 w e t :
  keepsURLs w0 w -> keepsURLs w0 (suspend e t w).
Proof. unfold suspend. auto with urls. Qed.

Lemma keepsURLs_createObjectURL w0 w :
  keepsURLs w0 w -> keepsURLs w0 (snd (createObjectURL w)).
Proof.
  intros [R C]. split; cbn; trivial. now apply incl_tl.
Qed.

#[local] Hint Resolve keepsURLs_complete keepsURLs_suspend
  keepsURLs_createObjectURL : urls.

Section KeepsURLs.

Variable getDocumentIdFromPath : string -> string.
Variable w0 : World.

Lemma keepsURLs_originalCatch w e :
  keepsURLs w0 w -> keepsURLs w0 (originalCatch e w).
Proof. unfold originalCatch. auto 7 with urls. Qed.

Lemma keepsURLs_indexedCatch w i :
  keepsURLs w0 w -> keepsURLs w0 (indexedCatch i w).
Proof. unfold indexedCatch. auto 7 with urls. Qed.

Hint Resolve keepsURLs_originalCatch keepsURLs_indexedCatch : urls.

Lemma keepsURLs_fetchOriginalContent w p i r :
  keepsURLs w0 w -> keepsURLs w0 (fetchOriginalContent p i r w).
Proof.
  unfold fetchOriginalContent. destruct (Js.truthyOpt _); auto 7 with urls.
Qed.

Lemma keepsURLs_fetchIndexedContent w p i r :
  keepsURLs w0 w ->
  keepsURLs w0 (fetchIndexedContent getDocumentIdFromPath p i r w).
Proof.
  unfold fetchIndexedContent.
  destruct (Js.truthyOpt _); [auto with urls|].
  destruct (negb _); auto 7 with urls.
Qed.

Hint Resolve keepsURLs_fetchOriginalContent keepsURLs_fetchIndexedContent : urls.

Lemma keepsURLs_runEffect w p :
  keepsURLs w0 w -> keepsURLs w0 (runEffect getDocumentIdFromPath p w).
Proof.
  intros H. unfold runEffect. destruct (isOpen p); [|assumption].
  repeat first [apply keepsURLs_finallyIfSettled
               |apply keepsURLs_fetchIndexedContent
               |apply keepsURLs_fetchOriginalContent
               |apply keepsURLs_setState].
  eapply keepsURLs_same_log; [|exact H]. reflexivity.
Qed.

Lemma keepsURLs_render w p :
  keepsURLs w0 w -> keepsURLs w0 (render getDocumentIdFromPath p w).
Proof.
  intros H. unfold render.
  assert (H1 : keepsURLs w0 (if mounted w then w else mount w)).
  { destruct (mounted w); [assumption|].
    eapply keepsURLs_same_log; [|exact H]. reflexivity. }
  destruct (depsChanged _ _).
  - apply keepsURLs_runEffect. eapply keepsURLs_same_log; [|exact H1]. reflexivity.
  - eapply keepsURLs_same_log; [|exact H1]. reflexivity.
Qed.

Lemma keepsURLs_fetchSettled w e r :
  keepsURLs w0 w -> keepsURLs w0 (fetchSettled e r w).
Proof.
  intros H. unfold fetchSettled.
  destruct (task e); trivial; destruct r as [resp|]; try destruct (ok resp);
    auto with urls.
Qed.

Lemma keepsURLs_resume w e :
  keepsURLs w0 w -> keepsURLs w0 (resume e w).
Proof.
  intros H. unfold resume. destruct (task e) as [| p resp | p blob | | p resp]; trivial.
  - destruct (blobOf resp); [|auto with urls].
    change (let w1 := setState (owner e) (setFileUrl (fst (createObjectURL w)))
                               (snd (createObjectURL w)) in
            keepsURLs w0
              (if isTextFile (fileName p) || isCode (fileName p)
                  || isSpreadsheet (fileName p)
               then suspend e (OrigAwaitText p s) w1
               else complete e (setState (owner e) (setOriginalContentLoading false) w1))).
    intros w1. assert (keepsURLs w0 w1) by (subst w1; auto with urls).
    destruct (_ || _); auto with urls.
  - auto with urls.
  - destruct (jsonOf resp); auto with urls.
Qed.

Lemma keepsURLs_step w ev :
  keepsURLs w0 w -> keepsURLs w0 (step getDocumentIdFromPath w ev).
Proof.
  intros H. destruct ev; cbn [step].
  - now apply keepsURLs_render.
  - eapply keepsURLs_same_log; [|exact H]. reflexivity.
  - destruct (mounted w); auto with urls.
  - destruct (_ && _); auto with urls.
  - destruct (mounted w); trivial. unfold handleDownload.
    destruct (Js.truthy _); auto with urls.
  - destruct (lookupTask id w); trivial. now apply keepsURLs_fetchSettled.
  - destruct (lookupTask id w); trivial. now apply keepsURLs_resume.
Qed.

Lemma keepsURLs_runEvents evs : forall w,
  keepsURLs w0 w -> keepsURLs w0 (runEvents getDocumentIdFromPath w evs).
Proof.
  induction evs as [|ev evs IH]; intros w H; cbn; [assumption|].
  apply IH. now apply keepsURLs_step.
Qed.

End KeepsURLs.

(* ================================================================= *)
(** ** Sessions with mock original content *)

Create HintDb mock.

Lemma mockSession_setState w i f :
  (forall s, fileUrl (f s) = fileUrl s) ->
  mockSession w -> mockSession (setState i f w).
Proof.
  intros Hf (U & P & R & C). repeat split; trivial.
  cbn. destruct (alive i w); [rewrite Hf|]; exact U.
Qed.

Lemma mockSession_emit w e :
  harmless e -> mockSession w -> mockSession (emit e w).
Proof.
  intros He (U & P & R & C).
  repeat split; trivial; destruct e; cbn; trivial; contradiction.
Qed.

Lemma mockSession_spawn w i r t :
  idxTask (mkEntry (nextTid w) i r t) -> mockSession w -> mockSession (spawn i r t w).
Proof.
  intros Ht (U & P & R & C). repeat split; trivial. cbn. now constructor.
Qed.

Lemma Forall_dropTask id l : Forall idxTask l -> Forall idxTask (dropTask id l).
Proof.
  intros H. apply Forall_forall. intros e He.
  apply filter_In in He as [He _]. revert e He. now apply Forall_forall.
Qed.

Lemma mockSession_dropTask w id :
  mockSession w -> mockSession (withPool (dropTask id) w).
Proof.
  intros (U & P & R & C). repeat split; trivial. now apply Forall_dropTask.
Qed.

Lemma mockSession_finallyIfSettled w i r :
  mockSession w -> mockSession (finallyIfSettled i r w).
Proof.
  unfold finallyIfSettled. destruct (runPending _ _); trivial.
  now apply mockSession_setState.
Qed.

#[local] Hint Resolve mockSession_emit mockSession_spawn mockSession_dropTask
  mockSession_finallyIfSettled : mock.
#[local] Hint Extern 1 (harmless _) => exact I : mock.
#[local] Hint Extern 1 (idxTask _) => exact I : mock.
#[local] Hint Extern 2 (mockSession (setState _ _ _)) =>
  apply mockSession_setState; [reflexivity|] : mock.

Lemma mockSession_complete w e :
  mockSession w -> mockSession (complete e w).
Proof. unfold complete. auto with mock. Qed.

Lemma mockSession_suspend w e t :
  idxTask (mkEntry (tid e) (owner e) (run e) t) ->
  mockSession w -> mockSession (suspend e t w).
Proof.
  intros Ht (U & P & R & C). repeat split; trivial.
  cbn. constructor; [assumption|now apply Forall_dropTask].
Qed.

#[local] Hint Resolve mockSession_complete mockSession_suspend : mock.

Lemma mockSession_initialWorld : mockSession initialWorld.
Proof. repeat split. constructor. Qed.

Lemma lookupTask_In id w e : lookupTask id w = Some e -> In e (pool w) /\ tid e = id.
Proof.
  unfold lookupTask. intros H. apply find_some in H as [H1 H2].
  split; [assumption|now apply Nat.eqb_eq].
Qed.

Section MockSession.

Variable getDocumentIdFromPath : string -> string.

Lemma mockSession_indexedCatch w i :
  mockSession w -> mockSession (indexedCatch i w).
Proof. unfold indexedCatch. auto 7 with mock. Qed.

Hint Resolve mockSession_indexedCatch : mock.

Lemma mockSession_fetchOriginalContent w p i r :
  Js.truthyOpt (mockOriginalContent p) = true ->
  mockSession w -> mockSession (fetchOriginalContent p i r w).
Proof. unfold fetchOriginalContent. intros ->. auto with mock. Qed.

Lemma mockSession_fetchIndexedContent w p i r :
  mockSession w -> mockSession (fetchIndexedContent getDocumentIdFromPath p i r w).
Proof.
  unfold fetchIndexedContent.
  destruct (Js.truthyOpt _); [auto with mock|].
  destruct (negb _); auto 7 with mock.
Qed.

Lemma mockSession_same w w' :
  fileUrl (st w') = fileUrl (st w) -> pool w' = pool w -> log w' = log w ->
  mockSession w -> mockSession w'.
Proof. unfold mockSession. intros -> -> ->. trivial. Qed.

Lemma mockSession_runEffect w p :
  Js.truthyOpt (mockOriginalContent p) = true ->
  mockSession w -> mockSession (runEffect getDocumentIdFromPath p w).
Proof.
  intros Hp H. unfold runEffect. destruct (isOpen p); [|assumption].
  apply mockSession_finallyIfSettled, mockSession_fetchIndexedContent,
    mockSession_fetchOriginalContent; [assumption|].
  do 2 (apply mockSession_setState; [reflexivity|]).
  revert H. now apply mockSession_same.
Qed.

Lemma mockSession_render w p :
  Js.truthyOpt (mockOriginalContent p) = true ->
  mockSession w -> mockSession (render getDocumentIdFromPath p w).
Proof.
  intros Hp H. unfold render.
  assert (H1 : mockSession (if mounted w then w else mount w)).
  { destruct (mounted w); [assumption|].
    destruct H as (U & P & R & C). now repeat split. }
  destruct (depsChanged _ _).
  - apply mockSession_runEffect; [assumption|]. revert H1. now apply mockSession_same.
  - revert H1. now apply mockSession_same.
Qed.

Lemma mockSession_fetchSettled w e r :
  idxTask e -> mockSession w -> mockSession (fetchSettled e r w).
Proof.
  unfold idxTask, fetchSettled. intros He H.
  destruct (task e); try contradiction; trivial.
  destruct r as [resp|]; try destruct (ok resp); auto with mock.
Qed.

Lemma mockSession_resume w e :
  idxTask e -> mockSession w -> mockSession (resume e w).
Proof.
  unfold idxTask, resume. intros He H.
  destruct (task e) as [| | | | p resp]; try contradiction; trivial.
  destruct (jsonOf resp); auto 6 with mock.
Qed.

Lemma mockSession_step w ev :
  mockEvent ev -> mockSession w -> mockSession (step getDocumentIdFromPath w ev).
Proof.
  intros Hev H. destruct ev; cbn [step].
  - now apply mockSession_render.
  - revert H. now apply mockSession_same.
  - destruct (mounted w); auto with mock.
  - destruct (_ && _); auto with mock.
  - destruct (mounted w); trivial. unfold handleDownload.
    destruct (Js.truthy _); auto with mock.
  - destruct (lookupTask id w) as [e|] eqn:E; trivial.
    apply mockSession_fetchSettled; trivial.
    apply lookupTask_In in E as [E _].
    destruct H as (_ & P & _). now apply (proj1 (Forall_forall _ _) P).
  - destruct (lookupTask id w) as [e|] eqn:E; trivial.
    apply mockSession_resume; trivial.
    apply lookupTask_In in E as [E _].
    destruct H as (_ & P & _). now apply (proj1 (Forall_forall _ _) P).
Qed.

Lemma mockSession_runEvents evs : forall w,
  Forall mockEvent evs -> mockSession w ->
  mockSession (runEvents getDocumentIdFromPath w evs).
Proof.
  induction evs as [|ev evs IH]; intros w Hevs H; cbn; [assumption|].
  inversion Hevs; subst. apply IH; [assumption|]. now apply mockSession_step.
Qed.

End MockSession.

(* ================================================================= *)
(** ** The task pool *)

(** Project a field out of a world built by the primitive updates. *)
Ltac wproj :=
  cbn [st log pool props mounted instance lastDeps nextTid nextRun nextBlob
       withSt withPool emit spawn setState].

Ltac wcbn := wproj; unfold alive; wproj.

(** Project a field out of a state built by the setters. *)
Ltac scbn :=
  cbn [isLoading originalContentLoading indexedContentLoading activeTab
       originalContent indexedContent fileUrl error
       setIsLoading setOriginalContentLoading setIndexedContentLoading
       setOriginalContent setIndexedContent setFileUrl setError].

Lemma find_dropTask id l : find (fun e => Nat.eqb (tid e) id) (dropTask id l) = None.
Proof.
  induction l as [|e l IH]; cbn; [reflexivity|].
  destruct (Nat.eqb (tid e) id) eqn:E; cbn; [assumption|]. now rewrite E.
Qed.

Lemma dropTask_idem id l : dropTask id (dropTask id l) = dropTask id l.
Proof.
  induction l as [|e l IH]; cbn; [reflexivity|].
  destruct (Nat.eqb (tid e) id) eqn:E; cbn; [assumption|]. rewrite E. cbn. now f_equal.
Qed.

Lemma dropTask_suspended e t l :
  dropTask (tid e) (mkEntry (tid e) (owner e) (run e) t :: dropTask (tid e) l)
  = dropTask (tid e) l.
Proof. cbn. rewrite Nat.eqb_refl. cbn. apply dropTask_idem. Qed.

Lemma lookupTask_suspend e t w :
  lookupTask (tid e) (suspend e t w) = Some (mkEntry (tid e) (owner e) (run e) t).
Proof. unfold lookupTask. cbn. now rewrite Nat.eqb_refl. Qed.

(* ================================================================= *)
(** ** How the fetches settle *)

Section Settling.

(** [gd] stands for [getDocumentIdFromPath]. *)
Variable gd : string -> string.

(** A failed indexed fetch leaves the state that a fetch returning the
    unavailability text would leave. *)
Lemma indexed_failure_settles w id e p r :
  lookupTask id w = Some e -> task e = IdxAwaitFetch p -> failing r = true ->
  st (step gd w (FetchSettled id r)) = st (indexedSettles e INDEXED_UNAVAILABLE w)
  /\ pool (step gd w (FetchSettled id r)) = pool (indexedSettles e INDEXED_UNAVAILABLE w)
  /\ props (step gd w (FetchSettled id r)) = props w.
Proof.
  intros Hl Ht Hr. cbn [step]. rewrite Hl. unfold fetchSettled. rewrite Ht.
  assert (E : (match r with
               | Some resp => if ok resp then suspend e (IdxAwaitJson p resp) w
                              else complete e (indexedCatch (owner e) w)
               | None => complete e (indexedCatch (owner e) w)
               end) = complete e (indexedCatch (owner e) w)).
  { destruct r as [resp|]; [|reflexivity]. cbn in Hr. now destruct (ok resp). }
  rewrite E. unfold indexedSettles, indexedCatch, complete, finallyIfSettled.
  cbn [pool withPool setState withSt emit].
  destruct (runPending _ _); repeat split.
Qed.

Lemma indexed_success_settles w id e p resp d :
  lookupTask id w = Some e -> task e = IdxAwaitFetch p ->
  ok resp = true -> jsonOf resp = Some d ->
  let w' := step gd (step gd w (FetchSettled id (Some resp))) (Resume id) in
  st w' = st (indexedSettles e (content d) w)
  /\ pool w' = pool (indexedSettles e (content d) w)
  /\ props w' = props w.
Proof.
  intros Hl Ht Hok Hj.
  destruct (lookupTask_In _ _ _ Hl) as [_ <-].
  cbn [step]. rewrite Hl. unfold fetchSettled. rewrite Ht, Hok.
  rewrite lookupTask_suspend. unfold resume. cbn [task]. rewrite Hj.
  unfold indexedSettles, complete, finallyIfSettled, suspend.
  cbn [pool withPool setState withSt tid owner run].
  rewrite dropTask_suspended.
  destruct (runPending _ _); repeat split;
    cbn [pool withPool setState withSt]; apply dropTask_suspended.
Qed.

(** The original panel does not read the indexed text. *)
Lemma original_panel_ignores_indexed_text q e c1 c2 w :
  renderFileContent q (st (indexedSettles e c1 w)) true
  = renderFileContent q (st (indexedSettles e c2 w)) true.
Proof.
  unfold indexedSettles, complete, finallyIfSettled.
  cbn [pool withPool setState withSt].
  destruct (runPending _ _); wcbn;
    destruct (mounted w && Nat.eqb (owner e) (instance w));
    unfold renderFileContent; scbn; reflexivity.
Qed.

Lemma original_failure_settles w id e p r :
  lookupTask id w = Some e -> task e = OrigAwaitFetch p -> failing r = true ->
  step gd w (FetchSettled id r) = originalCatch e w.
Proof.
  intros Hl Ht Hr. cbn [step]. rewrite Hl. unfold fetchSettled. rewrite Ht.
  destruct r as [resp|]; [|reflexivity]. cbn in Hr. now destruct (ok resp).
Qed.

Lemma originalCatch_state e w :
  alive (owner e) w = true ->
  error (st (originalCatch e w)) = Some ORIGINAL_FAILED
  /\ originalContentLoading (st (originalCatch e w)) = false
  /\ props (originalCatch e w) = props w.
Proof.
  intros Ha. unfold originalCatch, complete, finallyIfSettled.
  cbn [pool withPool setState withSt emit].
  unfold alive in Ha.
  destruct (runPending _ _); wcbn; rewrite !Ha; scbn; auto.
Qed.

End Settling.

(* ================================================================= *)
(** ** Projections of the primitive updates *)

Lemma st_setState i f w :
  st (setState i f w) = if alive i w then f (st w) else st w.
Proof. reflexivity. Qed.
Lemma st_emit e w : st (emit e w) = st w.
Proof. reflexivity. Qed.
Lemma st_spawn i r t w : st (spawn i r t w) = st w.
Proof. reflexivity. Qed.
Lemma st_withPool f w : st (withPool f w) = st w.
Proof. reflexivity. Qed.

Lemma pool_setState i f w : pool (setState i f w) = pool w.
Proof. reflexivity. Qed.
Lemma pool_emit e w : pool (emit e w) = pool w.
Proof. reflexivity. Qed.
Lemma pool_spawn i r t w :
  pool (spawn i r t w) = mkEntry (nextTid w) i r t :: pool w.
Proof. reflexivity. Qed.
Lemma pool_withPool f w : pool (withPool f w) = f (pool w).
Proof. reflexivity. Qed.

Lemma log_setState i f w : log (setState i f w) = log w.
Proof. reflexivity. Qed.
Lemma log_emit e w : log (emit e w) = e :: log w.
Proof. reflexivity. Qed.
Lemma log_spawn i r t w : log (spawn i r t w) = log w.
Proof. reflexivity. Qed.
Lemma log_withPool f w : log (withPool f w) = log w.
Proof. reflexivity. Qed.

Lemma alive_setState j i f w : alive j (setState i f w) = alive j w.
Proof. reflexivity. Qed.
Lemma alive_emit j e w : alive j (emit e w) = alive j w.
Proof. reflexivity. Qed.
Lemma alive_spawn j i r t w : alive j (spawn i r t w) = alive j w.
Proof. reflexivity. Qed.
Lemma alive_withPool j f w : alive j (withPool f w) = alive j w.
Proof. reflexivity. Qed.

Lemma props_setState i f w : props (setState i f w) = props w.
Proof. reflexivity. Qed.
Lemma props_emit e w : props (emit e w) = props w.
Proof. reflexivity. Qed.
Lemma props_spawn i r t w : props (spawn i r t w) = props w.
Proof. reflexivity. Qed.
Lemma props_withPool f w : props (withPool f w) = props w.
Proof. reflexivity. Qed.

Lemma runPending_cons r e l :
  runPending r (e :: l) = Nat.eqb (run e) r || runPending r l.
Proof. reflexivity. Qed.

Create Rewrite HintDb world.

#[local] Hint Rewrite st_setState st_emit st_spawn st_withPool
  pool_setState pool_emit pool_spawn pool_withPool
  log_setState log_emit log_spawn log_withPool
  alive_setState alive_emit alive_spawn alive_withPool
  props_setState props_emit props_spawn props_withPool : world.


Lemma st_setState_alive i f w :
  alive i w = true -> st (setState i f w) = f (st w).
Proof. intros H. rewrite st_setState. now rewrite H. Qed.

Section EffectState.

(** [gd] stands for [getDocumentIdFromPath]. *)
Variable gd : string -> string.

Lemma alive_fetchOriginalContent j p i r w :
  alive j (fetchOriginalContent p i r w) = alive j w.
Proof.
  unfold fetchOriginalContent.
  destruct (Js.truthyOpt _); now autorewrite with world.
Qed.

Lemma alive_fetchIndexedContent j p i r w :
  alive j (fetchIndexedContent gd p i r w) = alive j w.
Proof.
  unfold fetchIndexedContent, indexedCatch.
  destruct (Js.truthyOpt _); [now autorewrite with world|].
  destruct (negb _); now autorewrite with world.
Qed.

Lemma st_fetchOriginalContent p i r w :
  alive i w = true ->
  st (fetchOriginalContent p i r w)
  = if Js.truthyOpt (mockOriginalContent p)
    then setOriginalContentLoading false
           (setOriginalContent (Js.orElse (mockOriginalContent p) EmptyString) (st w))
    else setOriginalContentLoading true (st w).
Proof.
  intros Ha. unfold fetchOriginalContent.
  destruct (Js.truthyOpt _); autorewrite with world; now rewrite Ha.
Qed.

Lemma st_fetchIndexedContent p i r w :
  alive i w = true ->
  st (fetchIndexedContent gd p i r w)
  = if Js.truthyOpt (mockIndexedContent p)
    then setIndexedContentLoading false
           (setIndexedContent (Js.orElse (mockIndexedContent p) EmptyString) (st w))
    else if Js.truthy (docIdOf gd p)
         then setIndexedContentLoading true (st w)
         else setIndexedContentLoading false
                (setIndexedContent INDEXED_UNAVAILABLE
                   (setIndexedContentLoading true (st w))).
Proof.
  intros Ha. unfold fetchIndexedContent, indexedCatch.
  destruct (Js.truthyOpt _); [autorewrite with world; now rewrite Ha|].
  destruct (Js.truthy _); cbn [negb]; autorewrite with world; now rewrite Ha.
Qed.

Lemma pool_fetchOriginalContent p i r w :
  pool (fetchOriginalContent p i r w)
  = if Js.truthyOpt (mockOriginalContent p) then pool w
    else mkEntry (nextTid w) i r (OrigAwaitFetch p) :: pool w.
Proof.
  unfold fetchOriginalContent.
  destruct (Js.truthyOpt _); now autorewrite with world.
Qed.

Lemma pool_fetchIndexedContent p i r w :
  pool (fetchIndexedContent gd p i r w)
  = if negb (Js.truthyOpt (mockIndexedContent p)) && Js.truthy (docIdOf gd p)
    then mkEntry (nextTid w) i r (IdxAwaitFetch p) :: pool w
    else pool w.
Proof.
  unfold fetchIndexedContent, indexedCatch.
  destruct (Js.truthyOpt _); [now autorewrite with world|].
  destruct (Js.truthy _); cbn [negb andb]; now autorewrite with world.
Qed.

Lemma log_fetchIndexedContent p i r w :
  log (fetchIndexedContent gd p i r w)
  = if Js.truthyOpt (mockIndexedContent p) then log w
    else if Js.truthy (docIdOf gd p) then FetchIndexed (docIdOf gd p) :: log w
         else ConsoleError "Error fetching indexed content:" :: log w.
Proof.
  unfold fetchIndexedContent, indexedCatch.
  destruct (Js.truthyOpt _); [now autorewrite with world|].
  destruct (Js.truthy _); cbn [negb]; now autorewrite with world.
Qed.

Lemma log_fetchOriginalContent p i r w :
  log (fetchOriginalContent p i r w)
  = if Js.truthyOpt (mockOriginalContent p) then log w
    else FetchFile (Js.orElse (filePath p) (fileName p)) :: log w.
Proof.
  unfold fetchOriginalContent.
  destruct (Js.truthyOpt _); now autorewrite with world.
Qed.

Lemma st_finallyIfSettled i r w :
  alive i w = true ->
  st (finallyIfSettled i r w)
  = if runPending r (pool w) then st w else setIsLoading false (st w).
Proof.
  intros Ha. unfold finallyIfSettled.
  destruct (runPending _ _); [reflexivity|]. now apply st_setState_alive.
Qed.

Lemma runEffect_state (p : Props) (w : World) :
  isOpen p = true -> mounted w = true ->
  let s' := st (runEffect gd p w) in
  error s' = None
  /\ fileUrl s' = fileUrl (st w)
  /\ originalContent s'
     = (if Js.truthyOpt (mockOriginalContent p)
        then Js.orElse (mockOriginalContent p) EmptyString else originalContent (st w))
  /\ indexedContent s'
     = (if Js.truthyOpt (mockIndexedContent p)
        then Js.orElse (mockIndexedContent p) EmptyString
        else if Js.truthy (docIdOf gd p) then indexedContent (st w)
             else INDEXED_UNAVAILABLE)
  /\ originalContentLoading s' = negb (Js.truthyOpt (mockOriginalContent p))
  /\ indexedContentLoading s'
     = negb (Js.truthyOpt (mockIndexedContent p)) && Js.truthy (docIdOf gd p)
  /\ (originalContentLoading s' || indexedContentLoading s' = true ->
      isLoading s' = true).
Proof.
  intros Ho Hm. unfold runEffect. rewrite Ho. cbv zeta.
  set (w1 := mkWorld _ _ _ _ _ _ _ _ _ _).
  assert (Ha : alive (instance w) w1 = true).
  { unfold alive. subst w1. cbn [mounted instance]. now rewrite Hm, Nat.eqb_refl. }
  rewrite st_finallyIfSettled
    by now rewrite alive_fetchIndexedContent, alive_fetchOriginalContent,
             !alive_setState.
  rewrite pool_fetchIndexedContent, pool_fetchOriginalContent.
  rewrite st_fetchIndexedContent
    by now rewrite alive_fetchOriginalContent, !alive_setState.
  rewrite st_fetchOriginalContent by now rewrite !alive_setState.
  rewrite !st_setState_alive by now rewrite ?alive_setState.
  change (st w1) with (st w).
  destruct (Js.truthyOpt (mockOriginalContent p)),
    (Js.truthyOpt (mockIndexedContent p)), (Js.truthy (docIdOf gd p));
    cbn [negb andb]; rewrite ?runPending_cons; cbn [run];
    rewrite ?Nat.eqb_refl; cbn [orb];
    try destruct (runPending _ _); scbn;
    repeat split; trivial; discriminate.
Qed.

End EffectState.

(* ================================================================= *)
(** ** Projections of the composite updates *)

Lemma st_complete e w :
  st (complete e w)
  = if runPending (run e) (dropTask (tid e) (pool w)) then st w
    else if alive (owner e) w then setIsLoading false (st w) else st w.
Proof.
  unfold complete, finallyIfSettled. autorewrite with world.
  destruct (runPending _ _); now autorewrite with world.
Qed.

Lemma pool_complete e w : pool (complete e w) = dropTask (tid e) (pool w).
Proof.
  unfold complete, finallyIfSettled. autorewrite with world.
  destruct (runPending _ _); now autorewrite with world.
Qed.

Lemma log_complete e w : log (complete e w) = log w.
Proof.
  unfold complete, finallyIfSettled. autorewrite with world.
  destruct (runPending _ _); now autorewrite with world.
Qed.

Lemma st_suspend e t w : st (suspend e t w) = st w.
Proof. reflexivity. Qed.

Lemma pool_suspend e t w :
  pool (suspend e t w)
  = mkEntry (tid e) (owner e) (run e) t :: dropTask (tid e) (pool w).
Proof. reflexivity. Qed.

Lemma log_suspend e t w : log (suspend e t w) = log w.
Proof. reflexivity. Qed.

Lemma st_createObjectURL w : st (snd (createObjectURL w)) = st w.
Proof. reflexivity. Qed.

Lemma pool_createObjectURL w : pool (snd (createObjectURL w)) = pool w.
Proof. reflexivity. Qed.

Lemma log_createObjectURL w :
  log (snd (createObjectURL w)) = CreateObjectURL (blobUrl (nextBlob w)) :: log w.
Proof. reflexivity. Qed.

Lemma alive_createObjectURL j w : alive j (snd (createObjectURL w)) = alive j w.
Proof. reflexivity. Qed.

Lemma fst_createObjectURL w : fst (createObjectURL w) = blobUrl (nextBlob w).
Proof. reflexivity. Qed.

#[local] Hint Rewrite st_complete pool_complete log_complete
  st_suspend pool_suspend log_suspend
  st_createObjectURL pool_createObjectURL log_createObjectURL
  alive_createObjectURL fst_createObjectURL : world.

(** [resume] at the blob of an original fetch, with the pair of
    [createObjectURL] taken apart. *)
Lemma resume_blob e p resp blob w :
  task e = OrigAwaitBlob p resp -> blobOf resp = Some blob ->
  resume e w
  = let w1 := setState (owner e) (setFileUrl (fst (createObjectURL w)))
                       (snd (createObjectURL w)) in
    if isTextFile (fileName p) || isCode (fileName p) || isSpreadsheet (fileName p)
    then suspend e (OrigAwaitText p blob) w1
    else complete e (setState (owner e) (setOriginalContentLoading false) w1).
Proof. intros Ht Hb. unfold resume. now rewrite Ht, Hb. Qed.

Lemma st_originalCatch e w :
  st (originalCatch e w)
  = let s := if alive (owner e) w
             then setOriginalContentLoading false (setError (Some ORIGINAL_FAILED) (st w))
             else st w in
    if runPending (run e) (dropTask (tid e) (pool w)) then s
    else if alive (owner e) w then setIsLoading false s else s.
Proof.
  unfold originalCatch. autorewrite with world. cbv zeta.
  destruct (alive (owner e) w); reflexivity.
Qed.

Lemma st_indexedCatch i w :
  st (indexedCatch i w)
  = if alive i w
    then setIndexedContentLoading false (setIndexedContent INDEXED_UNAVAILABLE (st w))
    else st w.
Proof.
  unfold indexedCatch. autorewrite with world. destruct (alive i w); reflexivity.
Qed.

Lemma alive_indexedCatch j i w : alive j (indexedCatch i w) = alive j w.
Proof. reflexivity. Qed.

Lemma pool_indexedCatch i w : pool (indexedCatch i w) = pool w.
Proof. reflexivity. Qed.

Lemma log_indexedCatch i w :
  log (indexedCatch i w) = ConsoleError "Error fetching indexed content:" :: log w.
Proof. reflexivity. Qed.

#[local] Hint Rewrite alive_indexedCatch pool_indexedCatch log_indexedCatch
  st_indexedCatch : world.

(* ================================================================= *)
(** ** What a run of the effect leaves *)

Lemma pool_finallyIfSettled i r w : pool (finallyIfSettled i r w) = pool w.
Proof. unfold finallyIfSettled. now destruct (runPending _ _). Qed.

Lemma nextTid_fetchOriginalContent p i r w :
  nextTid (fetchOriginalContent p i r w)
  = if Js.truthyOpt (mockOriginalContent p) then nextTid w else S (nextTid w).
Proof. unfold fetchOriginalContent. now destruct (Js.truthyOpt _). Qed.

Lemma lastDeps_runEffect (gd : string -> string) (p : Props) (w : World) :
  lastDeps (runEffect gd p w) = lastDeps w.
Proof.
  unfold runEffect. destruct (isOpen p); [|reflexivity].
  unfold finallyIfSettled, fetchIndexedContent, fetchOriginalContent, indexedCatch.
  cbv zeta.
  destruct (Js.truthyOpt (mockOriginalContent p)),
    (Js.truthyOpt (mockIndexedContent p)), (negb (Js.truthy (docIdOf gd p)));
    match goal with
    | |- context [runPending ?r ?l] => destruct (runPending r l)
    end; reflexivity.
Qed.

(** The fetches left pending by a run of the effect that found none. *)
Lemma pool_runEffect (gd : string -> string) (p : Props) (w : World) :
  isOpen p = true ->
  pool (runEffect gd p w)
  = ((if negb (Js.truthyOpt (mockIndexedContent p)) && Js.truthy (docIdOf gd p)
      then [mkEntry (if Js.truthyOpt (mockOriginalContent p)
                     then nextTid w else S (nextTid w))
                    (instance w) (nextRun w) (IdxAwaitFetch p)]
      else [])
     ++ (if Js.truthyOpt (mockOriginalContent p) then []
         else [mkEntry (nextTid w) (instance w) (nextRun w) (OrigAwaitFetch p)])
     ++ pool w)%list.
Proof.
  intros Ho. unfold runEffect. rewrite Ho. cbv zeta.
  rewrite pool_finallyIfSettled, pool_fetchIndexedContent, pool_fetchOriginalContent,
    nextTid_fetchOriginalContent.
  autorewrite with world. cbn [pool nextTid].
  destruct (Js.truthyOpt (mockOriginalContent p)), (_ && _); reflexivity.
Qed.

Lemma isLoading_runEffect (gd : string -> string) (p : Props) (w : World) :
  isOpen p = true -> mounted w = true ->
  isLoading (st (runEffect gd p w))
  = runPending (nextRun w) (pool (runEffect gd p w)).
Proof.
  intros Ho Hm. unfold runEffect. rewrite Ho. cbv zeta.
  set (w1 := mkWorld _ _ _ _ _ _ _ _ _ _).
  assert (Ha : alive (instance w) w1 = true).
  { unfold alive. subst w1. cbn [mounted instance]. now rewrite Hm, Nat.eqb_refl. }
  rewrite pool_finallyIfSettled.
  rewrite st_finallyIfSettled
    by now rewrite alive_fetchIndexedContent, alive_fetchOriginalContent,
             !alive_setState.
  destruct (runPending _ _); [|reflexivity].
  rewrite st_fetchIndexedContent
    by now rewrite alive_fetchOriginalContent, !alive_setState.
  rewrite st_fetchOriginalContent by now rewrite !alive_setState.
  rewrite !st_setState_alive by now rewrite ?alive_setState.
  destruct (Js.truthyOpt (mockOriginalContent p)),
    (Js.truthyOpt (mockIndexedContent p)), (Js.truthy (docIdOf gd p)); reflexivity.
Qed.

(* ================================================================= *)
(** ** C1: independence of the two fetches *)

Lemma indexedSettles_state (e : TaskEntry) (c : string) (w : World) :
  error (st (indexedSettles e c w)) = error (st w)
  /\ pool (indexedSettles e c w) = dropTask (tid e) (pool w)
  /\ (alive (owner e) w = true ->
      indexedContent (st (indexedSettles e c w)) = c
      /\ indexedContentLoading (st (indexedSettles e c w)) = false).
Proof.
  unfold indexedSettles, complete, finallyIfSettled.
  destruct (runPending _ _); autorewrite with world;
    destruct (alive (owner e) w); scbn; repeat split; discriminate.
Qed.

Lemma indexed_failure_step (gd : string -> string) w e ev :
  lookupTask (tid e) w = Some e -> indexedFetchFails e ev ->
  step gd w ev = complete e (indexedCatch (owner e) w).
Proof.
  intros Hl Hf. unfold indexedFetchFails in Hf.
  destruct ev as [| | | | |id r|id]; try contradiction;
    destruct (task e) as [q|q resp|q blob|q|q resp] eqn:Ht; try contradiction;
    destruct Hf as [-> Hf]; cbn [step]; rewrite Hl.
  - unfold fetchSettled. rewrite Ht.
    destruct r as [resp|]; [|reflexivity]. cbn in Hf. now destruct (ok resp).
  - unfold resume. now rewrite Ht, Hf.
Qed.

Lemma original_failure_step (gd : string -> string) w e ev :
  lookupTask (tid e) w = Some e -> originalFetchFails e ev ->
  step gd w ev = originalCatch e w.
Proof.
  intros Hl Hf. unfold originalFetchFails in Hf.
  destruct ev as [| | | | |id r|id]; try contradiction;
    destruct (task e) as [q|q resp|q blob|q|q resp] eqn:Ht; try contradiction;
    destruct Hf as [-> Hf]; cbn [step]; rewrite Hl.
  - unfold fetchSettled. rewrite Ht.
    destruct r as [resp|]; [|reflexivity]. cbn in Hf. now destruct (ok resp).
  - unfold resume. now rewrite Ht, Hf.
Qed.

(** The [catch] block of the indexed fetch leaves the state that a fetch
    returning the unavailability text leaves. *)
Lemma indexedCatch_settles e w :
  st (complete e (indexedCatch (owner e) w))
  = st (indexedSettles e INDEXED_UNAVAILABLE w)
  /\ pool (complete e (indexedCatch (owner e) w)) = dropTask (tid e) (pool w)
  /\ props (complete e (indexedCatch (owner e) w)) = props w.
Proof.
  unfold indexedSettles, indexedCatch, complete, finallyIfSettled.
  cbn [pool withPool setState withSt emit].
  destruct (runPending _ _); repeat split.
Qed.

(** A successful [response.json()] stores its text through the same calls. *)
Lemma indexed_json_settles (gd : string -> string) w e p resp d :
  lookupTask (tid e) w = Some e -> task e = IdxAwaitJson p resp ->
  jsonOf resp = Some d ->
  st (step gd w (Resume (tid e))) = st (indexedSettles e (content d) w)
  /\ props (step gd w (Resume (tid e))) = props w.
Proof.
  intros Hl Ht Hj. cbn [step]. rewrite Hl. unfold resume. rewrite Ht, Hj.
  unfold indexedSettles, complete, finallyIfSettled.
  cbn [pool withPool setState withSt].
  destruct (runPending _ _); split; reflexivity.
Qed.

(** What the dialog shows does not read the indexed text. *)
Lemma dialog_ignores_indexed_text q e c1 c2 w :
  FilePreviewModal q (st (indexedSettles e c1 w))
  = FilePreviewModal q (st (indexedSettles e c2 w)).
Proof.
  unfold indexedSettles, complete, finallyIfSettled.
  cbn [pool withPool setState withSt].
  destruct (runPending _ _); wcbn;
    destruct (mounted w && Nat.eqb (owner e) (instance w));
    unfold FilePreviewModal, renderFileContent; scbn; reflexivity.
Qed.

(** C1 (as stated, refuted): with the indexed text "indexed text" fetched
    and stored, the component holds the error of the original fetch when
    that fetch fails and none when it succeeds; [renderFileContent] tests
    this single error before it looks at [isOriginal], so that for the
    indexed content it returns the error panel in the first case and the
    text block in the second.  The dialog itself renders the original panel
    only and shows the error. *)
Lemma original_failure_changes_indexed_panel :
  indexedContent (st (scenario (indexedArrived ++ originalFails))) = "indexed text"
  /\ indexedContent (st (scenario (indexedArrived ++ originalArrives)))
     = "indexed text"
  /\ error (st (scenario (indexedArrived ++ originalFails))) = Some ORIGINAL_FAILED
  /\ error (st (scenario (indexedArrived ++ originalArrives))) = None
  /\ shown (scenario (indexedArrived ++ originalFails))
     = mkModal true "a.txt" (ErrorPanel ORIGINAL_FAILED) false
  /\ indexedPanel (scenario (indexedArrived ++ originalArrives))
    = TextBlock "indexed text" false
  /\ indexedPanel (scenario (indexedArrived ++ originalFails))
    = ErrorPanel ORIGINAL_FAILED
  /\ indexedPanel (scenario (indexedArrived ++ originalFails))
    <> indexedPanel (scenario (indexedArrived ++ originalArrives)).
Proof. vm_compute. repeat split. discriminate. Qed.

(** C1 (amended): every failure of a pending indexed fetch (a rejected
    fetch, a response that is not ok, a rejected [response.json()]) leaves
    the error as it was and the dialog exactly as a success of that fetch
    would, whatever text the success delivers; so does the failure for want
    of a document identifier.  Every failure of a pending original fetch (a
    rejected fetch, a response that is not ok, a rejected [response.blob()])
    keeps the indexed text in the state but sets the single error that
    [renderFileContent] tests for either content: whichever content is asked
    for, the result is the spinner while a loading flag is set and the error
    panel of the original fetch afterwards. *)
Theorem indexed_failure_is_isolated_original_failure_is_shared
    (gd : string -> string) (w : World) (e : TaskEntry) (ev : Event) :
  (lookupTask (tid e) w = Some e -> indexedFetchFails e ev ->
   error (st (step gd w ev)) = error (st w)
   /\ (forall c,
         shown (step gd w ev) = FilePreviewModal (props w) (st (indexedSettles e c w)))
   /\ (forall p resp d,
         task e = IdxAwaitFetch p -> ok resp = true -> jsonOf resp = Some d ->
         shown (step gd w ev)
         = shown (step gd (step gd w (FetchSettled (tid e) (Some resp)))
                       (Resume (tid e))))
   /\ (forall p resp0 resp d,
         task e = IdxAwaitJson p resp0 -> jsonOf resp = Some d ->
         shown (step gd w ev)
         = shown (resume (mkEntry (tid e) (owner e) (run e) (IdxAwaitJson p resp)) w)))
  /\ (lookupTask (tid e) w = Some e -> originalFetchFails e ev ->
      alive (owner e) w = true ->
      let w' := step gd w ev in
      error (st w') = Some ORIGINAL_FAILED
      /\ indexedContent (st w') = indexedContent (st w)
      /\ indexedContentLoading (st w') = indexedContentLoading (st w)
      /\ forall isOriginal,
           renderFileContent (props w') (st w') isOriginal
           = if isLoading (st w')
                || (if isOriginal then originalContentLoading (st w')
                    else indexedContentLoading (st w'))
             then Spinner else ErrorPanel ORIGINAL_FAILED)
  /\ (forall p i r q,
        Js.truthyOpt (mockIndexedContent p) = false ->
        Js.truthy (docIdOf gd p) = false ->
        error (st (fetchIndexedContent gd p i r w)) = error (st w)
        /\ FilePreviewModal q (st (fetchIndexedContent gd p i r w))
           = FilePreviewModal q (st w)).
Proof.
  split; [|split].
  - intros Hl Hf.
    rewrite (indexed_failure_step gd w e ev Hl Hf).
    destruct (indexedCatch_settles e w) as (Hs & _ & Hp).
    assert (Hd : forall c,
               shown (complete e (indexedCatch (owner e) w))
               = FilePreviewModal (props w) (st (indexedSettles e c w))).
    { intros c. unfold shown. rewrite Hs, Hp. apply dialog_ignores_indexed_text. }
    repeat split.
    + rewrite Hs. now destruct (indexedSettles_state e INDEXED_UNAVAILABLE w).
    + exact Hd.
    + intros p resp d Ht Hok Hj. rewrite (Hd (content d)). unfold shown.
      now destruct (indexed_success_settles gd w (tid e) e p resp d Hl Ht Hok Hj)
        as (-> & _ & ->).
    + intros p resp0 resp d Ht Hj. rewrite (Hd (content d)).
      unfold shown, resume. cbn [task]. rewrite Hj.
      unfold indexedSettles, complete, finallyIfSettled.
      cbn [pool withPool setState withSt owner run tid].
      destruct (runPending _ _); reflexivity.
  - intros Hl Hf Ha w'. subst w'.
    rewrite (original_failure_step gd w e ev Hl Hf).
    destruct (originalCatch_state e w Ha) as (He & _ & _).
    pose proof (st_originalCatch e w) as Hs. cbv zeta in Hs. rewrite Ha in Hs.
    repeat split.
    + exact He.
    + rewrite Hs. now destruct (runPending _ _).
    + rewrite Hs. now destruct (runPending _ _).
    + intros b. unfold renderFileContent. rewrite He. reflexivity.
  - intros p i r q Hm Hn. unfold fetchIndexedContent. rewrite Hm, Hn.
    cbn [negb]. cbv zeta. rewrite st_indexedCatch, alive_setState, st_setState.
    destruct (alive i w); split; reflexivity.
Qed.

Lemma indexed_failure_is_isolated_original_failure_is_shared_witness :
  error (st (step derivesNothing
               (scenario [Render (previewWithId "a.txt" "doc-1");
                          FetchSettled 1 (Some unreadable)])
               (Resume 1)))
  = error (st (scenario [Render (previewWithId "a.txt" "doc-1");
                         FetchSettled 1 (Some unreadable)]))
  /\ error (st (step derivesNothing
                  (scenario [Render (previewWithId "a.txt" "doc-1");
                             FetchSettled 0 (Some unreadable)])
                  (Resume 0)))
     = Some ORIGINAL_FAILED.
Proof.
  split.
  - exact (proj1 (proj1 (indexed_failure_is_isolated_original_failure_is_shared
             derivesNothing
             (scenario [Render (previewWithId "a.txt" "doc-1");
                        FetchSettled 1 (Some unreadable)])
             (mkEntry 1 1 0 (IdxAwaitJson (previewWithId "a.txt" "doc-1") unreadable))
             (Resume 1))
            eq_refl (conj eq_refl eq_refl))).
  - exact (proj1 (proj1 (proj2 (indexed_failure_is_isolated_original_failure_is_shared
             derivesNothing
             (scenario [Render (previewWithId "a.txt" "doc-1");
                        FetchSettled 0 (Some unreadable)])
             (mkEntry 0 1 0 (OrigAwaitBlob (previewWithId "a.txt" "doc-1") unreadable))
             (Resume 0)))
            eq_refl (conj eq_refl eq_refl) eq_refl)).
Defined.

(* ================================================================= *)
(** ** C2: results of a superseded request *)




(* ================================================================= *)
(** ** C3: object URLs and closing *)

(** C3 (as stated, refuted): an image is opened and its object URL created;
    the user closes, the parent renders the dialog closed and removes it.
    [onClose] was called, the URL was never revoked. *)
Lemma closing_revokes_nothing :
  fileUrl (st (scenario imageOpened)) = "blob:0"
  /\ log (scenario (imageOpened ++ closedAndRemoved))
     = [OnClose; CreateObjectURL "blob:0";
        ConsoleError "Error fetching indexed content:"; FetchFile "photo.png"]
  /\ mounted (scenario (imageOpened ++ closedAndRemoved)) = false
  /\ timesRevoked "blob:0" (log (scenario (imageOpened ++ closedAndRemoved))) <> 1.
Proof. vm_compute. repeat split. discriminate. Qed.

(** C3 (amended): the component never revokes an object URL.  Over any
    sequence of events from any world (closing by the Close button or by
    dismissing the dialog, rendering closed, unmounting, fetches settling)
    the revoked URLs stay the same and every URL created so far stays
    created; from the first mount on, nothing at all is revoked. *)
Theorem object_urls_are_never_revoked
    (gd : string -> string) (w : World) (evs : list Event) :
  revokedURLs (log (runEvents gd w evs)) = revokedURLs (log w)
  /\ incl (createdURLs (log w)) (createdURLs (log (runEvents gd w evs)))
  /\ (forall u, timesRevoked u (log (runEvents gd w evs)) = timesRevoked u (log w))
  /\ revokedURLs (log (runEvents gd initialWorld evs)) = [].
Proof.
  destruct (keepsURLs_runEvents gd w evs w (keepsURLs_refl w)) as [R C].
  destruct (keepsURLs_runEvents gd initialWorld evs initialWorld
              (keepsURLs_refl initialWorld)) as [R0 _].
  repeat split; trivial.
  intros u. unfold timesRevoked. now rewrite R.
Qed.

(* ================================================================= *)
(** ** C4: what opening resets *)

(** C4 (as stated, refuted): [a.txt] was previewed and the dialog closed;
    [b.docx] is then opened in the same instance.  On opening, the text and
    the object URL of [a.txt] are still in the state, and once the bytes of
    [b.docx] have arrived the dialog shows the text of [a.txt] under the
    title [b.docx]. *)
Lemma reopening_shows_previous_content :
  originalContent
    (st (scenario (textPreviewedThenClosed ++ [Render (preview "b.docx")]))) = "A"
  /\ fileUrl
       (st (scenario (textPreviewedThenClosed ++ [Render (preview "b.docx")])))
     = "blob:0"
  /\ shown (scenario (textPreviewedThenClosed ++ documentOpened))
     = mkModal true "b.docx" (TextBlock "A" false) true.
Proof. vm_compute. repeat split. Qed.

(** C4 (amended): when a render opens the dialog and runs the effect, the
    shared error is cleared and the loading flags are set anew, but neither
    the original content, nor the indexed content, nor the object URL is
    cleared: each keeps the value it had (its initial value on a fresh
    mount) unless a mock or the immediate failure of the indexed fetch
    overwrites it. *)
Theorem open_clears_error_and_keeps_content
    (gd : string -> string) (w : World) (p : Props) :
  isOpen p = true -> effectFires p w = true ->
  let s0 := if mounted w then st w else initialState in
  let s' := st (step gd w (Render p)) in
  error s' = None
  /\ fileUrl s' = fileUrl s0
  /\ originalContent s'
     = (if Js.truthyOpt (mockOriginalContent p)
        then Js.orElse (mockOriginalContent p) EmptyString else originalContent s0)
  /\ indexedContent s'
     = (if Js.truthyOpt (mockIndexedContent p)
        then Js.orElse (mockIndexedContent p) EmptyString
        else if Js.truthy (docIdOf gd p) then indexedContent s0
             else INDEXED_UNAVAILABLE)
  /\ originalContentLoading s' = negb (Js.truthyOpt (mockOriginalContent p))
  /\ indexedContentLoading s'
     = negb (Js.truthyOpt (mockIndexedContent p)) && Js.truthy (docIdOf gd p)
  /\ (originalContentLoading s' || indexedContentLoading s' = true ->
      isLoading s' = true).
Proof.
  intros Ho Hf. cbn [step]. unfold render, effectFires in *.
  destruct (mounted w) eqn:Hm; cbn [negb orb] in Hf.
  - rewrite Hf. cbv zeta.
    apply (runEffect_state gd p
             (mkWorld (mounted w) (instance w) p (Some (depsOf p)) (st w) (pool w)
                      (nextTid w) (nextRun w) (nextBlob w) (log w)) Ho Hm).
  - cbv zeta. unfold depsChanged. cbn [lastDeps mount].
    apply (runEffect_state gd p
             (mkWorld true (S (instance w)) p (Some (depsOf p)) initialState
                      (pool w) (nextTid w) (nextRun w) (nextBlob w) (log w))
             Ho eq_refl).
Qed.

Lemma open_clears_error_and_keeps_content_witness :
  fileUrl (st (step derivesNothing (scenario textPreviewedThenClosed)
                    (Render (preview "b.docx"))))
  = "blob:0"
  /\ originalContent (st (step derivesNothing (scenario textPreviewedThenClosed)
                               (Render (preview "b.docx"))))
     = "A".
Proof.
  pose proof (open_clears_error_and_keeps_content derivesNothing
                (scenario textPreviewedThenClosed) (preview "b.docx")
                eq_refl eq_refl) as H.
  cbv zeta in H. destruct H as (_ & H1 & H2 & _).
  split; (etransitivity; [eassumption|vm_compute; reflexivity]).
Defined.

(* ================================================================= *)
(** ** C8, C9: failures of the indexed fetch *)

Lemma no_identifier (gd : string -> string) (p : Props) :
  Js.truthyOpt (documentId p) = false -> Js.truthy (derivedDocId gd p) = false ->
  Js.truthy (docIdOf gd p) = false.
Proof.
  unfold docIdOf, Js.orElse. intros Hd Hg.
  destruct (documentId p) as [s|]; [|assumption].
  cbn in Hd. now rewrite Hd.
Qed.

(** What the indexed panel shows once the indexed content is [c] and its
    loading flag is cleared. *)
Lemma indexed_panel_of_text (q : Props) (s : State) (c : string) :
  indexedContent s = c -> indexedContentLoading s = false -> Js.truthy c = true ->
  renderFileContent q s false
  = if isLoading s then Spinner
    else if Js.truthyOpt (error s) then ErrorPanel (Js.orElse (error s) EmptyString)
    else TextBlock c (isCode (fileName q)).
Proof.
  intros Hc Hl Ht. unfold renderFileContent. rewrite Hc, Hl.
  cbn [andb]. unfold Js.orElse at 2. rewrite Ht. now rewrite orb_false_r.
Qed.

(** C8 (as stated, refuted): [notes.txt] is opened with no document id, no
    path to derive one from, and mock indexed content: the indexed fetch does
    not fail, the indexed content is the mock text. *)
Lemma mock_indexed_content_preempts_missing_identifier :
  Js.truthyOpt (documentId notesFullyMocked) = false
  /\ derivedDocId derivesNothing notesFullyMocked = EmptyString
  /\ indexedContent (st (scenario [Render notesFullyMocked])) = "demo"
  /\ indexedPanel (scenario [Render notesFullyMocked]) = TextBlock "demo" false
  /\ log (scenario [Render notesFullyMocked]) = [].
Proof. vm_compute. repeat split. Qed.

Example notes_without_document_id :
  shown (scenario [Render notesMocked])
    = mkModal true "notes.txt" (TextBlock "hello" false) false
  /\ indexedPanel (scenario [Render notesMocked])
     = TextBlock INDEXED_UNAVAILABLE false
  /\ indexedRequests (log (scenario [Render notesMocked])) = [].
Proof. vm_compute. repeat split. Qed.

(** C8 (amended): when no mock indexed content is supplied, no document id
    is supplied and none is derived from the path, [fetchIndexedContent]
    fails before its first await: it issues no request, leaves nothing
    pending, logs the error, and stores the fixed unavailability text as the
    indexed content with the loading flag cleared; the indexed panel shows
    that text once the modal is no longer loading, unless the shared error is
    set. *)
Theorem missing_identifier_fails_without_request
    (gd : string -> string) (p : Props) (i r : nat) (w : World) :
  Js.truthyOpt (mockIndexedContent p) = false ->
  Js.truthyOpt (documentId p) = false ->
  Js.truthy (derivedDocId gd p) = false ->
  let w' := fetchIndexedContent gd p i r w in
  log w' = ConsoleError "Error fetching indexed content:" :: log w
  /\ indexedRequests (log w') = indexedRequests (log w)
  /\ pool w' = pool w
  /\ (alive i w = true ->
      indexedContent (st w') = INDEXED_UNAVAILABLE
      /\ indexedContentLoading (st w') = false
      /\ error (st w') = error (st w)
      /\ forall q,
           renderFileContent q (st w') false
           = if isLoading (st w) then Spinner
             else if Js.truthyOpt (error (st w))
                  then ErrorPanel (Js.orElse (error (st w)) EmptyString)
                  else TextBlock INDEXED_UNAVAILABLE (isCode (fileName q))).
Proof.
  intros Hm Hd Hg w'. subst w'.
  pose proof (no_identifier gd p Hd Hg) as Hn.
  rewrite log_fetchIndexedContent, pool_fetchIndexedContent, Hm, Hn.
  cbn [negb andb indexedRequests]. repeat split.
  all: intros; rewrite st_fetchIndexedContent, Hm, Hn by assumption; trivial.
  now rewrite (indexed_panel_of_text q _ INDEXED_UNAVAILABLE) by reflexivity.
Qed.

Lemma missing_identifier_fails_without_request_witness :
  pool (fetchIndexedContent derivesNothing (preview "notes.txt") 1 0
          (scenario [Render (closed (preview "notes.txt"))]))
  = []
  /\ indexedContent
       (st (fetchIndexedContent derivesNothing (preview "notes.txt") 1 0
              (scenario [Render (closed (preview "notes.txt"))])))
     = INDEXED_UNAVAILABLE.
Proof.
  pose proof (missing_identifier_fails_without_request derivesNothing
                (preview "notes.txt") 1 0
                (scenario [Render (closed (preview "notes.txt"))])
                eq_refl eq_refl eq_refl) as H.
  cbv zeta in H. destruct H as (_ & _ & H1 & H2).
  split; [exact H1|]. exact (proj1 (H2 eq_refl)).
Defined.

Lemma indexedSettles_isLoading (e : TaskEntry) (c : string) (w : World) :
  alive (owner e) w = true ->
  isLoading (st (indexedSettles e c w))
  = if runPending (run e) (dropTask (tid e) (pool w))
    then isLoading (st w) else false.
Proof.
  intros Ha. unfold indexedSettles. rewrite st_complete.
  autorewrite with world. rewrite Ha.
  destruct (runPending _ _); reflexivity.
Qed.

(** C9 (as stated, refuted): [a.txt] is opened with a document id and both
    fetches are rejected.  The indexed fetch has stored its fixed text and
    nothing is loading any more, but [renderFileContent] gives the error
    panel of the original fetch for the indexed content, not the text. *)
Lemma failed_indexed_text_is_hidden_by_the_original_error :
  indexedContent (st (scenario bothFetchesFail)) = INDEXED_UNAVAILABLE
  /\ indexedContentLoading (st (scenario bothFetchesFail)) = false
  /\ isLoading (st (scenario bothFetchesFail)) = false
  /\ pool (scenario bothFetchesFail) = []
  /\ error (st (scenario bothFetchesFail)) = Some ORIGINAL_FAILED
  /\ indexedPanel (scenario bothFetchesFail) = ErrorPanel ORIGINAL_FAILED
  /\ indexedPanel (scenario bothFetchesFail)
     <> TextBlock INDEXED_UNAVAILABLE false.
Proof. vm_compute. repeat split. discriminate. Qed.

(** C9 (amended): every failure of the indexed fetch stores the fixed text
    "Indexed content is not available for this file." as the indexed content
    and clears the loading flag of the indexed content; the error is left as
    it was.  For a pending fetch (a rejected fetch, a response that is not
    ok, a rejected [response.json()]) the fetch is no longer pending, the
    state is the one a successful fetch of that very text leaves, and
    [isLoading] is cleared exactly when no other fetch of the same run of
    the effect is pending.  For a missing identifier nothing is left
    pending.  [renderFileContent] then gives, for the indexed content, the
    spinner while [isLoading] is set, the error panel when the error is set
    (by a failed original fetch), and otherwise the fixed text in the text
    block, as for any fetched text.  When the original content is mocked and
    no fetch is pending, a run of the effect without identifier ends with
    that text block. *)
Theorem indexed_failure_is_stored_as_text (gd : string -> string) :
  (forall w e ev,
     lookupTask (tid e) w = Some e -> indexedFetchFails e ev ->
     let w' := step gd w ev in
     error (st w') = error (st w)
     /\ lookupTask (tid e) w' = None
     /\ st w' = st (indexedSettles e INDEXED_UNAVAILABLE w)
     /\ (alive (owner e) w = true ->
         indexedContent (st w') = INDEXED_UNAVAILABLE
         /\ indexedContentLoading (st w') = false
         /\ isLoading (st w')
            = (if runPending (run e) (dropTask (tid e) (pool w))
               then isLoading (st w) else false)
         /\ renderFileContent (props w') (st w') false
            = if isLoading (st w') then Spinner
              else if Js.truthyOpt (error (st w))
                   then ErrorPanel (Js.orElse (error (st w)) EmptyString)
                   else TextBlock INDEXED_UNAVAILABLE (isCode (fileName (props w)))))
  /\ (forall w e p resp d,
        lookupTask (tid e) w = Some e -> task e = IdxAwaitJson p resp ->
        jsonOf resp = Some d ->
        st (step gd w (Resume (tid e))) = st (indexedSettles e (content d) w))
  /\ (forall w e p resp d,
        lookupTask (tid e) w = Some e -> task e = IdxAwaitFetch p ->
        ok resp = true -> jsonOf resp = Some d ->
        st (step gd (step gd w (FetchSettled (tid e) (Some resp))) (Resume (tid e)))
        = st (indexedSettles e (content d) w))
  /\ (forall p i r w,
        Js.truthyOpt (mockIndexedContent p) = false ->
        Js.truthy (docIdOf gd p) = false -> alive i w = true ->
        let w' := fetchIndexedContent gd p i r w in
        error (st w') = error (st w)
        /\ pool w' = pool w
        /\ indexedContent (st w') = INDEXED_UNAVAILABLE
        /\ indexedContentLoading (st w') = false)
  /\ (forall p w,
        isOpen p = true -> mounted w = true -> pool w = [] ->
        Js.truthyOpt (mockOriginalContent p) = true ->
        Js.truthyOpt (mockIndexedContent p) = false ->
        Js.truthy (docIdOf gd p) = false ->
        renderFileContent p (st (runEffect gd p w)) false
        = TextBlock INDEXED_UNAVAILABLE (isCode (fileName p))).
Proof.
  split; [|split; [|split; [|split]]].
  - intros w e ev Hl Hf w'. subst w'.
    rewrite (indexed_failure_step gd w e ev Hl Hf).
    destruct (indexedCatch_settles e w) as (Hs & Hp & Hq).
    destruct (indexedSettles_state e INDEXED_UNAVAILABLE w) as (He & _ & Ha).
    repeat split.
    + now rewrite Hs.
    + unfold lookupTask. rewrite Hp. apply find_dropTask.
    + exact Hs.
    + rewrite Hs. now apply Ha.
    + rewrite Hs. now apply Ha.
    + rewrite Hs. now apply indexedSettles_isLoading.
    + rewrite Hq, <- He, <- Hs.
      apply indexed_panel_of_text; try reflexivity; rewrite Hs; now apply Ha.
  - intros w e p resp d Hl Ht Hj.
    now destruct (indexed_json_settles gd w e p resp d Hl Ht Hj).
  - intros w e p resp d Hl Ht Hok Hj.
    now destruct (indexed_success_settles gd w (tid e) e p resp d Hl Ht Hok Hj).
  - intros p i r w Hm Hn Ha w'. subst w'.
    rewrite pool_fetchIndexedContent, Hm, Hn.
    rewrite st_fetchIndexedContent, Hm, Hn by assumption. repeat split.
  - intros p w Ho Hm Hp Hmo Hmi Hn.
    destruct (runEffect_state gd p w Ho Hm) as (He & _ & _ & Hc & _ & Hl & _).
    pose proof (isLoading_runEffect gd p w Ho Hm) as Hi.
    rewrite (pool_runEffect gd p w Ho), Hmo, Hmi, Hn, Hp in Hi. cbn in Hi.
    rewrite Hmi, Hn in Hc, Hl. cbn in Hl.
    rewrite (indexed_panel_of_text p _ INDEXED_UNAVAILABLE Hc Hl eq_refl).
    now rewrite Hi, He.
Qed.

Lemma indexed_failure_is_stored_as_text_witness :
  indexedContent
    (st (step derivesNothing
           (scenario [Render (previewWithId "a.txt" "doc-1");
                      FetchSettled 1 (Some unreadable)])
           (Resume 1)))
  = INDEXED_UNAVAILABLE
  /\ indexedContent
       (st (fetchIndexedContent derivesNothing (preview "notes.txt") 1 0
              (scenario [Render (closed (preview "notes.txt"))])))
     = INDEXED_UNAVAILABLE
  /\ renderFileContent notesMocked
       (st (runEffect derivesNothing notesMocked
              (scenario [Render (closed notesMocked)]))) false
     = TextBlock INDEXED_UNAVAILABLE false.
Proof.
  destruct (indexed_failure_is_stored_as_text derivesNothing)
    as (H1 & _ & _ & H4 & H5).
  split; [|split].
  - exact (proj1 (proj2 (proj2 (proj2
             (H1 (scenario [Render (previewWithId "a.txt" "doc-1");
                            FetchSettled 1 (Some unreadable)])
                 (mkEntry 1 1 0
                    (IdxAwaitJson (previewWithId "a.txt" "doc-1") unreadable))
                 (Resume 1) eq_refl (conj eq_refl eq_refl)))) eq_refl)).
  - exact (proj1 (proj2 (proj2
             (H4 (preview "notes.txt") 1 0
                 (scenario [Render (closed (preview "notes.txt"))])
                 eq_refl eq_refl eq_refl)))).
  - exact (H5 notesMocked (scenario [Render (closed notesMocked)])
              eq_refl eq_refl eq_refl eq_refl eq_refl eq_refl).
Defined.

(* ================================================================= *)
(** ** C10: mock original content *)




(* ################################################################# *)
(** * The connector configuration display *)

(* ================================================================= *)
(** ** Finding the original path of a listed file *)

Lemma endsWith_spec (s suffix : string) :
  endsWith s suffix = true <-> exists pre, s = pre ++ suffix.
Proof.
  split.
  - induction s as [|c s IH]; cbn [endsWith].
    + destruct (String.eqb_spec EmptyString suffix) as [<-|]; [|discriminate].
      intros _. now exists EmptyString.
    + destruct (String.eqb_spec (String c s) suffix) as [<-|].
      * intros _. now exists EmptyString.
      * intros H. destruct (IH H) as [pre ->]. now exists (String c pre).
  - intros [pre ->]. induction pre as [|c pre IH]; cbn [append].
    + destruct suffix; cbn [endsWith]; now rewrite String.eqb_refl.
    + cbn [endsWith]. rewrite IH. now destruct (String.eqb _ _).
Qed.

Lemma includes_In (l : list string) (x : string) :
  Js.includes l x = true <-> In x l.
Proof.
  unfold Js.includes. rewrite existsb_exists. split.
  - intros (y & Hy & E). apply String.eqb_eq in E. now subst.
  - intros H. exists x. split; [assumption|apply String.eqb_refl].
Qed.

Lemma pathEndsWithName_spec (name path : string) :
  pathEndsWithName name path = true
  <-> exists dir, path = dir ++ "/" ++ name \/ path = dir ++ "\" ++ name.
Proof.
  unfold pathEndsWithName. rewrite orb_true_iff, !endsWith_spec. split.
  - intros [[d H]|[d H]]; exists d; auto.
  - intros [d [H|H]]; [left|right]; now exists d.
Qed.

Lemma findOriginalPath_Some (paths : list string) (name p : string) :
  findOriginalPath paths name = Some p ->
  In p paths
  /\ (p = name \/ exists dir, p = dir ++ "/" ++ name \/ p = dir ++ "\" ++ name).
Proof.
  unfold findOriginalPath. intros H. destruct paths as [|q qs]; [discriminate|].
  destruct (Js.includes (q :: qs) name) eqn:E.
  - injection H as <-. split; [now apply includes_In|now left].
  - apply find_some in H as [Hin Hm]. split; [assumption|right].
    now apply pathEndsWithName_spec.
Qed.

Lemma findOriginalPath_None (paths : list string) (name : string) :
  findOriginalPath paths name = None <->
  forall p, In p paths -> p <> name /\ pathEndsWithName name p = false.
Proof.
  unfold findOriginalPath.
  destruct paths as [|q qs]; [split; [intros _ p []|reflexivity]|].
  destruct (Js.includes (q :: qs) name) eqn:E.
  - split; [discriminate|]. intros H. apply includes_In in E.
    now destruct (H name E).
  - split.
    + intros H p Hp. split.
      * intros ->. apply includes_In in Hp. congruence.
      * destruct (pathEndsWithName name p) eqn:Em; [|reflexivity].
        now rewrite (find_none _ _ H p Hp) in Em.
    + intros H. destruct (find _ _) as [p|] eqn:F; [|reflexivity].
      apply find_some in F as [Hin Hm]. destruct (H p Hin). congruence.
Qed.

(** X1: What [findOriginalPath] returns is one of the original paths, and it is
    the file name itself or a path that ends with a separator and the file
    name; nothing is returned exactly when no original path is of that kind. *)
Theorem findOriginalPath_finds_a_matching_path (paths : list string) (name : string) :
  (forall p, findOriginalPath paths name = Some p ->
     In p paths
     /\ (p = name \/ exists dir, p = dir ++ "/" ++ name \/ p = dir ++ "\" ++ name))
  /\ (findOriginalPath paths name = None <->
      forall p, In p paths -> p <> name /\ pathEndsWithName name p = false).
Proof.
  split; [intros p; apply findOriginalPath_Some|apply findOriginalPath_None].
Qed.

Lemma findOriginalPath_finds_a_matching_path_witness :
  In "docs/a.txt" ["docs/a.txt"; "b.txt"]
  /\ ("docs/a.txt" = "a.txt"
      \/ exists dir, "docs/a.txt" = dir ++ "/" ++ "a.txt"
                     \/ "docs/a.txt" = dir ++ "\" ++ "a.txt").
Proof.
  exact (proj1 (findOriginalPath_finds_a_matching_path ["docs/a.txt"; "b.txt"] "a.txt")
               "docs/a.txt" eq_refl).
Defined.

Lemma find_app_first {A} (f : A -> bool) (l1 l2 : list A) (x : A) :
  (forall y, In y l1 -> f y = false) -> f x = true ->
  find f (l1 ++ x :: l2)%list = Some x.
Proof.
  intros H Hx. induction l1 as [|y l1 IH]; cbn.
  - now rewrite Hx.
  - rewrite (H y (or_introl eq_refl)). apply IH. intros z Hz. apply H. now right.
Qed.

(** X2: A listed name that is itself an original path resolves to itself, even
    when an earlier path ends with that name; otherwise the first path that
    ends with the name is taken, so of two files with the same name in
    different directories both resolve to the first one. *)
Theorem findOriginalPath_prefers_exact_then_first
    (before after : list string) (p name : string) :
  (In name (before ++ p :: after)%list ->
   findOriginalPath (before ++ p :: after)%list name = Some name)
  /\ (~ In name (before ++ p :: after)%list ->
      (forall q, In q before -> pathEndsWithName name q = false) ->
      pathEndsWithName name p = true ->
      findOriginalPath (before ++ p :: after)%list name = Some p).
Proof.
  unfold findOriginalPath. split.
  - intros H. apply includes_In in H. rewrite H. now destruct (before ++ p :: after)%list.
  - intros Hn Hb Hp.
    destruct (Js.includes (before ++ p :: after)%list name) eqn:E;
      [now apply includes_In in E|].
    rewrite (find_app_first _ _ _ _ Hb Hp). now destruct before.
Qed.

Lemma findOriginalPath_prefers_exact_then_first_witness :
  findOriginalPath (["x/a.txt"] ++ "a.txt" :: ["y/a.txt"])%list "a.txt" = Some "a.txt"
  /\ findOriginalPath ([] ++ "x/a.txt" :: ["y/a.txt"])%list "a.txt" = Some "x/a.txt".
Proof.
  split.
  - apply (proj1 (findOriginalPath_prefers_exact_then_first
                    ["x/a.txt"] ["y/a.txt"] "a.txt" "a.txt")).
    cbn. tauto.
  - apply (proj2 (findOriginalPath_prefers_exact_then_first
                    [] ["y/a.txt"] "x/a.txt" "a.txt")).
    + cbn. intros [H|[H|[]]]; discriminate.
    + intros q [].
    + reflexivity.
Defined.

(* ================================================================= *)
(** ** The list of a configuration item *)

(** X3: The items shown are the first items of the list, in their order: the
    list is the shown items followed by the hidden ones.  Collapsed, the
    first five items are shown (all of them when there are at most five) and
    the others are hidden; expanded, all items are shown.  When no toggle
    is rendered nothing is hidden, and whenever an item is hidden the toggle
    "Show all (n items)" is there, with [n] the full length. *)
Theorem hidden_items_have_a_toggle {A : Type} (expanded : bool) (value : list A) :
  (exists hidden,
     value = (displayedItems expanded value ++ hidden)%list
     /\ length hidden = (if expanded then 0 else length value - 5))
  /\ length (displayedItems expanded value)
     = (if expanded then length value else Nat.min 5 (length value))
  /\ (forall i, i < 5 ->
        nth_error (displayedItems expanded value) i = nth_error value i)
  /\ displayedItems true value = value
  /\ (expandToggle expanded value = None -> displayedItems expanded value = value)
  /\ (displayedItems expanded value <> value ->
      expandToggle expanded value = Some (ShowAll (length value))).
Proof.
  unfold displayedItems, expandToggle, isExpandable.
  split; [|split; [|split; [|split; [|split]]]].
  - destruct expanded.
    + exists []. now rewrite app_nil_r.
    + exists (skipn 5 value). split; [now rewrite firstn_skipn|apply length_skipn].
  - destruct expanded; [reflexivity|]. apply length_firstn.
  - intros i Hi. destruct expanded; [reflexivity|]. rewrite nth_error_firstn.
    now destruct (Nat.ltb_spec i 5); [|lia].
  - reflexivity.
  - destruct (Nat.ltb_spec 5 (length value)); [discriminate|].
    intros _. destruct expanded; [reflexivity|]. now apply firstn_all2.
  - destruct expanded; [congruence|].
    destruct (Nat.ltb_spec 5 (length value)); [reflexivity|].
    intros Hd. exfalso. apply Hd. now apply firstn_all2.
Qed.

Lemma hidden_items_have_a_toggle_witness :
  expandToggle false [1; 2; 3; 4; 5; 6; 7] = Some (ShowAll 7)
  /\ displayedItems false [1; 2; 3] = [1; 2; 3]
  /\ nth_error (displayedItems false [1; 2; 3; 4; 5; 6; 7]) 4 = Some 5.
Proof.
  split; [|split].
  - apply (hidden_items_have_a_toggle false [1; 2; 3; 4; 5; 6; 7]).
    cbn. discriminate.
  - apply (hidden_items_have_a_toggle false [1; 2; 3]). reflexivity.
  - apply (proj1 (proj2 (proj2
             (hidden_items_have_a_toggle false [1; 2; 3; 4; 5; 6; 7])))).
    repeat constructor.
Defined.

(* ================================================================= *)
(** ** Converting configuration values to strings *)

Lemma string_app_assoc (a b c : string) : (a ++ b) ++ c = a ++ b ++ c.
Proof. induction a as [|x a IH]; cbn; congruence. Qed.

Lemma string_app_length (a b : string) :
  String.length (a ++ b) = String.length a + String.length b.
Proof. induction a as [|x a IH]; cbn; congruence. Qed.

Section Converting.

Variable number : Type.
Variable numberToString : number -> string.
Variable jsonStringify : list (string * JsValue number) -> string.

Lemma join_strings (sep : string) (l : list string) :
  join number numberToString sep (map JStr l) = String.concat sep l.
Proof.
  unfold join. rewrite map_map. f_equal.
  rewrite <- (map_id l) at 2. now apply map_ext.
Qed.

Lemma convert_strings (l : list string) :
  map (convertObjectToString number numberToString jsonStringify) (map JStr l)
  = map JStr l.
Proof. rewrite map_map. now apply map_ext. Qed.

Lemma convert_nonempty_array (items : list (JsValue number)) :
  items <> [] ->
  convertObjectToString number numberToString jsonStringify (JArr items)
  = JStr (join number numberToString ", "
            (map (convertObjectToString number numberToString jsonStringify) items)).
Proof. destruct items; [contradiction|reflexivity]. Qed.

Lemma convert_array_of_strings (l : list string) :
  l <> [] ->
  convertObjectToString number numberToString jsonStringify (JArr (map JStr l))
  = JStr (String.concat ", " l).
Proof.
  intros Hl. rewrite convert_nonempty_array by (destruct l; [contradiction|discriminate]).
  now rewrite convert_strings, join_strings.
Qed.

Lemma concat_cons2 (sep x y : string) (l : list string) :
  String.concat sep (x :: y :: l) = x ++ sep ++ String.concat sep (y :: l).
Proof. reflexivity. Qed.

Lemma concat_app_nonempty (sep : string) (l1 l2 : list string) :
  l1 <> [] -> l2 <> [] ->
  String.concat sep (l1 ++ l2)%list
  = String.concat sep l1 ++ sep ++ String.concat sep l2.
Proof.
  intros H1 H2. induction l1 as [|x l1 IH]; [contradiction|].
  destruct l1 as [|y l1].
  - destruct l2 as [|z l2]; [contradiction|reflexivity].
  - change ((x :: y :: l1) ++ l2)%list with (x :: y :: (l1 ++ l2))%list.
    rewrite !concat_cons2.
    change (y :: (l1 ++ l2))%list with ((y :: l1) ++ l2)%list.
    rewrite IH by discriminate. now rewrite !string_app_assoc.
Qed.

Lemma concat_concat_nonempty (sep : string) (ls : list (list string)) :
  Forall (fun l => l <> []) ls ->
  String.concat sep (map (String.concat sep) ls) = String.concat sep (List.concat ls).
Proof.
  induction 1 as [|l ls Hl Hls IH]; [reflexivity|].
  destruct ls as [|l' ls].
  - cbn. now rewrite app_nil_r.
  - change (map (String.concat sep) (l :: l' :: ls))
      with (String.concat sep l :: String.concat sep l'
              :: map (String.concat sep) ls).
    rewrite concat_cons2.
    change (String.concat sep l' :: map (String.concat sep) ls)
      with (map (String.concat sep) (l' :: ls)).
    rewrite IH.
    change (List.concat (l :: l' :: ls)) with (l ++ List.concat (l' :: ls))%list.
    rewrite concat_app_nonempty; trivial.
    inversion Hls; subst. cbn. destruct l'; [contradiction|discriminate].
Qed.

(** X4: [convertObjectToString] never returns an array, an object or a boolean,
    and converting its result again changes nothing.  The empty array becomes
    [null]; a non-empty array of strings becomes the strings joined by a
    comma and a space, and non-empty arrays of strings nested in an array are
    flattened into one such list. *)
Theorem convertObjectToString_joins_and_flattens :
  (forall v,
     isScalar number (convertObjectToString number numberToString jsonStringify v)
     = true
     /\ convertObjectToString number numberToString jsonStringify
          (convertObjectToString number numberToString jsonStringify v)
        = convertObjectToString number numberToString jsonStringify v)
  /\ convertObjectToString number numberToString jsonStringify (JArr []) = JNull
  /\ (forall l, l <> [] ->
        convertObjectToString number numberToString jsonStringify (JArr (map JStr l))
        = JStr (String.concat ", " l))
  /\ (forall ls, ls <> [] -> Forall (fun l => l <> []) ls ->
        convertObjectToString number numberToString jsonStringify
          (JArr (map (fun l => JArr (map JStr l)) ls))
        = JStr (String.concat ", " (List.concat ls))).
Proof.
  split; [|split; [reflexivity|split]].
  - intros v. destruct v as [| | b | n | s | [|x l] | fields]; now split.
  - exact convert_array_of_strings.
  - intros ls Hn Hls.
    rewrite convert_nonempty_array by (destruct ls; [contradiction|discriminate]).
    assert (E : map (convertObjectToString number numberToString jsonStringify)
                  (map (fun l => JArr (map JStr l)) ls)
                = map JStr (map (String.concat ", ") ls)).
    { rewrite !map_map. apply map_ext_in. intros l Hl.
      apply convert_array_of_strings.
      exact (proj1 (Forall_forall _ _) Hls l Hl). }
    rewrite E, join_strings. now rewrite concat_concat_nonempty.
Qed.

End Converting.

Lemma convertObjectToString_joins_and_flattens_witness :
  convertObjectToString Z showNumber emptyJson
    (JArr (map (fun l => JArr (map JStr l)) [["a"; "b"]; ["c"]]))
  = JStr "a, b, c".
Proof.
  apply (proj2 (proj2 (proj2 (convertObjectToString_joins_and_flattens
                               Z showNumber emptyJson)))
               [["a"; "b"]; ["c"]]).
  - discriminate.
  - repeat constructor; discriminate.
Defined.

(* ================================================================= *)
(** ** The file list of a file connector *)

Section FileList.

Variable number : Type.
Variable numberToString : number -> string.
Variable numberTruthy : number -> bool.
Variable jsonStringify : list (string * JsValue number) -> string.
Variable getNameFromPath : string -> string.

Lemma fileRows_strings (l : list string) :
  fileRows number (map JStr l) = Some (map (fun s => (getFileIcon s, s)) l).
Proof. induction l as [|x l IH]; cbn; [reflexivity|]. now rewrite IH. Qed.

Lemma displayedItems_map {A B : Type} (f : A -> B) (e : bool) (l : list A) :
  displayedItems e (map f l) = map f (displayedItems e l).
Proof. unfold displayedItems. destruct e; [reflexivity|apply firstn_map]. Qed.

Lemma displayedItems_incl {A : Type} (e : bool) (l : list A) (x : A) :
  In x (displayedItems e l) -> In x l.
Proof.
  unfold displayedItems. destruct e; [trivial|].
  rewrite <- (firstn_skipn 5 l) at 2. intros H. apply in_or_app. now left.
Qed.

(** X5: For a file connector with paths, [ConfigDisplay] renders one item, the
    file list, whose rows are the names of the first five (or all) paths,
    each with the icon of its name.  When every path is its own name or ends
    with a separator and its name, the Preview button of every row finds an
    original path among the connector's paths.  A file connector without
    [file_locations] renders nothing. *)
Theorem listed_files_resolve_to_connector_paths
    (locations : list string) (c : ConfigItemState) :
  (forall path, In path locations ->
     getNameFromPath path = path
     \/ pathEndsWithName (getNameFromPath path) path = true) ->
  ConfigDisplay number getNameFromPath (FileSource number None) = None
  /\ exists pr rows,
       ConfigDisplay number getNameFromPath (FileSource number (Some locations))
         = Some [pr]
       /\ isFileItem number pr = true
       /\ originalPaths number pr = locations
       /\ renderValue number numberToString numberTruthy jsonStringify c pr
          = Some (FileRows number rows)
       /\ map snd rows = displayedItems (isExpanded c) (map getNameFromPath locations)
       /\ forall icon name, In (icon, name) rows ->
            icon = getFileIcon name
            /\ exists p, findOriginalPath locations name = Some p /\ In p locations.
Proof.
  intros H. split; [reflexivity|].
  exists (mkConfigItemProps number "file_names"
            (JArr (map (fun p => JStr (getNameFromPath p)) locations)) true locations).
  exists (map (fun s => (getFileIcon s, s))
            (displayedItems (isExpanded c) (map getNameFromPath locations))).
  repeat split.
  - unfold renderValue. cbn [value isFileItem].
    rewrite <- (map_map getNameFromPath JStr), displayedItems_map, fileRows_strings.
    reflexivity.
  - rewrite map_map. cbn [snd]. apply map_id.
  - apply in_map_iff in H0 as (s & E & _). now injection E as <- <-.
  - apply in_map_iff in H0 as (s & E & Hs). injection E as _ <-.
    apply displayedItems_incl, in_map_iff in Hs as (path & <- & Hp).
    destruct (findOriginalPath locations (getNameFromPath path)) as [p|] eqn:F.
    + exists p. split; [reflexivity|]. now apply findOriginalPath_Some in F.
    + exfalso. destruct (proj1 (findOriginalPath_None _ _) F path Hp) as [N1 N2].
      destruct (H path Hp); congruence.
Qed.

End FileList.

Lemma listed_files_resolve_to_connector_paths_witness :
  exists pr rows,
    ConfigDisplay Z lastSegment (FileSource Z (Some ["docs/a.txt"; "b.pdf"])) = Some [pr]
    /\ isFileItem Z pr = true
    /\ originalPaths Z pr = ["docs/a.txt"; "b.pdf"]
    /\ renderValue Z showNumber (fun n => negb (Z.eqb n 0)) emptyJson initialConfigItem pr
       = Some (FileRows Z rows)
    /\ map snd rows = displayedItems false (map lastSegment ["docs/a.txt"; "b.pdf"])
    /\ forall icon name, In (icon, name) rows ->
         icon = getFileIcon name
         /\ exists p, findOriginalPath ["docs/a.txt"; "b.pdf"] name = Some p
                      /\ In p ["docs/a.txt"; "b.pdf"].
Proof.
  apply (listed_files_resolve_to_connector_paths Z showNumber
           (fun n => negb (Z.eqb n 0)) emptyJson lastSegment
           ["docs/a.txt"; "b.pdf"] initialConfigItem).
  intros path [<-|[<-|[]]]; [right|left]; reflexivity.
Defined.

(* ================================================================= *)
(** ** Frequencies *)

Lemma roundDiv_bounds (s d m : Z) :
  (0 < d)%Z ->
  roundDiv s d = m <-> (2 * d * m - d <= 2 * s < 2 * d * m + d)%Z.
Proof.
  intros Hd. unfold roundDiv. split.
  - intros <-. Z.to_euclidean_division_equations. nia.
  - intros H. symmetry. apply (Z.div_unique _ _ m (2 * s + d - 2 * d * m)); lia.
Qed.

(** X6: The count of minutes is the number of seconds divided by 60 and rounded
    to the nearest integer, a half going up, and the unit is singular exactly
    when that count is 1: from 30 up to 89 seconds the text is "1 minute",
    below 30 seconds it is "0 minutes".  Likewise the days of the pruning
    frequency, with 43200 seconds for half a day. *)
Theorem frequencies_are_rounded_to_the_nearest_unit (s : Z) :
  ((30 <= s < 90)%Z -> formatRefreshFrequency (Some s) = "1 minute")
  /\ ((-30 <= s < 30)%Z -> formatRefreshFrequency (Some s) = "0 minutes")
  /\ ((s < 30 \/ 90 <= s)%Z ->
      formatRefreshFrequency (Some s) = showNumber (roundDiv s 60) ++ " minutes"
      /\ roundDiv s 60 <> 1%Z)
  /\ ((43200 <= s < 129600)%Z -> formatPruneFrequency (Some s) = "1 day")
  /\ ((-43200 <= s < 43200)%Z -> formatPruneFrequency (Some s) = "0 days")
  /\ ((s < 43200 \/ 129600 <= s)%Z ->
      formatPruneFrequency (Some s) = showNumber (roundDiv s 86400) ++ " days"
      /\ roundDiv s 86400 <> 1%Z).
Proof.
  unfold formatRefreshFrequency, formatPruneFrequency.
  change (60 * 60 * 24)%Z with 86400%Z. cbv zeta.
  repeat split.
  - intros H. assert (E : roundDiv s 60 = 1%Z) by (apply roundDiv_bounds; lia).
    now rewrite E.
  - intros H. assert (E : roundDiv s 60 = 0%Z) by (apply roundDiv_bounds; lia).
    now rewrite E.
  - destruct (Z.eqb_spec (roundDiv s 60) 1) as [E|E]; [|reflexivity].
    apply roundDiv_bounds in E; lia.
  - intros E. apply roundDiv_bounds in E; lia.
  - intros H. assert (E : roundDiv s 86400 = 1%Z) by (apply roundDiv_bounds; lia).
    now rewrite E.
  - intros H. assert (E : roundDiv s 86400 = 0%Z) by (apply roundDiv_bounds; lia).
    now rewrite E.
  - destruct (Z.eqb_spec (roundDiv s 86400) 1) as [E|E]; [|reflexivity].
    apply roundDiv_bounds in E; lia.
  - intros E. apply roundDiv_bounds in E; lia.
Qed.

Lemma frequencies_are_rounded_to_the_nearest_unit_witness :
  formatRefreshFrequency (Some 89%Z) = "1 minute"
  /\ formatRefreshFrequency (Some 29%Z) = "0 minutes"
  /\ formatPruneFrequency (Some 43200%Z) = "1 day".
Proof.
  split; [|split].
  - apply (frequencies_are_rounded_to_the_nearest_unit 89). lia.
  - apply (frequencies_are_rounded_to_the_nearest_unit 29). lia.
  - apply (frequencies_are_rounded_to_the_nearest_unit 43200). lia.
Defined.

Lemma formatted_is_not_dash (n : Z) (unit rest : string) :
  2 <= String.length unit -> showNumber n ++ unit ++ rest <> "-".
Proof.
  intros H E. apply (f_equal String.length) in E.
  rewrite !string_app_length in E. cbn in E. lia.
Qed.

Lemma formatPruneFrequency_not_dash (s : Z) : formatPruneFrequency (Some s) <> "-".
Proof. unfold formatPruneFrequency. apply formatted_is_not_dash. cbn. lia. Qed.

Lemma formatRefreshFrequency_not_dash (s : Z) : formatRefreshFrequency (Some s) <> "-".
Proof. unfold formatRefreshFrequency. apply formatted_is_not_dash. cbn. lia. Qed.

(** X7: In the advanced display an item is shown for the pruning frequency
    whenever it is not [null], for 0 as well; for the refresh frequency only
    when it is neither [null] nor 0, and for 0 the bare number 0 is rendered
    in its place.  The placeholder "-" that the two formatters return for
    [null] is therefore never the value of these items. *)
Theorem advanced_display_of_frequencies
    (pruneFreq refreshFreq : option Z) (indexingStart : option string) :
  (In (AdvancedItem "Pruning Frequency" (formatPruneFrequency pruneFreq) true)
      (AdvancedConfigDisplay pruneFreq refreshFreq indexingStart)
   <-> pruneFreq <> None)
  /\ (In (AdvancedItem "Refresh Frequency" (formatRefreshFrequency refreshFreq) true)
         (AdvancedConfigDisplay pruneFreq refreshFreq indexingStart)
      <-> refreshFreq <> None /\ refreshFreq <> Some 0%Z)
  /\ (In (BareNumber 0) (AdvancedConfigDisplay pruneFreq refreshFreq indexingStart)
      <-> refreshFreq = Some 0%Z)
  /\ (forall l v e,
        In (AdvancedItem l v e)
           (AdvancedConfigDisplay pruneFreq refreshFreq indexingStart) ->
        l <> "Indexing Start" -> v <> "-").
Proof.
  unfold AdvancedConfigDisplay. repeat split.
  - intros H E. subst. cbn in H.
    destruct refreshFreq as [r|]; [destruct (Z.eqb r 0)|];
      destruct indexingStart; cbn in H; intuition discriminate.
  - intros H. destruct pruneFreq; [now left|contradiction].
  - intros E. subst. cbn in H.
    destruct pruneFreq, indexingStart; cbn in H; intuition discriminate.
  - intros E. subst. cbn in H.
    destruct pruneFreq, indexingStart; cbn in H; intuition discriminate.
  - intros [H1 H2]. destruct refreshFreq as [r|]; [|contradiction].
    destruct (Z.eqb_spec r 0) as [->|]; [contradiction|]. right. now left.
  - intros H. destruct refreshFreq as [r|].
    + destruct (Z.eqb_spec r 0) as [->|]; [reflexivity|].
      destruct pruneFreq, indexingStart; cbn in H; intuition discriminate.
    + destruct pruneFreq, indexingStart; cbn in H; intuition discriminate.
  - intros ->. cbn. tauto.
  - intros l v e H Hl ->. cbn [In] in H.
    destruct H as [H|[H|[H|[]]]].
    + destruct pruneFreq as [p|]; [|discriminate]. injection H as _ H _.
      exact (formatPruneFrequency_not_dash p H).
    + destruct refreshFreq as [r|]; [|discriminate].
      destruct (Z.eqb r 0); [discriminate|]. injection H as _ H _.
      exact (formatRefreshFrequency_not_dash r H).
    + destruct indexingStart; [|discriminate]. injection H as H _ _. congruence.
Qed.

Lemma advanced_display_of_frequencies_witness :
  In (BareNumber 0) (AdvancedConfigDisplay (Some 86400%Z) (Some 0%Z) None)
  /\ In (AdvancedItem "Pruning Frequency" "1 day" true)
        (AdvancedConfigDisplay (Some 86400%Z) (Some 0%Z) None).
Proof.
  destruct (advanced_display_of_frequencies (Some 86400%Z) (Some 0%Z) None)
    as (H1 & _ & H3 & _).
  split; [apply H3; reflexivity|apply H1; discriminate].
Defined.

(* ################################################################# *)
(** * More on the preview modal *)

(* ================================================================= *)
(** ** Letter case of the file name *)

Lemma lowerChar_idem (c : ascii) : Js.lowerChar (Js.lowerChar c) = Js.lowerChar c.
Proof.
  destruct c as [[] [] [] [] [] [] [] []]; reflexivity.
Qed.

Lemma lowerChar_is_dot (c : ascii) :
  Ascii.eqb (Js.lowerChar c) "." = Ascii.eqb c ".".
Proof.
  destruct c as [[] [] [] [] [] [] [] []]; reflexivity.
Qed.

Lemma toLowerCase_idem (s : string) :
  Js.toLowerCase (Js.toLowerCase s) = Js.toLowerCase s.
Proof. induction s as [|c s IH]; cbn; [reflexivity|]. now rewrite lowerChar_idem, IH. Qed.

Lemma split_toLowerCase (s : string) :
  Js.split "." (Js.toLowerCase s) = map Js.toLowerCase (Js.split "." s).
Proof.
  induction s as [|c s IH]; cbn [Js.toLowerCase Js.split]; [reflexivity|].
  rewrite lowerChar_is_dot, IH.
  destruct (Ascii.eqb c "."); [reflexivity|].
  destruct (Js.split "." s); reflexivity.
Qed.

Lemma pop_map (f : string -> string) (l : list string) :
  Js.pop (map f l) = option_map f (Js.pop l).
Proof.
  induction l as [|x l IH]; [reflexivity|].
  destruct l as [|y l]; [reflexivity|]. exact IH.
Qed.

Lemma fileExt_toLowerCase (f : string) : fileExt (Js.toLowerCase f) = fileExt f.
Proof.
  unfold fileExt. rewrite split_toLowerCase, pop_map.
  destruct (Js.pop (Js.split "." f)) as [e|]; [|reflexivity].
  cbn [option_map]. now rewrite toLowerCase_idem.
Qed.

(** X8: The upper or lower case of the ASCII letters of a file name changes
    neither its preview categories nor its icon: a name and its lowercase
    form are classified alike. *)
Theorem classification_ignores_letter_case (f : string) :
  fileExt (Js.toLowerCase f) = fileExt f
  /\ categories (Js.toLowerCase f) = categories f
  /\ getFileIcon (Js.toLowerCase f) = getFileIcon f.
Proof.
  split; [apply fileExt_toLowerCase|split].
  - unfold categories. now rewrite fileExt_toLowerCase.
  - unfold getFileIcon.
    change (Js.orElse (option_map Js.toLowerCase
                         (Js.pop (Js.split "." (Js.toLowerCase f)))) EmptyString)
      with (fileExt (Js.toLowerCase f)).
    now rewrite fileExt_toLowerCase.
Qed.

(* ================================================================= *)
(** ** Renders that start nothing, fetches of a dead instance *)

Lemma optStringEqb_refl (a : option string) : optStringEqb a a = true.
Proof. destruct a; [apply String.eqb_refl|reflexivity]. Qed.

Lemma depsEqb_refl (d : Deps) : depsEqb d d = true.
Proof.
  destruct d as [[[o n] p] i]. cbn.
  now rewrite Bool.eqb_reflx, String.eqb_refl, !optStringEqb_refl.
Qed.

(** X9: A render of the mounted modal whose [isOpen], [fileName], [filePath] and
    [documentId] are those of the previous render, or whose [isOpen] is
    false, starts no fetch and changes no state variable; the new props are
    only displayed.  In particular mock content that changes while the dialog
    stays open is not picked up. *)
Theorem render_without_new_dependencies_fetches_nothing
    (gd : string -> string) (w : World) (p : Props) :
  mounted w = true ->
  lastDeps w = Some (depsOf p) \/ isOpen p = false ->
  st (step gd w (Render p)) = st w
  /\ pool (step gd w (Render p)) = pool w
  /\ log (step gd w (Render p)) = log w
  /\ props (step gd w (Render p)) = p.
Proof.
  intros Hm H. cbn [step]. unfold render. rewrite Hm. cbv zeta.
  unfold depsChanged, runEffect.
  destruct H as [H|H].
  - rewrite H, depsEqb_refl. cbn. auto.
  - rewrite H. destruct (lastDeps w) as [d|]; [destruct (negb _)|]; cbn; auto.
Qed.

Lemma render_without_new_dependencies_fetches_nothing_witness :
  originalContent
    (st (step derivesNothing (scenario [Render (preview "notes.txt")])
              (Render notesMocked)))
  = EmptyString
  /\ log (step derivesNothing (scenario [Render (preview "notes.txt")])
               (Render notesMocked))
     = log (scenario [Render (preview "notes.txt")]).
Proof.
  pose proof (render_without_new_dependencies_fetches_nothing derivesNothing
                (scenario [Render (preview "notes.txt")]) notesMocked
                eq_refl (or_introl eq_refl)) as (H1 & _ & H2 & _).
  split; [|exact H2].
  etransitivity; [exact (f_equal originalContent H1)|vm_compute; reflexivity].
Defined.

Ltac split_pending :=
  repeat match goal with
  | |- context [runPending ?r ?l] => destruct (runPending r l)
  end; reflexivity.

(** X10: A fetch whose modal instance is no longer the mounted one changes no
    state variable when it settles, whatever it returns; the blob of an
    original fetch is still given an object URL. *)
Theorem fetch_of_a_dead_instance_changes_no_state
    (gd : string -> string) (w : World) (id : nat) (e : TaskEntry)
    (r : option Response) :
  lookupTask id w = Some e -> alive (owner e) w = false ->
  st (step gd w (FetchSettled id r)) = st w
  /\ st (step gd w (Resume id)) = st w
  /\ (forall p resp blob,
        task e = OrigAwaitBlob p resp -> blobOf resp = Some blob ->
        log (step gd w (Resume id))
        = CreateObjectURL (blobUrl (nextBlob w)) :: log w).
Proof.
  intros Hl Ha. repeat split.
  - cbn [step]. rewrite Hl. unfold fetchSettled.
    destruct (task e); trivial; destruct r as [resp|]; try destruct (ok resp);
      rewrite ?st_originalCatch; autorewrite with world; rewrite ?st_indexedCatch;
      cbv zeta; rewrite ?Ha; split_pending.
  - cbn [step]. rewrite Hl.
    destruct (task e) as [q|q resp|q blob|q|q resp] eqn:Ht;
      try (unfold resume; rewrite Ht; reflexivity).
    + destruct (blobOf resp) as [blob|] eqn:Hb.
      * rewrite (resume_blob e q resp blob w Ht Hb). cbv zeta.
        destruct (_ || _); autorewrite with world; rewrite ?Ha;
          split_pending.
      * unfold resume. rewrite Ht, Hb, st_originalCatch. cbv zeta. rewrite Ha.
        split_pending.
    + unfold resume. rewrite Ht. autorewrite with world. rewrite Ha.
      split_pending.
    + unfold resume. rewrite Ht.
      destruct (jsonOf resp); autorewrite with world; rewrite ?st_indexedCatch;
        rewrite ?Ha; split_pending.
  - intros p resp blob Ht Hb. cbn [step]. rewrite Hl.
    rewrite (resume_blob e p resp blob w Ht Hb). cbv zeta.
    destruct (_ || _); now autorewrite with world.
Qed.

Lemma fetch_of_a_dead_instance_changes_no_state_witness :
  st (step derivesNothing (scenario [Render (preview "a.pdf"); Unmount])
           (FetchSettled 0 None))
  = st (scenario [Render (preview "a.pdf"); Unmount]).
Proof.
  exact (proj1 (fetch_of_a_dead_instance_changes_no_state derivesNothing
                  (scenario [Render (preview "a.pdf"); Unmount]) 0
                  (mkEntry 0 1 0 (OrigAwaitFetch (preview "a.pdf"))) None
                  eq_refl eq_refl)).
Defined.

(* ================================================================= *)
(** ** The preview opened from the file list *)

Lemma log_finallyIfSettled i r w : log (finallyIfSettled i r w) = log w.
Proof. unfold finallyIfSettled. now destruct (runPending _ _). Qed.

Lemma log_runEffect (gd : string -> string) (p : Props) (w : World) :
  isOpen p = true ->
  log (runEffect gd p w) = (callsOfEffect gd p ++ log w)%list.
Proof.
  intros Ho. unfold runEffect, callsOfEffect. rewrite Ho. cbv zeta.
  rewrite log_finallyIfSettled, log_fetchIndexedContent, log_fetchOriginalContent.
  rewrite !log_setState. cbn [log].
  destruct (Js.truthyOpt (mockIndexedContent p)), (Js.truthy (docIdOf gd p)),
    (Js.truthyOpt (mockOriginalContent p)); reflexivity.
Qed.

(** The world in which the effect runs when the modal is mounted by a
    render. *)
Lemma render_mounts (gd : string -> string) (p : Props) (w : World) :
  mounted w = false ->
  render gd p w
  = runEffect gd p
      (mkWorld true (S (instance w)) p (Some (depsOf p)) initialState (pool w)
               (nextTid w) (nextRun w) (nextBlob w) (log w)).
Proof. intros Hm. unfold render. now rewrite Hm. Qed.

Lemma previewPath_truthy (paths : list string) (name : string) :
  (if Js.truthyOpt (previewPath paths name) then previewPath paths name else None)
  = previewPath paths name.
Proof.
  unfold previewPath. destruct (findOriginalPath paths name) as [p|]; [|reflexivity].
  destruct (Js.truthy p) eqn:E; [|reflexivity]. cbn. now rewrite E.
Qed.

Lemma modalElement_click (paths : list string) (name : string) (c : ConfigItemState) :
  Js.truthy name = true ->
  modalElement (handlePreviewClick paths name c)
  = Some (mkProps name (previewPath paths name) None true None None).
Proof.
  intros Hn. unfold modalElement, handlePreviewClick.
  cbn [previewFile previewFilePath].
  fold (previewPath paths name). now rewrite Hn, previewPath_truthy.
Qed.

Lemma frame_runEffect (gd : string -> string) (p : Props) (w : World) :
  mounted (runEffect gd p w) = mounted w
  /\ instance (runEffect gd p w) = instance w.
Proof.
  unfold runEffect. destruct (isOpen p); [|now split].
  unfold finallyIfSettled, fetchIndexedContent, fetchOriginalContent, indexedCatch.
  cbv zeta.
  destruct (Js.truthyOpt (mockOriginalContent p)),
    (Js.truthyOpt (mockIndexedContent p)), (negb (Js.truthy (docIdOf gd p)));
    match goal with
    | |- context [runPending ?r ?l] => destruct (runPending r l)
    end; split; reflexivity.
Qed.

Lemma spinner_while_original_loads (q : Props) (s : State) :
  originalContentLoading s = true -> renderFileContent q s true = Spinner.
Proof. intros H. unfold renderFileContent. now rewrite H, orb_true_r. Qed.

(** X11: A click on Preview for a listed name mounts the modal with that name,
    the original path found for it, no document id and no mock content.  The
    file endpoint is asked for the path when one was found and for the name
    otherwise; the indexed-content endpoint is asked only when a path was
    found and an identifier is derived from it.  The dialog starts on the
    spinner. *)
Theorem preview_click_requests_path_or_name
    (gd : string -> string) (paths : list string) (name : string) :
  Js.truthy name = true ->
  modalElement (handlePreviewClick paths name initialConfigItem)
    = Some (mkProps name (previewPath paths name) None true None None)
  /\ fileRequests
       (log (reconcile gd (handlePreviewClick paths name initialConfigItem)
                       initialWorld))
     = [match previewPath paths name with Some p => p | None => name end]
  /\ indexedRequests
       (log (reconcile gd (handlePreviewClick paths name initialConfigItem)
                       initialWorld))
     = (match previewPath paths name with
        | Some p => if Js.truthy (gd p) then [gd p] else []
        | None => []
        end)
  /\ originalPanel
       (reconcile gd (handlePreviewClick paths name initialConfigItem) initialWorld)
     = Spinner.
Proof.
  intros Hn.
  pose proof (modalElement_click paths name initialConfigItem Hn) as E.
  split; [exact E|].
  unfold reconcile. rewrite E. cbn [step].
  rewrite render_mounts by reflexivity.
  set (p := mkProps name (previewPath paths name) None true None None).
  set (w1 := mkWorld _ _ _ _ _ _ _ _ _ _).
  assert (Hd : docIdOf gd p
               = match previewPath paths name with
                 | Some fp => gd fp
                 | None => EmptyString
                 end).
  { unfold docIdOf, derivedDocId, p. cbn [documentId filePath Js.orElse].
    unfold previewPath. destruct (findOriginalPath paths name) as [fp|]; [|reflexivity].
    destruct (Js.truthy fp) eqn:T; [now rewrite T|reflexivity]. }
  assert (Hf : Js.orElse (filePath p) (fileName p)
               = match previewPath paths name with Some fp => fp | None => name end).
  { unfold p. cbn [filePath fileName]. unfold previewPath.
    destruct (findOriginalPath paths name) as [fp|]; [|reflexivity].
    destruct (Js.truthy fp) eqn:T; [cbn; now rewrite T|reflexivity]. }
  repeat split.
  - rewrite log_runEffect by reflexivity. unfold callsOfEffect. rewrite Hf.
    cbn [mockIndexedContent mockOriginalContent p Js.truthyOpt].
    now destruct (Js.truthy (docIdOf gd p)).
  - rewrite log_runEffect by reflexivity. unfold callsOfEffect. rewrite Hd.
    cbn [mockIndexedContent mockOriginalContent p Js.truthyOpt].
    destruct (previewPath paths name) as [fp|]; [|reflexivity].
    now destruct (Js.truthy (gd fp)).
  - unfold originalPanel. apply spinner_while_original_loads.
    now destruct (runEffect_state gd p w1 eq_refl eq_refl) as (_ & _ & _ & _ & -> & _).
Qed.

Lemma preview_click_requests_path_or_name_witness :
  fileRequests
    (log (reconcile lastSegment
            (handlePreviewClick ["docs/a.txt"; "b.pdf"] "a.txt" initialConfigItem)
            initialWorld))
  = ["docs/a.txt"].
Proof.
  exact (proj1 (proj2 (preview_click_requests_path_or_name lastSegment
                         ["docs/a.txt"; "b.pdf"] "a.txt" eq_refl))).
Defined.

(** X12: When the modal calls [onClose], the configuration item clears its
    preview and the modal is unmounted.  The next click on Preview mounts a
    new instance: nothing of the previous preview is in its state (no object
    URL, no text, no error), the dialog starts on the spinner, and no fetch
    of an earlier instance can reach it. *)
Theorem closing_in_the_list_discards_the_preview
    (gd : string -> string) (paths : list string) (name : string)
    (c : ConfigItemState) (w : World) :
  Js.truthy name = true -> mounted w = true ->
  let w1 := reconcile gd (closePreview c) (step gd w ClickClose) in
  let w2 := reconcile gd (handlePreviewClick paths name (closePreview c)) w1 in
  mounted w1 = false
  /\ log w1 = OnClose :: log w
  /\ instance w2 = S (instance w)
  /\ fileUrl (st w2) = EmptyString
  /\ originalContent (st w2) = EmptyString
  /\ error (st w2) = None
  /\ originalPanel w2 = Spinner
  /\ (forall e, owner e <= instance w -> alive (owner e) w2 = false).
Proof.
  intros Hn Hm w1 w2.
  assert (E1 : w1 = unmount (emit OnClose w)).
  { subst w1. unfold reconcile. cbn [modalElement closePreview previewFile step].
    rewrite Hm. change (mounted (emit OnClose w)) with (mounted w).
    now rewrite Hm. }
  assert (E2 : w2 = runEffect gd (mkProps name (previewPath paths name) None true None None)
                      (mkWorld true (S (instance w))
                         (mkProps name (previewPath paths name) None true None None)
                         (Some (depsOf (mkProps name (previewPath paths name)
                                                None true None None)))
                         initialState (pool w) (nextTid w) (nextRun w) (nextBlob w)
                         (OnClose :: log w))).
  { subst w2. unfold reconcile. rewrite (modalElement_click _ _ _ Hn). cbn [step].
    rewrite render_mounts by (rewrite E1; reflexivity). now rewrite E1. }
  set (p := mkProps name (previewPath paths name) None true None None) in *.
  set (w0 := mkWorld _ _ _ _ _ _ _ _ _ _) in E2.
  destruct (runEffect_state gd p w0 eq_refl eq_refl) as (He & Hu & Hc & _ & Hl & _).
  destruct (frame_runEffect gd p w0) as [Fm Fi].
  rewrite <- E2 in He, Hu, Hc, Hl, Fm, Fi.
  repeat split.
  - now rewrite E1.
  - now rewrite E1.
  - exact Fi.
  - exact Hu.
  - exact Hc.
  - exact He.
  - unfold originalPanel. now apply spinner_while_original_loads.
  - intros e Ho. unfold alive. rewrite Fm, Fi. cbn [mounted instance w0 andb].
    apply Nat.eqb_neq. lia.
Qed.

Lemma closing_in_the_list_discards_the_preview_witness :
  fileUrl
    (st (reconcile derivesNothing
           (handlePreviewClick [] "b.docx"
              (closePreview (handlePreviewClick [] "a.txt" initialConfigItem)))
           (reconcile derivesNothing
              (closePreview (handlePreviewClick [] "a.txt" initialConfigItem))
              (step derivesNothing
                 (scenario [Render (preview "a.txt");
                            FetchSettled 0 (Some (okResponse "A")); Resume 0; Resume 0])
                 ClickClose))))
  = EmptyString.
Proof.
  pose proof (closing_in_the_list_discards_the_preview derivesNothing [] "b.docx"
                (handlePreviewClick [] "a.txt" initialConfigItem)
                (scenario [Render (preview "a.txt");
                           FetchSettled 0 (Some (okResponse "A")); Resume 0; Resume 0])
                eq_refl eq_refl) as H.
  cbv zeta in H. exact (proj1 (proj2 (proj2 (proj2 H)))).
Defined.

(* ================================================================= *)
(** ** Loading in a session with a single request *)

Lemma In_dropTask id l x : In x (dropTask id l) <-> In x l /\ tid x <> id.
Proof.
  unfold dropTask. rewrite filter_In, negb_true_iff, Nat.eqb_neq. tauto.
Qed.

Lemma NoDup_dropTask id l :
  NoDup (map tid l) -> NoDup (map tid (dropTask id l)).
Proof.
  induction l as [|x l IH]; cbn; [trivial|].
  intros H. inversion H as [|? ? Hx Hl]; subst.
  destruct (negb (Nat.eqb (tid x) id)); [|now apply IH].
  cbn. constructor; [|now apply IH].
  intros Hin. apply Hx. apply in_map_iff in Hin as (y & E & Hy).
  apply In_dropTask in Hy as [Hy _]. apply in_map_iff. now exists y.
Qed.

Lemma tid_not_in_dropTask id l : ~ In id (map tid (dropTask id l)).
Proof.
  intros H. apply in_map_iff in H as (y & E & Hy).
  apply In_dropTask in Hy as [_ Hy]. congruence.
Qed.

Lemma NoDup_tid_inj l x y :
  NoDup (map tid l) -> In x l -> In y l -> tid x = tid y -> x = y.
Proof.
  induction l as [|z l IH]; cbn; [contradiction|].
  intros H Hx Hy E. inversion H as [|? ? Hz Hl]; subst.
  destruct Hx as [->|Hx], Hy as [->|Hy]; trivial.
  - exfalso. apply Hz. rewrite E. now apply in_map.
  - exfalso. apply Hz. rewrite <- E. now apply in_map.
  - now apply IH.
Qed.

Lemma runPending_all r l :
  (forall e, In e l -> run e = r) -> runPending r l = negb (noTask l).
Proof.
  intros H. destruct l as [|x l]; [reflexivity|].
  cbn. now rewrite (H x (or_introl eq_refl)), Nat.eqb_refl.
Qed.

Lemma frame_complete e w :
  mounted (complete e w) = mounted w
  /\ instance (complete e w) = instance w
  /\ lastDeps (complete e w) = lastDeps w.
Proof.
  unfold complete, finallyIfSettled. destruct (runPending _ _); repeat split.
Qed.

Section OneRequest.

Variable r : nat.
Variable d : Deps.

(** The invariant survives a fetch that suspends at its next await: the
    state changes only outside the loading flags. *)
Lemma oneRequest_suspend (w w1 : World) (e : TaskEntry) (t : Task) :
  oneRequest r d w -> In e (pool w) ->
  origTask (mkEntry (tid e) (owner e) (run e) t) = origTask e ->
  mounted w1 = mounted w -> instance w1 = instance w -> lastDeps w1 = lastDeps w ->
  pool w1 = pool w ->
  isLoading (st w1) = isLoading (st w) ->
  originalContentLoading (st w1) = originalContentLoading (st w) ->
  indexedContentLoading (st w1) = indexedContentLoading (st w) ->
  oneRequest r d (suspend e t w1).
Proof.
  intros (Hm & Hd & Ho & Hn & Hl & Hfo & Hfi) He Hk Em Ei Ed Ep El Eo Ex.
  set (e' := mkEntry (tid e) (owner e) (run e) t) in *.
  assert (Hsurv : forall x k, In x (pool w) -> origTask x = k ->
                    exists y, In y (e' :: dropTask (tid e) (pool w)) /\ origTask y = k).
  { intros x k Hx Hxk. destruct (Nat.eq_dec (tid x) (tid e)) as [E|E].
    - exists e'. split; [now left|].
      rewrite Hk, <- (NoDup_tid_inj _ _ _ Hn Hx He E). exact Hxk.
    - exists x. split; [right; now apply In_dropTask|exact Hxk]. }
  unfold oneRequest.
  change (mounted (suspend e t w1)) with (mounted w1).
  change (lastDeps (suspend e t w1)) with (lastDeps w1).
  change (instance (suspend e t w1)) with (instance w1).
  change (st (suspend e t w1)) with (st w1).
  rewrite pool_suspend, Ep, Em, Ei, Ed, El, Eo, Ex. fold e'.
  repeat split; trivial.
  - destruct H as [<-|H]; [cbn; now destruct (Ho e He)|].
    apply In_dropTask in H as [H _]. now apply Ho.
  - destruct H as [<-|H]; [cbn; now destruct (Ho e He)|].
    apply In_dropTask in H as [H _]. now apply Ho.
  - cbn [map]. constructor; [apply tid_not_in_dropTask|now apply NoDup_dropTask].
  - rewrite Hl. destruct (pool w); [contradiction|reflexivity].
  - intros H. destruct (Hfo H) as (x & Hx & Hxk). now apply (Hsurv x true).
  - intros H. destruct (Hfi H) as (x & Hx & Hxk). now apply (Hsurv x false).
Qed.

(** The invariant survives the end of a fetch that has cleared its own
    loading flag. *)
Lemma oneRequest_complete (w w1 : World) (e : TaskEntry) :
  oneRequest r d w -> In e (pool w) ->
  mounted w1 = mounted w -> instance w1 = instance w -> lastDeps w1 = lastDeps w ->
  pool w1 = pool w ->
  isLoading (st w1) = isLoading (st w) ->
  (if origTask e
   then originalContentLoading (st w1) = false
        /\ indexedContentLoading (st w1) = indexedContentLoading (st w)
   else indexedContentLoading (st w1) = false
        /\ originalContentLoading (st w1) = originalContentLoading (st w)) ->
  oneRequest r d (complete e w1).
Proof.
  intros (Hm & Hd & Ho & Hn & Hl & Hfo & Hfi) He Em Ei Ed Ep El Hflags.
  assert (Hrun : runPending (run e) (dropTask (tid e) (pool w))
                 = negb (noTask (dropTask (tid e) (pool w)))).
  { apply runPending_all. intros x Hx. apply In_dropTask in Hx as [Hx _].
    destruct (Ho x Hx) as [_ ->]. now destruct (Ho e He) as [_ ->]. }
  assert (Ha : alive (owner e) w1 = true).
  { unfold alive. rewrite Em, Ei, Hm. destruct (Ho e He) as [-> _].
    now rewrite Nat.eqb_refl. }
  assert (Hsurv : forall x, In x (pool w) -> origTask x = negb (origTask e) ->
                    In x (dropTask (tid e) (pool w))).
  { intros x Hx Hxk. apply In_dropTask. split; [assumption|].
    intros E. rewrite (NoDup_tid_inj _ _ _ Hn Hx He E) in Hxk.
    now destruct (origTask e). }
  unfold oneRequest.
  destruct (frame_complete e w1) as (Fm & Fi & Fd).
  rewrite Fm, Fi, Fd, pool_complete, st_complete, Ep, Em, Ei, Ed, Hrun, Ha.
  repeat split; trivial.
  - apply In_dropTask in H as [H _]. now apply Ho.
  - apply In_dropTask in H as [H _]. now apply Ho.
  - now apply NoDup_dropTask.
  - destruct (dropTask (tid e) (pool w)) eqn:Edrop; cbn [noTask negb]; [reflexivity|].
    rewrite El, Hl. destruct (pool w); [contradiction|reflexivity].
  - intros H.
    assert (H' : originalContentLoading (st w1) = true)
      by (destruct (noTask (dropTask (tid e) (pool w))); exact H).
    destruct (origTask e) eqn:K in Hflags, Hsurv; destruct Hflags as [F1 F2]; [congruence|].
    rewrite F2 in H'. destruct (Hfo H') as (x & Hx & Hxk).
    exists x. split; [|assumption]. apply Hsurv; assumption.
  - intros H.
    assert (H' : indexedContentLoading (st w1) = true)
      by (destruct (noTask (dropTask (tid e) (pool w))); exact H).
    destruct (origTask e) eqn:K in Hflags, Hsurv; destruct Hflags as [F1 F2]; [|congruence].
    rewrite F2 in H'. destruct (Hfi H') as (x & Hx & Hxk).
    exists x. split; [|assumption]. apply Hsurv; assumption.
Qed.

End OneRequest.

Lemma oneRequest_frame r d (w w' : World) :
  oneRequest r d w ->
  mounted w' = mounted w -> instance w' = instance w -> lastDeps w' = lastDeps w ->
  st w' = st w -> pool w' = pool w ->
  oneRequest r d w'.
Proof.
  unfold oneRequest. intros H -> -> -> -> ->. exact H.
Qed.

Lemma oneRequest_alive r d w e :
  oneRequest r d w -> In e (pool w) -> alive (owner e) w = true.
Proof.
  intros (Hm & _ & Ho & _) He. unfold alive.
  destruct (Ho e He) as [-> _]. now rewrite Hm, Nat.eqb_refl.
Qed.

Section OneRequestSteps.

Variable gd : string -> string.
Variable r : nat.
Variable d : Deps.

Lemma oneRequest_originalCatch w e :
  oneRequest r d w -> In e (pool w) -> origTask e = true ->
  oneRequest r d (originalCatch e w).
Proof.
  intros H He Hk. pose proof (oneRequest_alive _ _ _ _ H He) as Ha.
  unfold originalCatch. cbv zeta.
  apply (oneRequest_complete r d w); trivial; autorewrite with world;
    rewrite ?Ha; trivial.
  rewrite Hk. now split.
Qed.

Lemma oneRequest_indexedCatch w e :
  oneRequest r d w -> In e (pool w) -> origTask e = false ->
  oneRequest r d (complete e (indexedCatch (owner e) w)).
Proof.
  intros H He Hk. pose proof (oneRequest_alive _ _ _ _ H He) as Ha.
  apply (oneRequest_complete r d w); trivial; autorewrite with world;
    rewrite ?Ha; trivial.
  rewrite Hk. now split.
Qed.

Lemma oneRequest_fetchSettled w e res :
  oneRequest r d w -> In e (pool w) -> oneRequest r d (fetchSettled e res w).
Proof.
  intros H He. unfold fetchSettled.
  destruct (task e) as [q|q resp|q blob|q|q resp] eqn:Ht; trivial.
  - assert (Hk : origTask e = true) by (unfold origTask; now rewrite Ht).
    destruct res as [resp|]; [destruct (ok resp)|];
      try now apply oneRequest_originalCatch.
    now apply (oneRequest_suspend r d w).
  - assert (Hk : origTask e = false) by (unfold origTask; now rewrite Ht).
    destruct res as [resp|]; [destruct (ok resp)|];
      try now apply oneRequest_indexedCatch.
    now apply (oneRequest_suspend r d w).
Qed.

Lemma oneRequest_resume w e :
  oneRequest r d w -> In e (pool w) -> oneRequest r d (resume e w).
Proof.
  intros H He. pose proof (oneRequest_alive _ _ _ _ H He) as Ha.
  destruct (task e) as [q|q resp|q blob|q|q resp] eqn:Ht;
    try (unfold resume; rewrite Ht; exact H).
  - assert (Hk : origTask e = true) by (unfold origTask; now rewrite Ht).
    destruct (blobOf resp) as [blob|] eqn:Hb.
    + rewrite (resume_blob e q resp blob w Ht Hb). cbv zeta.
      destruct (_ || _).
      * apply (oneRequest_suspend r d w); trivial; autorewrite with world;
          rewrite ?Ha; trivial.
        now rewrite Hk.
      * apply (oneRequest_complete r d w); trivial; autorewrite with world;
          rewrite ?Ha; trivial.
        rewrite Hk. now split.
    + unfold resume. rewrite Ht, Hb. now apply oneRequest_originalCatch.
  - assert (Hk : origTask e = true) by (unfold origTask; now rewrite Ht).
    unfold resume. rewrite Ht. cbv zeta.
    apply (oneRequest_complete r d w); trivial; autorewrite with world;
      rewrite ?Ha; trivial.
    rewrite Hk. now split.
  - assert (Hk : origTask e = false) by (unfold origTask; now rewrite Ht).
    unfold resume. rewrite Ht.
    destruct (jsonOf resp); [|now apply oneRequest_indexedCatch].
    cbv zeta.
    apply (oneRequest_complete r d w); trivial; autorewrite with world;
      rewrite ?Ha; trivial.
    rewrite Hk. now split.
Qed.

Lemma oneRequest_step w ev :
  oneRequest r d w -> sameRequest d ev -> oneRequest r d (step gd w ev).
Proof.
  intros H Hev. pose proof H as (Hm & Hd & _).
  destruct ev as [q| | | open | |id res|id]; cbn [step sameRequest] in *.
  - unfold render. rewrite Hm. cbv zeta. unfold depsChanged. cbv iota.
    rewrite Hd, Hev, depsEqb_refl. cbn [negb].
    apply (oneRequest_frame r d w); trivial. cbn [lastDeps]. congruence.
  - contradiction.
  - rewrite Hm. now apply (oneRequest_frame r d w).
  - rewrite Hm. destruct open; cbn [negb andb]; trivial.
  - rewrite Hm. unfold handleDownload. destruct (Js.truthy _); trivial.
  - destruct (lookupTask id w) as [e|] eqn:El; trivial.
    apply lookupTask_In in El as [He _]. now apply oneRequest_fetchSettled.
  - destruct (lookupTask id w) as [e|] eqn:El; trivial.
    apply lookupTask_In in El as [He _]. now apply oneRequest_resume.
Qed.

Lemma oneRequest_runEvents evs w :
  oneRequest r d w -> Forall (sameRequest d) evs ->
  oneRequest r d (runEvents gd w evs).
Proof.
  revert w. induction evs as [|ev evs IH]; intros w H Hevs; [exact H|].
  inversion Hevs as [|? ? Hev Hrest]; subst. cbn.
  apply IH; [|assumption]. now apply oneRequest_step.
Qed.

End OneRequestSteps.

(** The world in which the effect runs when a render fires it. *)
Lemma render_fires (gd : string -> string) (p : Props) (w : World) :
  effectFires p w = true ->
  render gd p w
  = runEffect gd p
      (mkWorld true (if mounted w then instance w else S (instance w)) p
               (Some (depsOf p)) (if mounted w then st w else initialState)
               (pool w) (nextTid w) (nextRun w) (nextBlob w) (log w)).
Proof.
  unfold effectFires, render. destruct (mounted w) eqn:Hm; cbn [negb orb].
  - intros ->. now rewrite Hm.
  - reflexivity.
Qed.

Lemma oneRequest_initial (gd : string -> string) (p : Props) (w0 : World) :
  isOpen p = true -> effectFires p w0 = true -> pool w0 = [] ->
  oneRequest (nextRun w0) (depsOf p) (step gd w0 (Render p)).
Proof.
  intros Ho Hf Hp. cbn [step]. rewrite render_fires by assumption.
  set (w1 := mkWorld _ _ _ _ _ _ _ _ _ _).
  destruct (frame_runEffect gd p w1) as [Fm Fi].
  pose proof (lastDeps_runEffect gd p w1) as Fd.
  pose proof (pool_runEffect gd p w1 Ho) as Fp.
  pose proof (isLoading_runEffect gd p w1 Ho eq_refl) as Fl.
  destruct (runEffect_state gd p w1 Ho eq_refl) as (_ & _ & _ & _ & Fo & Fx & _).
  change (pool w1) with (pool w0) in Fp. rewrite Hp in Fp.
  change (nextRun w1) with (nextRun w0) in *.
  unfold oneRequest. rewrite Fm, Fi, Fd, Fl, Fo, Fx, Fp.
  generalize (instance w1) (nextTid w1) (nextRun w0). intros i t r.
  destruct (Js.truthyOpt (mockOriginalContent p)),
    (Js.truthyOpt (mockIndexedContent p)), (Js.truthy (docIdOf gd p));
    cbn [negb andb app runPending existsb run map tid noTask orb In];
    rewrite ?Nat.eqb_refl; cbn [orb negb].
  all: repeat split; trivial; try discriminate.
  all: try (repeat constructor; cbn; intuition lia).
  all: try match goal with
           | H : _ \/ _ |- _ => intuition (subst; reflexivity)
           end.
  all: intros _;
    first [ eexists; split; [left; reflexivity|reflexivity]
          | eexists; split; [right; left; reflexivity|reflexivity] ].
Qed.

Lemma no_spinner_once_loaded (q : Props) (s : State) (o : bool) :
  isLoading s = false ->
  (if o then originalContentLoading s else indexedContentLoading s) = false ->
  renderFileContent q s o <> Spinner.
Proof.
  intros H1 H2. unfold renderFileContent. rewrite H1, H2. cbn [orb].
  repeat match goal with
  | |- (if ?c then _ else _) <> _ => destruct c
  end; discriminate.
Qed.

Lemma spinner_while_loading (q : Props) (s : State) (o : bool) :
  isLoading s = true -> renderFileContent q s o = Spinner.
Proof. intros H. unfold renderFileContent. now rewrite H. Qed.

(** X13: From a render that runs the effect while no fetch is pending (the first
    render of the modal, or one with new dependencies) until its dependencies
    change or it is unmounted, whatever the fetches return and in whatever order, and
    whatever is clicked: both panels show the spinner as long as a fetch
    function of the request has not returned, and once both have returned
    the three loading flags are off and no panel shows the spinner. *)
Theorem spinner_exactly_while_a_fetch_is_pending
    (gd : string -> string) (w0 : World) (p : Props) (evs : list Event) :
  isOpen p = true -> effectFires p w0 = true -> pool w0 = [] ->
  Forall (sameRequest (depsOf p)) evs ->
  let w := runEvents gd w0 (Render p :: evs) in
  (pool w <> [] -> originalPanel w = Spinner /\ indexedPanel w = Spinner)
  /\ (pool w = [] ->
      isLoading (st w) = false
      /\ originalContentLoading (st w) = false
      /\ indexedContentLoading (st w) = false
      /\ originalPanel w <> Spinner /\ indexedPanel w <> Spinner).
Proof.
  intros Ho Hm Hp Hevs w.
  assert (H : oneRequest (nextRun w0) (depsOf p) w).
  { subst w. cbn [runEvents fold_left]. apply oneRequest_runEvents; [|assumption].
    now apply oneRequest_initial. }
  destruct H as (_ & _ & _ & _ & Hl & Hfo & Hfi). split.
  - intros Hne.
    assert (L : isLoading (st w) = true)
      by (rewrite Hl; destruct (pool w); [contradiction|reflexivity]).
    split; now apply spinner_while_loading.
  - intros He. rewrite He in Hl, Hfo, Hfi. cbn in Hl.
    assert (Lo : originalContentLoading (st w) = false).
    { destruct (originalContentLoading (st w)); [|reflexivity].
      destruct (Hfo eq_refl) as (e & [] & _). }
    assert (Li : indexedContentLoading (st w) = false).
    { destruct (indexedContentLoading (st w)); [|reflexivity].
      destruct (Hfi eq_refl) as (e & [] & _). }
    repeat split; trivial; now apply no_spinner_once_loaded.
Qed.

Lemma spinner_exactly_while_a_fetch_is_pending_witness :
  originalPanel
    (runEvents derivesNothing initialWorld
       [Render (preview "a.txt"); FetchSettled 0 (Some (okResponse "A")); Resume 0])
  = Spinner.
Proof.
  refine (proj1 (proj1 (spinner_exactly_while_a_fetch_is_pending derivesNothing
                   initialWorld (preview "a.txt")
                   [FetchSettled 0 (Some (okResponse "A")); Resume 0]
                   eq_refl eq_refl eq_refl _) _)).
  - repeat constructor.
  - vm_compute. discriminate.
Defined.

(* ================================================================= *)
(** ** A successful original fetch *)

Lemma alive_suspend j e t w : alive j (suspend e t w) = alive j w.
Proof. reflexivity. Qed.

Lemma props_suspend e t w : props (suspend e t w) = props w.
Proof. reflexivity. Qed.

Lemma props_complete e w : props (complete e w) = props w.
Proof. unfold complete, finallyIfSettled. now destruct (runPending _ _). Qed.

Lemma props_createObjectURL w : props (snd (createObjectURL w)) = props w.
Proof. reflexivity. Qed.

#[local] Hint Rewrite alive_suspend props_suspend props_complete
  props_createObjectURL : world.

Lemma lookupTask_complete e w : lookupTask (tid e) (complete e w) = None.
Proof. unfold lookupTask. rewrite pool_complete. apply find_dropTask. Qed.

Lemma truthy_blobUrl n : Js.truthy (blobUrl n) = true.
Proof. reflexivity. Qed.

(** The extensions decoded as text are not document extensions. *)
Lemma document_is_not_decoded (f : string) :
  isDocument f = true ->
  isTextFile f || isCode f || isSpreadsheet f = false.
Proof.
  unfold isDocument, isTextFile, isCode, isSpreadsheet.
  pose proof (ext_flag_cases (fileExt f)) as H. cbn [In] in H.
  repeat destruct H as [H|H]; try contradiction.
  all: injection H as H1 H2 H3 H4 H5 H6.
  all: rewrite <- ?H1, <- ?H2, <- ?H3, <- ?H4, <- ?H5, <- ?H6.
  all: intros; try discriminate; reflexivity.
Qed.

Section OriginalSuccess.

Variable gd : string -> string.

(** The world after [fetch] resolved with an ok response whose blob can be
    read, and the awaited bodies settled. *)
Lemma original_success_world w id e p resp blob :
  lookupTask id w = Some e -> task e = OrigAwaitFetch p ->
  ok resp = true -> blobOf resp = Some blob ->
  runEvents gd w [FetchSettled id (Some resp); Resume id; Resume id]
  = let e1 := mkEntry (tid e) (owner e) (run e) (OrigAwaitBlob p resp) in
    let w2 := setState (owner e) (setFileUrl (blobUrl (nextBlob w)))
                (snd (createObjectURL (suspend e (OrigAwaitBlob p resp) w))) in
    if isTextFile (fileName p) || isCode (fileName p) || isSpreadsheet (fileName p)
    then complete (mkEntry (tid e) (owner e) (run e) (OrigAwaitText p blob))
           (setState (owner e) (setOriginalContentLoading false)
              (setState (owner e) (setOriginalContent blob)
                 (suspend e1 (OrigAwaitText p blob) w2)))
    else complete e1 (setState (owner e) (setOriginalContentLoading false) w2).
Proof.
  intros Hl Ht Hok Hb.
  destruct (lookupTask_In _ _ _ Hl) as [_ <-].
  set (e1 := mkEntry (tid e) (owner e) (run e) (OrigAwaitBlob p resp)).
  change (runEvents gd w [FetchSettled (tid e) (Some resp); Resume (tid e); Resume (tid e)])
    with (step gd (step gd (step gd w (FetchSettled (tid e) (Some resp)))
                        (Resume (tid e))) (Resume (tid e))).
  assert (E1 : step gd w (FetchSettled (tid e) (Some resp))
               = suspend e (OrigAwaitBlob p resp) w).
  { cbn [step]. rewrite Hl. unfold fetchSettled. now rewrite Ht, Hok. }
  assert (E2 : forall v, lookupTask (tid e) v = Some e1 ->
                 step gd v (Resume (tid e)) = resume e1 v).
  { intros v Hv. cbn [step]. now rewrite Hv. }
  rewrite E1, (E2 _ (lookupTask_suspend e _ w)).
  rewrite (resume_blob e1 p resp blob _ eq_refl Hb).
  cbv zeta. cbn [owner e1].
  destruct (_ || _).
  - cbn [step]. change (tid e) with (tid e1) at 1.
    rewrite lookupTask_suspend. reflexivity.
  - cbn [step]. change (tid e) with (tid e1) at 1.
    now rewrite lookupTask_complete.
Qed.

Lemma original_success_state w e p resp blob :
  alive (owner e) w = true ->
  let e1 := mkEntry (tid e) (owner e) (run e) (OrigAwaitBlob p resp) in
  let w2 := setState (owner e) (setFileUrl (blobUrl (nextBlob w)))
              (snd (createObjectURL (suspend e (OrigAwaitBlob p resp) w))) in
  let s := setOriginalContentLoading false
             ((if isTextFile (fileName p) || isCode (fileName p)
                  || isSpreadsheet (fileName p)
               then setOriginalContent blob else fun s => s)
                (setFileUrl (blobUrl (nextBlob w)) (st w))) in
  st (if isTextFile (fileName p) || isCode (fileName p) || isSpreadsheet (fileName p)
      then complete (mkEntry (tid e) (owner e) (run e) (OrigAwaitText p blob))
             (setState (owner e) (setOriginalContentLoading false)
                (setState (owner e) (setOriginalContent blob)
                   (suspend e1 (OrigAwaitText p blob) w2)))
      else complete e1 (setState (owner e) (setOriginalContentLoading false) w2))
  = if runPending (run e) (dropTask (tid e) (pool w)) then s
    else setIsLoading false s.
Proof.
  intros Ha. cbv zeta.
  destruct (_ || _); autorewrite with world; cbn [tid owner run];
    rewrite ?Ha, ?dropTask_suspended, ?dropTask_idem; reflexivity.
Qed.

(** X14: An original fetch of the mounted instance that returns a readable body:
    the state gets a fresh object URL, and the decoded text only for a text,
    code or spreadsheet name; the error is left as it was; the Download
    Original button appears.  When no other fetch of the request is pending
    and the state held no error and no text, the panel shows the embedded
    viewer for a pdf, the image for an image, the download placeholder for a
    document, and a text block otherwise, which for a name of no recognised
    category reads that no original content is available. *)
Theorem fetched_original_is_shown_by_extension w id e p resp blob :
  lookupTask id w = Some e -> task e = OrigAwaitFetch p ->
  alive (owner e) w = true -> ok resp = true -> blobOf resp = Some blob ->
  let w' := runEvents gd w [FetchSettled id (Some resp); Resume id; Resume id] in
  fileUrl (st w') = blobUrl (nextBlob w)
  /\ originalContent (st w')
     = (if isTextFile (fileName p) || isCode (fileName p) || isSpreadsheet (fileName p)
        then blob else originalContent (st w))
  /\ originalContentLoading (st w') = false
  /\ error (st w') = error (st w)
  /\ downloadOriginalButton (shown w') = true
  /\ lookupTask id w' = None
  /\ (runPending (run e) (dropTask id (pool w)) = false ->
      error (st w) = None -> originalContent (st w) = EmptyString ->
      fileName (props w) = fileName p ->
      originalPanel w'
      = if isPdf (fileName p) then PdfViewer (blobUrl (nextBlob w) ++ "#toolbar=0")
        else if isImage (fileName p) then ImageView (blobUrl (nextBlob w)) (fileName p)
        else if isDocument (fileName p) then DownloadPlaceholder
        else TextBlock
               (if isTextFile (fileName p) || isCode (fileName p)
                   || isSpreadsheet (fileName p)
                then Js.orElse (Some blob) NO_ORIGINAL else NO_ORIGINAL)
               (isCode (fileName p))).
Proof.
  intros Hl Ht Ha Hok Hb w'.
  pose proof (original_success_world w id e p resp blob Hl Ht Hok Hb) as Ew.
  fold w' in Ew. cbv zeta in Ew.
  pose proof (original_success_state w e p resp blob Ha) as Es.
  cbv zeta in Es. rewrite <- Ew in Es.
  destruct (lookupTask_In _ _ _ Hl) as [_ Hid]. rewrite Hid in Es.
  assert (Ep : props w' = props w).
  { rewrite Ew. destruct (_ || _); now autorewrite with world. }
  assert (El : lookupTask id w' = None).
  { rewrite Ew, <- Hid. destruct (_ || _).
    - exact (lookupTask_complete
               (mkEntry (tid e) (owner e) (run e) (OrigAwaitText p blob)) _).
    - exact (lookupTask_complete
               (mkEntry (tid e) (owner e) (run e) (OrigAwaitBlob p resp)) _). }
  assert (Eu : fileUrl (st w') = blobUrl (nextBlob w)).
  { rewrite Es. now destruct (runPending _ _), (_ || _). }
  assert (Ec : originalContent (st w')
               = (if isTextFile (fileName p) || isCode (fileName p)
                     || isSpreadsheet (fileName p)
                  then blob else originalContent (st w))).
  { rewrite Es. now destruct (runPending _ _), (_ || _). }
  assert (Eo : originalContentLoading (st w') = false).
  { rewrite Es. now destruct (runPending _ _), (_ || _). }
  assert (Ee : error (st w') = error (st w)).
  { rewrite Es. now destruct (runPending _ _), (_ || _). }
  repeat split; trivial.
  - unfold shown, FilePreviewModal. cbn [downloadOriginalButton]. now rewrite Eu.
  - intros Hr He Hc Hf.
    assert (Ei : isLoading (st w') = false) by (rewrite Es, Hr; reflexivity).
    unfold originalPanel, renderFileContent.
    rewrite Ei, Eo, Ee, He, Eu, Ec, Ep, Hf, Hc, truthy_blobUrl.
    cbn [orb Js.truthyOpt andb].
    destruct (isPdf (fileName p)); [reflexivity|].
    destruct (isImage (fileName p)); [reflexivity|].
    destruct (isDocument (fileName p)) eqn:Hd.
    + now rewrite (document_is_not_decoded _ Hd).
    + cbn [andb]. destruct (_ || _); reflexivity.
Qed.

End OriginalSuccess.

Lemma fetched_original_is_shown_by_extension_witness :
  originalPanel
    (runEvents derivesNothing (scenario [Render (preview "notes.bin")])
       [FetchSettled 0 (Some (okResponse "bytes")); Resume 0; Resume 0])
  = TextBlock NO_ORIGINAL false.
Proof.
  pose proof (fetched_original_is_shown_by_extension derivesNothing
                (scenario [Render (preview "notes.bin")]) 0
                (mkEntry 0 1 0 (OrigAwaitFetch (preview "notes.bin")))
                (preview "notes.bin") (okResponse "bytes") "bytes"
                eq_refl eq_refl eq_refl eq_refl eq_refl) as H.
  cbv zeta in H.
  exact (proj2 (proj2 (proj2 (proj2 (proj2 (proj2 H))))) eq_refl eq_refl eq_refl eq_refl).
Defined.

(* ================================================================= *)
(** ** Well-formed states *)

Create HintDb wf.

Lemma createdURLs_cons e l : incl (createdURLs l) (createdURLs (e :: l)).
Proof. destruct e; cbn; try apply incl_refl. apply incl_tl, incl_refl. Qed.

Lemma wellFormed_same w w' :
  st w' = st w -> log w' = log w -> wellFormed w -> wellFormed w'.
Proof. unfold wellFormed. intros -> ->. trivial. Qed.

Lemma wellFormed_setState w i f :
  (forall s, fileUrl (f s) = fileUrl s) ->
  (forall s, error (f s) = error s \/ error (f s) = None
             \/ error (f s) = Some ORIGINAL_FAILED) ->
  wellFormed w -> wellFormed (setState i f w).
Proof.
  intros Hu He (U & E & S). unfold wellFormed.
  rewrite st_setState, log_setState.
  destruct (alive i w); [|now repeat split].
  rewrite Hu. repeat split; trivial.
  destruct (He (st w)) as [-> | [-> | ->]]; auto.
Qed.

Lemma wellFormed_emit w e :
  match e with
  | SaveAs u _ => In u (createdURLs (log w))
  | _ => True
  end ->
  wellFormed w -> wellFormed (emit e w).
Proof.
  intros He (U & E & S). unfold wellFormed. rewrite st_emit, log_emit.
  repeat split; trivial.
  - destruct U as [U|U]; [now left|right]. now apply (createdURLs_cons e).
  - intros u n [Heq|H]; apply (createdURLs_cons e);
      [now rewrite Heq in He|now apply (S u n)].
Qed.

Lemma wellFormed_spawn w i r t : wellFormed w -> wellFormed (spawn i r t w).
Proof. now apply wellFormed_same. Qed.

Lemma wellFormed_withPool w f : wellFormed w -> wellFormed (withPool f w).
Proof. now apply wellFormed_same. Qed.

Lemma wellFormed_suspend w e t : wellFormed w -> wellFormed (suspend e t w).
Proof. now apply wellFormed_same. Qed.

#[local] Hint Resolve wellFormed_spawn wellFormed_withPool
  wellFormed_suspend : wf.
#[local] Hint Extern 2 (wellFormed (setState _ _ _)) =>
  apply wellFormed_setState; [reflexivity|intros; cbn; auto|] : wf.
#[local] Hint Extern 2 (wellFormed (emit _ _)) =>
  apply wellFormed_emit; [exact I|] : wf.

Lemma wellFormed_finallyIfSettled w i r :
  wellFormed w -> wellFormed (finallyIfSettled i r w).
Proof. unfold finallyIfSettled. destruct (runPending _ _); auto with wf. Qed.

#[local] Hint Resolve wellFormed_finallyIfSettled : wf.

Lemma wellFormed_complete w e : wellFormed w -> wellFormed (complete e w).
Proof. unfold complete. auto with wf. Qed.

#[local] Hint Resolve wellFormed_complete : wf.

Lemma wellFormed_originalCatch w e : wellFormed w -> wellFormed (originalCatch e w).
Proof. unfold originalCatch. cbv zeta. auto 7 with wf. Qed.

Lemma wellFormed_indexedCatch w i : wellFormed w -> wellFormed (indexedCatch i w).
Proof. unfold indexedCatch. cbv zeta. auto 7 with wf. Qed.

#[local] Hint Resolve wellFormed_originalCatch wellFormed_indexedCatch : wf.

(** [setFileUrl] is called with the URL just created. *)
Lemma wellFormed_createObjectURL w i :
  wellFormed w ->
  wellFormed (setState i (setFileUrl (fst (createObjectURL w)))
                       (snd (createObjectURL w))).
Proof.
  intros (U & E & S). unfold wellFormed.
  rewrite st_setState, log_setState, log_createObjectURL, st_createObjectURL,
    fst_createObjectURL, alive_createObjectURL.
  destruct (alive i w); scbn; cbn [createdURLs]; repeat split; trivial.
  - right. now left.
  - intros u n [H|H]; [discriminate|]. right. now apply (S u n).
  - destruct U as [U|U]; [now left|right; now right].
  - intros u n [H|H]; [discriminate|]. right. now apply (S u n).
Qed.

#[local] Hint Resolve wellFormed_createObjectURL : wf.

Lemma truthy_not_empty (s : string) : Js.truthy s = true -> s <> EmptyString.
Proof. intros H ->. discriminate H. Qed.

Lemma wellFormed_handleDownload w : wellFormed w -> wellFormed (handleDownload w).
Proof.
  intros H. unfold handleDownload.
  destruct (Js.truthy (fileUrl (st w))) eqn:T; [|assumption].
  apply wellFormed_emit; [|assumption].
  destruct H as ([U|U] & _); [|assumption].
  now apply truthy_not_empty in T.
Qed.

Lemma wellFormed_initialWorld : wellFormed initialWorld.
Proof. repeat split; auto. Qed.

Section WellFormed.

Variable gd : string -> string.

Lemma wellFormed_fetchOriginalContent w p i r :
  wellFormed w -> wellFormed (fetchOriginalContent p i r w).
Proof.
  unfold fetchOriginalContent. destruct (Js.truthyOpt _); cbv zeta; auto 7 with wf.
Qed.

Lemma wellFormed_fetchIndexedContent w p i r :
  wellFormed w -> wellFormed (fetchIndexedContent gd p i r w).
Proof.
  unfold fetchIndexedContent.
  destruct (Js.truthyOpt _); cbv zeta; [auto with wf|].
  destruct (negb _); auto 7 with wf.
Qed.

Lemma wellFormed_runEffect w p :
  wellFormed w -> wellFormed (runEffect gd p w).
Proof.
  intros H. unfold runEffect. destruct (isOpen p); [|assumption]. cbv zeta.
  apply wellFormed_finallyIfSettled, wellFormed_fetchIndexedContent,
    wellFormed_fetchOriginalContent.
  do 2 (apply wellFormed_setState; [reflexivity|intros; cbn; auto|]).
  revert H. now apply wellFormed_same.
Qed.

Lemma wellFormed_render w p : wellFormed w -> wellFormed (render gd p w).
Proof.
  intros H. unfold render.
  assert (H1 : wellFormed (if mounted w then w else mount w)).
  { destruct (mounted w); [assumption|].
    destruct H as (U & E & S). repeat split; auto. }
  cbv zeta. destruct (depsChanged _ _).
  - apply wellFormed_runEffect. revert H1. now apply wellFormed_same.
  - revert H1. now apply wellFormed_same.
Qed.

Lemma wellFormed_fetchSettled w e r :
  wellFormed w -> wellFormed (fetchSettled e r w).
Proof.
  unfold fetchSettled. intros H.
  destruct (task e); trivial;
    destruct r as [resp|]; try destruct (ok resp); auto with wf.
Qed.

Lemma wellFormed_resume w e : wellFormed w -> wellFormed (resume e w).
Proof.
  intros H. destruct (task e) as [q|q resp|q blob|q|q resp] eqn:Ht;
    try (unfold resume; rewrite Ht; assumption).
  - destruct (blobOf resp) as [blob|] eqn:Hb.
    + rewrite (resume_blob e q resp blob w Ht Hb). cbv zeta.
      destruct (_ || _); auto 6 with wf.
    + unfold resume. rewrite Ht, Hb. auto with wf.
  - unfold resume. rewrite Ht. cbv zeta. auto 6 with wf.
  - unfold resume. rewrite Ht. destruct (jsonOf resp); cbv zeta; auto 6 with wf.
Qed.

Lemma wellFormed_step w ev : wellFormed w -> wellFormed (step gd w ev).
Proof.
  intros H. destruct ev; cbn [step].
  - now apply wellFormed_render.
  - revert H. now apply wellFormed_same.
  - destruct (mounted w); auto with wf.
  - destruct (_ && _); auto with wf.
  - destruct (mounted w); trivial. now apply wellFormed_handleDownload.
  - destruct (lookupTask id w); trivial. now apply wellFormed_fetchSettled.
  - destruct (lookupTask id w); trivial. now apply wellFormed_resume.
Qed.

Lemma wellFormed_runEvents evs : forall w,
  wellFormed w -> wellFormed (runEvents gd w evs).
Proof.
  induction evs as [|ev evs IH]; intros w H; cbn; [assumption|].
  apply IH. now apply wellFormed_step.
Qed.

End WellFormed.

(** X15: Whatever happens in a session, a download saves an object URL that the
    component created and has not revoked. *)
Theorem downloads_save_created_object_urls
    (gd : string -> string) (evs : list Event) (u n : string) :
  In (SaveAs u n) (log (runEvents gd initialWorld evs)) ->
  In u (createdURLs (log (runEvents gd initialWorld evs)))
  /\ timesRevoked u (log (runEvents gd initialWorld evs)) = 0.
Proof.
  intros H.
  destruct (wellFormed_runEvents gd evs initialWorld wellFormed_initialWorld)
    as (_ & _ & S).
  split; [now apply (S u n)|].
  destruct (keepsURLs_runEvents gd initialWorld evs initialWorld
              (keepsURLs_refl initialWorld)) as [R _].
  unfold timesRevoked. now rewrite R.
Qed.

Lemma downloads_save_created_object_urls_witness :
  In "blob:0"
     (createdURLs
        (log (runEvents derivesNothing initialWorld
                (imageOpened ++ [ClickDownload])%list))).
Proof.
  apply (downloads_save_created_object_urls derivesNothing
           (imageOpened ++ [ClickDownload])%list "blob:0" "photo.png").
  vm_compute. left. reflexivity.
Defined.

(** X16: The only error message a panel can ever show is the one of the original
    fetch: a failure of the indexed fetch is never shown as an error, and the
    status text of a response never reaches the user. *)
Theorem the_only_error_shown_is_the_original_one
    (gd : string -> string) (evs : list Event) (o : bool) (m : string) :
  renderFileContent (props (runEvents gd initialWorld evs))
                    (st (runEvents gd initialWorld evs)) o = ErrorPanel m ->
  m = ORIGINAL_FAILED.
Proof.
  destruct (wellFormed_runEvents gd evs initialWorld wellFormed_initialWorld)
    as (_ & E & _).
  unfold renderFileContent.
  destruct (isLoading _ || _); [discriminate|].
  destruct E as [E|E]; rewrite E.
  - cbn [Js.truthyOpt].
    repeat match goal with
    | |- (if ?c then _ else _) = _ -> _ => destruct c
    end; discriminate.
  - intros [= <-]. reflexivity.
Qed.

Lemma the_only_error_shown_is_the_original_one_witness :
  "Failed to load original file content." = ORIGINAL_FAILED.
Proof.
  apply (the_only_error_shown_is_the_original_one derivesNothing
           [Render (preview "a.pdf"); FetchSettled 0 None] true).
  vm_compute. reflexivity.
Defined.

(* ================================================================= *)
(** ** The first version of the component *)

Create HintDb orig.

Lemma originalOnly_same w w' :
  st w' = st w -> pool w' = pool w -> log w' = log w ->
  originalOnly w -> originalOnly w'.
Proof. unfold originalOnly. intros -> -> ->. trivial. Qed.

Lemma originalOnly_setState w i f :
  (forall s, indexedContent (f s) = indexedContent s) ->
  (forall s, indexedContentLoading (f s) = indexedContentLoading s) ->
  originalOnly w -> originalOnly (setState i f w).
Proof.
  intros Hc Hl (P & R & C & L). unfold originalOnly.
  rewrite st_setState, pool_setState, log_setState.
  destruct (alive i w); [rewrite Hc, Hl|]; now repeat split.
Qed.

Lemma originalOnly_emit w e :
  (forall d, e <> FetchIndexed d) -> originalOnly w -> originalOnly (emit e w).
Proof.
  intros He (P & R & C & L). unfold originalOnly.
  rewrite st_emit, pool_emit, log_emit. repeat split; trivial.
  destruct e; cbn; trivial. now destruct (He docId).
Qed.

Lemma originalOnly_spawn w i r t :
  origTask (mkEntry (nextTid w) i r t) = true ->
  originalOnly w -> originalOnly (spawn i r t w).
Proof.
  intros Ht (P & R & C & L). unfold originalOnly.
  rewrite st_spawn, pool_spawn, log_spawn. repeat split; trivial.
  now constructor.
Qed.

Lemma Forall_orig_dropTask id l :
  Forall (fun e => origTask e = true) l ->
  Forall (fun e => origTask e = true) (dropTask id l).
Proof.
  intros H. apply Forall_forall. intros e He.
  apply In_dropTask in He as [He _]. revert e He. now apply Forall_forall.
Qed.

Lemma originalOnly_dropTask w id :
  originalOnly w -> originalOnly (withPool (dropTask id) w).
Proof.
  intros (P & R & C & L). repeat split; trivial. now apply Forall_orig_dropTask.
Qed.

Lemma originalOnly_suspend w e t :
  origTask (mkEntry (tid e) (owner e) (run e) t) = true ->
  originalOnly w -> originalOnly (suspend e t w).
Proof.
  intros Ht (P & R & C & L). repeat split; trivial.
  cbn. constructor; [assumption|now apply Forall_orig_dropTask].
Qed.

#[local] Hint Resolve originalOnly_spawn originalOnly_dropTask
  originalOnly_suspend : orig.
#[local] Hint Extern 2 (originalOnly (setState _ _ _)) =>
  apply originalOnly_setState; [reflexivity|reflexivity|] : orig.
#[local] Hint Extern 2 (originalOnly (emit _ _)) =>
  apply originalOnly_emit; [discriminate|] : orig.
#[local] Hint Extern 1 (origTask _ = true) => reflexivity : orig.

Lemma originalOnly_finallyIfSettled w i r :
  originalOnly w -> originalOnly (finallyIfSettled i r w).
Proof. unfold finallyIfSettled. destruct (runPending _ _); auto with orig. Qed.

#[local] Hint Resolve originalOnly_finallyIfSettled : orig.

Lemma originalOnly_complete w e : originalOnly w -> originalOnly (complete e w).
Proof. unfold complete. auto with orig. Qed.

#[local] Hint Resolve originalOnly_complete : orig.

Lemma originalOnly_originalCatch w e :
  originalOnly w -> originalOnly (originalCatch e w).
Proof. unfold originalCatch. cbv zeta. auto 7 with orig. Qed.

Lemma originalOnly_createObjectURL w i u :
  originalOnly w -> originalOnly (setState i (setFileUrl u) (snd (createObjectURL w))).
Proof.
  intros H. apply originalOnly_setState; [reflexivity|reflexivity|].
  destruct H as (P & R & C & L). now repeat split.
Qed.

#[local] Hint Resolve originalOnly_originalCatch originalOnly_createObjectURL : orig.

Lemma originalOnly_fetchOriginalContent w p i r :
  originalOnly w -> originalOnly (fetchOriginalContent p i r w).
Proof.
  unfold fetchOriginalContent. destruct (Js.truthyOpt _); cbv zeta; auto 7 with orig.
Qed.

Lemma originalOnly_runEffect1 w p : originalOnly w -> originalOnly (runEffect1 p w).
Proof.
  intros H. unfold runEffect1. destruct (isOpen p); [|assumption]. cbv zeta.
  apply originalOnly_finallyIfSettled, originalOnly_fetchOriginalContent.
  do 2 (apply originalOnly_setState; [reflexivity|reflexivity|]).
  revert H. now apply originalOnly_same.
Qed.

Lemma originalOnly_render1 w p : originalOnly w -> originalOnly (render1 p w).
Proof.
  intros H. unfold render1.
  assert (H1 : originalOnly (if mounted w then w else mount w)).
  { destruct (mounted w); [assumption|].
    destruct H as (P & R & C & L). now repeat split. }
  cbv zeta. destruct (depsChanged _ _).
  - apply originalOnly_runEffect1. revert H1. now apply originalOnly_same.
  - revert H1. now apply originalOnly_same.
Qed.

Lemma originalOnly_fetchSettled w e r :
  origTask e = true -> originalOnly w -> originalOnly (fetchSettled e r w).
Proof.
  unfold origTask, fetchSettled. intros He H.
  destruct (task e); try discriminate; trivial.
  destruct r as [resp|]; try destruct (ok resp); auto with orig.
Qed.

Lemma originalOnly_resume w e :
  origTask e = true -> originalOnly w -> originalOnly (resume e w).
Proof.
  intros He H. destruct (task e) as [q|q resp|q blob|q|q resp] eqn:Ht;
    try (unfold resume; rewrite Ht; assumption);
    try (unfold origTask in He; rewrite Ht in He; discriminate).
  - destruct (blobOf resp) as [blob|] eqn:Hb.
    + rewrite (resume_blob e q resp blob w Ht Hb). cbv zeta.
      destruct (_ || _); auto 6 with orig.
    + unfold resume. rewrite Ht, Hb. auto with orig.
  - unfold resume. rewrite Ht. cbv zeta. auto 6 with orig.
Qed.

Lemma originalOnly_step1 w ev : originalOnly w -> originalOnly (step1 w ev).
Proof.
  intros H. destruct ev; cbn [step1].
  - now apply originalOnly_render1.
  - revert H. now apply originalOnly_same.
  - destruct (mounted w); auto with orig.
  - destruct (_ && _); auto with orig.
  - destruct (mounted w); trivial. unfold handleDownload.
    destruct (Js.truthy _); auto with orig.
  - destruct (lookupTask id w) as [e|] eqn:E; trivial.
    apply originalOnly_fetchSettled; trivial.
    apply lookupTask_In in E as [E _].
    destruct H as (P & _). now apply (proj1 (Forall_forall _ _) P).
  - destruct (lookupTask id w) as [e|] eqn:E; trivial.
    apply originalOnly_resume; trivial.
    apply lookupTask_In in E as [E _].
    destruct H as (P & _). now apply (proj1 (Forall_forall _ _) P).
Qed.

Lemma originalOnly_runEvents1 evs : forall w,
  originalOnly w -> originalOnly (runEvents1 w evs).
Proof.
  induction evs as [|ev evs IH]; intros w H; cbn; [assumption|].
  apply IH. now apply originalOnly_step1.
Qed.

(** X17: The first version of the component never asks for indexed content: in
    every session the indexed-content endpoint is not contacted, the indexed
    text stays empty and its loading flag stays set, so that the indexed
    panel, were it shown, would be the spinner for ever. *)
Theorem first_version_never_fetches_indexed_content (evs : list Event) :
  indexedRequests (log (runEvents1 initialWorld evs)) = []
  /\ indexedContent (st (runEvents1 initialWorld evs)) = EmptyString
  /\ indexedContentLoading (st (runEvents1 initialWorld evs)) = true
  /\ renderFileContent (props (runEvents1 initialWorld evs))
                       (st (runEvents1 initialWorld evs)) false = Spinner.
Proof.
  assert (H : originalOnly initialWorld) by (repeat split; constructor).
  apply (originalOnly_runEvents1 evs) in H. destruct H as (_ & R & C & L).
  repeat split; trivial.
  unfold renderFileContent. now rewrite L, orb_true_r.
Qed.

(* ================================================================= *)
(** ** When rendering a configuration value throws *)

Section RenderValue.

Variable number : Type.
Variable numberToString : number -> string.
Variable numberTruthy : number -> bool.
Variable jsonStringify : list (string * JsValue number) -> string.

Lemma fileRows_None (l : list (JsValue number)) :
  fileRows number l = None <-> exists x, In x l /\ notAString number x.
Proof.
  induction l as [|x l IH]; cbn [fileRows].
  - split; [discriminate|]. now intros (x & [] & _).
  - destruct x as [| | b | n | s | items | fields];
      try (split; [intros _; eexists; split; [now left|intros s; discriminate]
                  |reflexivity]).
    destruct (fileRows number l) as [rows|].
    + split; [discriminate|]. intros (x & [<-|Hx] & Hn).
      * now destruct (Hn s).
      * exfalso. assert (E : Some rows = None) by (apply IH; now exists x).
        discriminate E.
    + split; [|reflexivity]. intros _.
      destruct (proj1 IH eq_refl) as (x & Hx & Hn).
      exists x. split; [now right|assumption].
Qed.

(** X18: Rendering the value of a configuration item throws exactly when the item
    is a file list and one of the items it displays is not a string.  A file
    list of more than five items whose first five are strings is therefore
    rendered while collapsed, and throws when it is expanded if a later item
    is not a string. *)
Theorem renderValue_throws_on_a_file_item_that_is_not_a_string
    (c : ConfigItemState) (pr : ConfigItemProps number) :
  renderValue number numberToString numberTruthy jsonStringify c pr = None
  <-> exists items x,
        value number pr = JArr items /\ isFileItem number pr = true
        /\ In x (displayedItems (isExpanded c) items) /\ notAString number x.
Proof.
  unfold renderValue. split.
  - destruct (value number pr) as [| | b | n | s | items | fields]; try discriminate.
    destruct (isFileItem number pr); [|discriminate]. cbv zeta.
    destruct (fileRows number _) as [rows|] eqn:E; [discriminate|]. intros _.
    apply fileRows_None in E as (x & Hx & Hn). now exists items, x.
  - intros (items & x & -> & -> & Hx & Hn). cbv zeta.
    assert (E : fileRows number (displayedItems (isExpanded c) items) = None)
      by (apply fileRows_None; now exists x).
    now rewrite E.
Qed.

End RenderValue.

Lemma renderValue_throws_on_a_file_item_that_is_not_a_string_witness :
  renderValue Z showNumber (fun n => negb (Z.eqb n 0)) emptyJson
    (toggleExpanded initialConfigItem)
    (mkConfigItemProps Z "file_names"
       (JArr [JStr "a"; JStr "b"; JStr "c"; JStr "d"; JStr "e"; JNum 6%Z]) true [])
  = None.
Proof.
  apply (renderValue_throws_on_a_file_item_that_is_not_a_string Z showNumber
           (fun n => negb (Z.eqb n 0)) emptyJson).
  exists [JStr "a"; JStr "b"; JStr "c"; JStr "d"; JStr "e"; JNum 6%Z], (JNum 6%Z).
  repeat split; [cbn; tauto|intros s; discriminate].
Defined.

(* ================================================================= *)
(** ** Splitting a file name at its dots *)

Lemma split_concat (sep : ascii) (s : string) :
  String.concat (String sep EmptyString) (Js.split sep s) = s.
Proof.
  induction s as [|c s IH]; [reflexivity|]. cbn [Js.split].
  destruct (Ascii.eqb_spec c sep) as [->|].
  - destruct (Js.split sep s) as [|y l] eqn:E; [now apply split_not_nil in E|].
    rewrite concat_cons2. cbn. now rewrite <- IH.
  - destruct (Js.split sep s) as [|y l] eqn:E; [now apply split_not_nil in E|].
    rewrite <- IH. destruct l; reflexivity.
Qed.

Lemma split_pieces (sep : ascii) (s : string) :
  Forall (fun seg => Js.hasChar sep seg = false) (Js.split sep s).
Proof.
  induction s as [|c s IH]; cbn [Js.split]; [now repeat constructor|].
  destruct (Ascii.eqb c sep) eqn:E; [now constructor|].
  destruct (Js.split sep s) as [|y l]; [repeat constructor; cbn; now rewrite E|].
  inversion IH; subst. constructor; [cbn; now rewrite E|assumption].
Qed.

Lemma pop_In (l : list string) (x : string) : Js.pop l = Some x -> In x l.
Proof.
  induction l as [|y l IH]; [discriminate|].
  destruct l as [|z l]; [intros [= ->]; now left|].
  intros H. right. now apply IH.
Qed.

Lemma hasChar_toLowerCase (s : string) :
  Js.hasChar "." (Js.toLowerCase s) = Js.hasChar "." s.
Proof.
  induction s as [|c s IH]; [reflexivity|]. cbn. now rewrite lowerChar_is_dot, IH.
Qed.

(** X19: Splitting a file name at its dots loses nothing: the pieces joined by
    dots are the name again, and no piece contains a dot.  The extension, the
    last piece in lower case, therefore contains no dot, and lowering it again
    changes nothing. *)
Theorem split_round_trip_and_extension (f : string) :
  String.concat "." (Js.split "." f) = f
  /\ Forall (fun seg => Js.hasChar "." seg = false) (Js.split "." f)
  /\ Js.hasChar "." (fileExt f) = false
  /\ Js.toLowerCase (fileExt f) = fileExt f.
Proof.
  split; [apply split_concat|split; [apply split_pieces|]].
  unfold fileExt.
  destruct (Js.pop (Js.split "." f)) as [e|] eqn:E; [|now split].
  cbn [option_map]. unfold Js.orElse.
  destruct (Js.truthy (Js.toLowerCase e)); [|now split].
  split; [|apply toLowerCase_idem].
  rewrite hasChar_toLowerCase.
  apply pop_In in E. exact (proj1 (Forall_forall _ _) (split_pieces "." f) e E).
Qed.

(* ================================================================= *)
(** ** The two versions side by side *)

Create HintDb sim.

Lemma sameOriginal_refl s : sameOriginal s s.
Proof. now repeat split. Qed.

Lemma sameSession_alive i w1 w2 : sameSession w1 w2 -> alive i w1 = alive i w2.
Proof. intros (Hm & Hi & _). unfold alive. now rewrite Hm, Hi. Qed.

Lemma sameSession_withSt w1 w2 g1 g2 :
  sameOriginal (g1 (st w1)) (g2 (st w2)) ->
  sameSession w1 w2 -> sameSession (withSt g1 w1) (withSt g2 w2).
Proof.
  intros Hg (Hm & Hi & Hp & Hd & _ & Hrest).
  unfold sameSession. cbn [mounted instance props lastDeps st withSt].
  do 4 (split; [assumption|]). split; [exact Hg|exact Hrest].
Qed.

Lemma sameSession_st w1 w2 : sameSession w1 w2 -> sameOriginal (st w1) (st w2).
Proof. intros H. apply H. Qed.

Lemma sameSession_setState w1 w2 i f :
  (forall s1 s2, sameOriginal s1 s2 -> sameOriginal (f s1) (f s2)) ->
  sameSession w1 w2 -> sameSession (setState i f w1) (setState i f w2).
Proof.
  intros Hf H. unfold setState. apply sameSession_withSt; [|assumption].
  rewrite (sameSession_alive i _ _ H).
  destruct (alive i w2); [apply Hf|]; now apply sameSession_st.
Qed.

Lemma sameSession_setState_right w1 w2 i f :
  (forall s1 s2, sameOriginal s1 s2 -> sameOriginal s1 (f s2)) ->
  sameSession w1 w2 -> sameSession w1 (setState i f w2).
Proof.
  intros Hf H. unfold setState.
  assert (E : sameSession (withSt (fun s => s) w1)
                (withSt (fun s => if alive i w2 then f s else s) w2)).
  { apply sameSession_withSt; [|assumption].
    destruct (alive i w2); [apply Hf|]; now apply sameSession_st. }
  exact E.
Qed.

(** Take a relation between worlds apart, down to its equations. *)
Ltac sim_destruct H :=
  destruct H as (?Hm & ?Hi & ?Hp & ?Hd & (?S1 & ?S2 & ?S3 & ?S4 & ?S5 & ?S6)
                 & ?Hl & ?Ht & ?Hr & ?Hb & ?Hf & ?Hc).

Lemma sameSession_emit w1 w2 e :
  sameSession w1 w2 -> sameSession (emit e w1) (emit e w2).
Proof.
  intros H. sim_destruct H.
  unfold sameSession. rewrite !log_emit.
  repeat split; trivial; destruct e; cbn; congruence.
Qed.

Lemma sameSession_emit_right w1 w2 e :
  (forall f, e <> FetchFile f) -> (forall u, e <> CreateObjectURL u) ->
  sameSession w1 w2 -> sameSession w1 (emit e w2).
Proof.
  intros N1 N2 H. sim_destruct H.
  unfold sameSession. rewrite !log_emit.
  repeat split; trivial; destruct e; cbn; trivial.
  - now destruct (N1 fileId).
  - now destruct (N2 url).
Qed.

Lemma sameSession_spawn w1 w2 i r t :
  sameSession w1 w2 -> sameSession (spawn i r t w1) (spawn i r t w2).
Proof.
  intros H. sim_destruct H.
  unfold sameSession. cbn. repeat split; trivial; congruence.
Qed.

Lemma sameSession_withPool w1 w2 f :
  sameSession w1 w2 -> sameSession (withPool f w1) (withPool f w2).
Proof.
  intros H. sim_destruct H.
  unfold sameSession. cbn. repeat split; trivial; congruence.
Qed.

Lemma sameSession_suspend w1 w2 e t :
  sameSession w1 w2 -> sameSession (suspend e t w1) (suspend e t w2).
Proof. unfold suspend. apply sameSession_withPool. Qed.

#[local] Hint Resolve sameSession_emit sameSession_spawn sameSession_withPool
  sameSession_suspend : sim.
#[local] Hint Extern 2 (sameSession (setState _ _ _) (setState _ _ _)) =>
  apply sameSession_setState;
    [intros ? ? (? & ? & ? & ? & ? & ?); repeat split; assumption|] : sim.

Lemma sameSession_finallyIfSettled w1 w2 i r :
  sameSession w1 w2 ->
  sameSession (finallyIfSettled i r w1) (finallyIfSettled i r w2).
Proof.
  intros H. unfold finallyIfSettled.
  replace (pool w1) with (pool w2) by (symmetry; apply H).
  destruct (runPending _ _); auto with sim.
Qed.

#[local] Hint Resolve sameSession_finallyIfSettled : sim.

Lemma sameSession_complete w1 w2 e :
  sameSession w1 w2 -> sameSession (complete e w1) (complete e w2).
Proof. unfold complete. auto with sim. Qed.

#[local] Hint Resolve sameSession_complete : sim.

Lemma sameSession_originalCatch w1 w2 e :
  sameSession w1 w2 -> sameSession (originalCatch e w1) (originalCatch e w2).
Proof. unfold originalCatch. cbv zeta. auto 7 with sim. Qed.

Lemma sameSession_indexedCatch w1 w2 i :
  sameSession w1 w2 -> sameSession (indexedCatch i w1) (indexedCatch i w2).
Proof. unfold indexedCatch. cbv zeta. auto 7 with sim. Qed.

#[local] Hint Resolve sameSession_originalCatch sameSession_indexedCatch : sim.

Lemma sameSession_createObjectURL w1 w2 i :
  sameSession w1 w2 ->
  sameSession (setState i (setFileUrl (fst (createObjectURL w1)))
                        (snd (createObjectURL w1)))
              (setState i (setFileUrl (fst (createObjectURL w2)))
                        (snd (createObjectURL w2))).
Proof.
  intros H. rewrite !fst_createObjectURL.
  replace (nextBlob w1) with (nextBlob w2) by (symmetry; apply H).
  apply sameSession_setState;
    [intros ? ? (? & ? & ? & ? & ? & ?); repeat split; assumption|].
  sim_destruct H.
  unfold sameSession. cbn. repeat split; trivial; congruence.
Qed.

#[local] Hint Resolve sameSession_createObjectURL : sim.

Lemma sameSession_fetchOriginalContent w1 w2 p i r :
  sameSession w1 w2 ->
  sameSession (fetchOriginalContent p i r w1) (fetchOriginalContent p i r w2).
Proof.
  unfold fetchOriginalContent. destruct (Js.truthyOpt _); cbv zeta; auto 7 with sim.
Qed.

Lemma sameSession_fetchSettled w1 w2 e r :
  sameSession w1 w2 -> sameSession (fetchSettled e r w1) (fetchSettled e r w2).
Proof.
  unfold fetchSettled. intros H.
  destruct (task e); trivial;
    destruct r as [resp|]; try destruct (ok resp); auto with sim.
Qed.

Lemma sameSession_resume w1 w2 e :
  sameSession w1 w2 -> sameSession (resume e w1) (resume e w2).
Proof.
  intros H. destruct (task e) as [q|q resp|q blob|q|q resp] eqn:Ht;
    try (unfold resume; rewrite Ht; assumption).
  - destruct (blobOf resp) as [blob|] eqn:Hb.
    + rewrite !(resume_blob e q resp blob _ Ht Hb). cbv zeta.
      destruct (_ || _); auto 6 with sim.
    + unfold resume. rewrite Ht, Hb. auto with sim.
  - unfold resume. rewrite Ht. cbv zeta. auto 6 with sim.
  - unfold resume. rewrite Ht. destruct (jsonOf resp); cbv zeta; auto 6 with sim.
Qed.

Lemma sameSession_handleDownload w1 w2 :
  sameSession w1 w2 -> sameSession (handleDownload w1) (handleDownload w2).
Proof.
  intros H. unfold handleDownload.
  pose proof H as (_ & _ & Hp & _ & (_ & _ & _ & _ & Hu & _) & _).
  rewrite Hu, Hp.
  destruct (Js.truthy _); [apply sameSession_emit|]; assumption.
Qed.

Section TwoVersions.

Variable gd : string -> string.

(** The indexed fetch of the second version, when it settles at once, only
    touches what the relation ignores. *)
Lemma sameSession_fetchIndexedContent w1 w2 p i r :
  Js.truthyOpt (mockIndexedContent p) = true \/ Js.truthy (docIdOf gd p) = false ->
  sameSession w1 w2 -> sameSession w1 (fetchIndexedContent gd p i r w2).
Proof.
  intros Hp H. unfold fetchIndexedContent.
  destruct (Js.truthyOpt (mockIndexedContent p)) eqn:M; cbv zeta.
  - do 2 (apply sameSession_setState_right;
            [intros ? ? (? & ? & ? & ? & ? & ?); repeat split; assumption|]).
    assumption.
  - destruct Hp as [Hp|Hp]; [discriminate|]. rewrite Hp. cbn [negb].
    unfold indexedCatch. cbv zeta.
    do 2 (apply sameSession_setState_right;
            [intros ? ? (? & ? & ? & ? & ? & ?); repeat split; assumption|]).
    apply sameSession_emit_right; [discriminate|discriminate|].
    apply sameSession_setState_right;
      [intros ? ? (? & ? & ? & ? & ? & ?); repeat split; assumption|].
    assumption.
Qed.

Lemma sameSession_runEffect w1 w2 p :
  Js.truthyOpt (mockIndexedContent p) = true \/ Js.truthy (docIdOf gd p) = false ->
  sameSession w1 w2 -> sameSession (runEffect1 p w1) (runEffect gd p w2).
Proof.
  intros Hp H. unfold runEffect1, runEffect. destruct (isOpen p); [|assumption].
  cbv zeta.
  sim_destruct H.
  rewrite Hi, Hr.
  set (u1 := mkWorld _ _ _ _ _ _ _ _ _ _).
  set (u2 := mkWorld _ _ _ _ _ _ _ _ _ _).
  assert (H0 : sameSession u1 u2) by (subst u1 u2; repeat split; cbn; congruence).
  set (v1 := fetchOriginalContent p _ _ _).
  set (v2 := fetchOriginalContent p _ _ _).
  assert (H1 : sameSession v1 v2).
  { subst v1 v2. apply sameSession_fetchOriginalContent. auto with sim. }
  pose proof (sameSession_fetchIndexedContent v1 v2 p (instance w2) (nextRun w2) Hp H1)
    as H2.
  unfold finallyIfSettled.
  replace (pool (fetchIndexedContent gd p (instance w2) (nextRun w2) v2))
    with (pool v1) by apply H2.
  destruct (runPending _ _); auto with sim.
Qed.

Lemma sameSession_render w1 w2 p :
  Js.truthyOpt (mockIndexedContent p) = true \/ Js.truthy (docIdOf gd p) = false ->
  sameSession w1 w2 -> sameSession (render1 p w1) (render gd p w2).
Proof.
  intros Hp H. unfold render1, render.
  assert (H1 : sameSession (if mounted w1 then w1 else mount w1)
                           (if mounted w2 then w2 else mount w2)).
  { pose proof H as (Hm & _). rewrite Hm. destruct (mounted w2); [assumption|].
    sim_destruct H. repeat split; cbn; congruence. }
  cbv zeta.
  set (u1 := if mounted w1 then w1 else mount w1) in *.
  set (u2 := if mounted w2 then w2 else mount w2) in *.
  assert (Hc : depsChanged p u1 = depsChanged p u2).
  { unfold depsChanged. now replace (lastDeps u1) with (lastDeps u2)
      by (symmetry; apply H1). }
  rewrite Hc.
  assert (H2 : sameSession
                 (mkWorld (mounted u1) (instance u1) p (Some (depsOf p)) (st u1)
                    (pool u1) (nextTid u1) (nextRun u1) (nextBlob u1) (log u1))
                 (mkWorld (mounted u2) (instance u2) p (Some (depsOf p)) (st u2)
                    (pool u2) (nextTid u2) (nextRun u2) (nextBlob u2) (log u2))).
  { sim_destruct H1.
    repeat split; cbn; congruence. }
  destruct (depsChanged p u2); [now apply sameSession_runEffect|assumption].
Qed.

Lemma sameSession_step w1 w2 ev :
  indexedAtOnce gd ev -> sameSession w1 w2 ->
  sameSession (step1 w1 ev) (step gd w2 ev).
Proof.
  intros Hev H. pose proof H as (Hm & _ & _ & _ & _ & Hl & _).
  destruct ev; cbn [step1 step].
  - now apply sameSession_render.
  - sim_destruct H.
    repeat split; cbn; congruence.
  - rewrite Hm. destruct (mounted w2); auto with sim.
  - rewrite Hm. destruct (_ && _); auto with sim.
  - rewrite Hm. destruct (mounted w2); trivial. now apply sameSession_handleDownload.
  - unfold lookupTask. rewrite Hl. destruct (find _ _); trivial.
    now apply sameSession_fetchSettled.
  - unfold lookupTask. rewrite Hl. destruct (find _ _); trivial.
    now apply sameSession_resume.
Qed.

Lemma sameSession_runEvents evs : forall w1 w2,
  Forall (indexedAtOnce gd) evs -> sameSession w1 w2 ->
  sameSession (runEvents1 w1 evs) (runEvents gd w2 evs).
Proof.
  induction evs as [|ev evs IH]; intros w1 w2 Hevs H; cbn; [assumption|].
  inversion Hevs; subst. apply IH; [assumption|]. now apply sameSession_step.
Qed.

(** X20: As long as every render comes with mock indexed content or without a
    document id, the two versions of the component cannot be told apart by
    the user: after the same events they show the same dialog, have the same
    fetches pending, and have asked for the same files and created the same
    object URLs. *)
Theorem versions_agree_when_indexed_settles_at_once (evs : list Event) :
  Forall (indexedAtOnce gd) evs ->
  shown (runEvents1 initialWorld evs) = shown (runEvents gd initialWorld evs)
  /\ pool (runEvents1 initialWorld evs) = pool (runEvents gd initialWorld evs)
  /\ fileRequests (log (runEvents1 initialWorld evs))
     = fileRequests (log (runEvents gd initialWorld evs))
  /\ createdURLs (log (runEvents1 initialWorld evs))
     = createdURLs (log (runEvents gd initialWorld evs)).
Proof.
  intros Hevs.
  assert (H : sameSession initialWorld initialWorld) by now repeat split.
  apply (sameSession_runEvents evs _ _ Hevs) in H.
  destruct H as (_ & _ & Hp & _ & Hs & Hl & _ & _ & _ & Hf & Hc).
  repeat split; trivial.
  destruct Hs as (S1 & S2 & _ & S4 & S5 & S6).
  unfold shown, FilePreviewModal, renderFileContent.
  now rewrite Hp, S1, S2, S4, S5, S6.
Qed.

End TwoVersions.

Lemma versions_agree_when_indexed_settles_at_once_witness :
  shown (runEvents1 initialWorld imageOpened)
  = shown (runEvents derivesNothing initialWorld imageOpened).
Proof.
  apply (versions_agree_when_indexed_settles_at_once derivesNothing imageOpened).
  unfold imageOpened. constructor; [right; reflexivity|]. repeat constructor.
Defined.
